(** * n8n-nodes-ainoflow: request construction, pagination and error
      normalisation of the Ainoflow Files, Convert and Storage nodes.

    A shallow embedding of the TypeScript sources:
    - [GenericFunctions]   src/nodes/GenericFunctions.ts
    - [Files]              the AinoflowFiles node
    - [Convert]            the AinoflowConvert node
    - [Storage]            the AinoflowStorage node (shared error handler)
    - [StorageLocal]       the AinoflowStorage node with its own error handler

    Modelling conventions.
    - A JavaScript string is a Rocq [string], read as the sequence of bytes of
      its UTF-8 encoding; [Buffer.from(s, 'utf8')] is then [list_byte_of_string].
      Strings with lone surrogates have no UTF-8 encoding and are not modelled.
    - A JavaScript number is an integer [Z] (the numbers that occur here are
      status codes, limits, offsets, page numbers and lengths).
    - A JavaScript object used as a record of own properties is an association
      list in property order, as [Object.entries] enumerates it.
    - The HTTP transport is a deterministic server: a function of the requests
      already sent and of the request at hand.  The only state a run threads is
      the list of requests sent so far.
    - [while] loops take fuel; running out of fuel is a separate outcome,
      never confused with a returned value or a thrown error.
    - [new NodeApiError(...)] is the constructor of the n8n-workflow library;
      [N8nWorkflow] models what it makes of the options [handleApiError]
      passes, so that the errors of the model show what the real errors
      show.
    - The host's helpers [assertBinaryData] and [getBinaryDataBuffer] return
      or throw; what they do for an item is part of the item's input. *)

From Stdlib Require Import String Ascii List ZArith Lia Bool DecimalString.
From Stdlib.Strings Require Import Byte.
From Stdlib.Sorting Require Import Sorted.
Import ListNotations.
Open Scope string_scope.
Open Scope Z_scope.
Open Scope list_scope.
Set Warnings "-register-all".

(** String concatenation, kept apart from list append. *)
Infix "+++" := String.append (at level 60, right associativity).

(** The double-quote character and the line terminator of the wire format. *)
Definition DQUOTE : string := String "034" EmptyString.
Definition CRLF : string := String "013" (String "010" EmptyString).

(* ------------------------------------------------------------------------ *)
(** ** JavaScript values *)

Module JS.

(** JSON values, [undefined], and binary buffers ([JBuf]). *)
Inductive Json : Type :=
| JUndefined
| JNull
| JBool (b : bool)
| JNum (n : Z)
| JStr (s : string)
| JArr (xs : list Json)
| JObj (fields : list (string * Json))
| JBuf (bytes : list byte).

(** ToBoolean. *)
Definition truthy (v : Json) : bool :=
  match v with
  | JUndefined | JNull => false
  | JBool b => b
  | JNum n => negb (n =? 0)
  | JStr s => negb (s =? EmptyString)%string
  | JArr _ | JObj _ | JBuf _ => true
  end.

(** Truthiness of a string-typed value ([if (value)], [a || b]). *)
Definition nonempty (s : string) : bool := negb (s =? EmptyString)%string.

(** [o || d] on an optional string. *)
Definition or_else (o : option string) (d : string) : string :=
  match o with
  | Some s => if nonempty s then s else d
  | None => d
  end.

(** Own-property lookup in a property list. *)
Fixpoint assoc {A : Type} (k : string) (l : list (string * A)) : option A :=
  match l with
  | [] => None
  | (k', v) :: l' => if (k =? k')%string then Some v else assoc k l'
  end.

(** [Number.prototype.toString()] on an integer. *)
Definition toString (n : Z) : string := NilZero.string_of_int (Z.to_int n).

(** [xs.join(',')]. *)
Fixpoint join (sep : string) (xs : list string) : string :=
  match xs with
  | [] => EmptyString
  | [x] => x
  | x :: xs' => x +++ sep +++ join sep xs'
  end.

End JS.
Import JS.

(* ------------------------------------------------------------------------ *)
(** ** Errors *)

(** A caught value, seen through the properties the handlers read
    ([statusCode], [message], [response.body.error.message]) and the one the
    [NodeApiError] constructor reads besides: [code], the error code Node.js
    and the HTTP client put on a failure (ECONNREFUSED, ERR_INVALID_ARG_TYPE,
    ...).  The caught values modelled carry nothing else the constructor
    looks at: no [httpCode], [status], [description], [reason],
    [response.status] or [response.data], and no status property inside the
    response body. *)
Record HttpError : Type := mkCaught {
  statusCode : option Z;
  message : option string;
  responseMessage : option string;
  code : option string
}.

(** A caught value without an error code. *)
Definition mkHttpError (statusCode : option Z) (message responseMessage : option string)
  : HttpError :=
  mkCaught statusCode message responseMessage None.

(** [NodeApiError], as the constructor of n8n-workflow delivers it: the
    [message], [description] and [httpCode] properties of the constructed
    error, the item index of its context and the original error it wraps. *)
Record NodeApiError : Type := mkNodeApiError {
  apiMessageText : string;
  apiDescription : option string;
  apiHttpCode : option string;
  apiItemIndex : nat;
  apiCause : HttpError
}.

(** [NodeOperationError]. *)
Record NodeOperationError : Type := mkNodeOperationError {
  opMessage : option string;
  opItemIndex : nat;
  opDescription : option string
}.

(** Everything an operation can throw. *)
Inductive Exn : Type :=
| ApiExn (e : NodeApiError)
| OperationExn (e : NodeOperationError)
| OtherExn (e : HttpError).

(** [(error as Error).message]. *)
Definition exn_message (e : Exn) : option string :=
  match e with
  | ApiExn a => Some (apiMessageText a)
  | OperationExn o => opMessage o
  | OtherExn h => message h
  end.

(** The caught value as the handlers' cast [error as {statusCode?, message?,
    response?}] sees it.  Node errors carry a message and neither a numeric
    [statusCode] nor a [response]. *)
Definition as_http (e : Exn) : HttpError :=
  match e with
  | OtherExn h => h
  | _ => mkHttpError None (exn_message e) None
  end.

(* ------------------------------------------------------------------------ *)
(** ** The NodeApiError constructor of n8n-workflow *)

(** [handleApiError] ends in [new NodeApiError(node, error, {message,
    description, httpCode, itemIndex})].  The class belongs to the
    n8n-workflow library; what its constructor does with these options
    decides what the returned error shows.  With a message and a description
    given (both are never empty here) and a caught value as [HttpError]
    describes it, the constructor
    - takes the [httpCode] option when there is one, and otherwise the first
      status property it finds in the error, which is its [code] (a code
      that is the name of an error, as [codeName] below describes it; the
      constructor reads a code that is JSON text as the value it denotes,
      and the properties that depend on the code are stated for names
      only);
    - keeps the description, unless it equals the message: a description
      that repeats the message is unset;
    - passes the message through [setDescriptiveErrorMessage] with the code
      ([httpCode], else the error's [code]): a code listed in
      [COMMON_ERRORS] replaces the message by the descriptive text of the
      list, and so does the name of a listed code occurring in the message,
      whatever the letter case of the message. *)
Module N8nWorkflow.

Definition COMMON_ERRORS : list (string * string) :=
  [("ECONNREFUSED", "The service refused the connection - perhaps it is offline");
   ("ECONNRESET",
    "The connection to the server was closed unexpectedly, perhaps it is offline. You can retry the request immediately or wait and retry later.");
   ("ENOTFOUND",
    "The connection cannot be established, this usually occurs due to an incorrect host (domain) value");
   ("ETIMEDOUT",
    "The connection timed out, consider setting the 'Retry on Fail' option in the node settings");
   ("ERRADDRINUSE",
    "The port is already occupied by some other application, if possible change the port or kill the application that is using it");
   ("EADDRNOTAVAIL",
    "The address is not available, ensure that you have the right IP address");
   ("ECONNABORTED", "The connection was aborted, perhaps the server is offline");
   ("EHOSTUNREACH", "The host is unreachable, perhaps the server is offline");
   ("EAI_AGAIN", "The DNS server returned an error, perhaps the server is offline");
   ("ENOENT", "The file or directory does not exist");
   ("EISDIR", "The file path was expected but the given path is a directory");
   ("ENOTDIR", "The directory path was expected but the given path is a file");
   ("EACCES",
    "Forbidden by access permissions, make sure you have the right permissions");
   ("EEXIST", "The file or directory already exists");
   ("EPERM", "Operation not permitted, make sure you have the right permissions");
   ("GETADDRINFO", "The server closed the connection unexpectedly")].

(** [String.prototype.toUpperCase], exact on ASCII text. *)
Definition upperChar (c : ascii) : ascii :=
  let n := nat_of_ascii c in
  if (Nat.leb 97 n && Nat.leb n 122)%bool then ascii_of_nat (n - 32) else c.

Fixpoint toUpperCase (s : string) : string :=
  match s with
  | EmptyString => EmptyString
  | String c s' => String (upperChar c) (toUpperCase s')
  end.

(** [hay.includes(needle)]. *)
Fixpoint includes (needle hay : string) : bool :=
  if String.prefix needle hay then true
  else match hay with
       | EmptyString => false
       | String _ hay' => includes needle hay'
       end.

(** The descriptive text of a listed code. *)
Definition commonErrorFor (code : option string) : option string :=
  match code with
  | Some c => assoc c COMMON_ERRORS
  | None => None
  end.

(** The descriptive text of the first listed code whose name occurs in the
    message. *)
Definition commonErrorIn (message : string) : option string :=
  option_map snd
    (find (fun entry => includes (toUpperCase (fst entry)) (toUpperCase message))
       COMMON_ERRORS).

(** The message [setDescriptiveErrorMessage(message, messages, code)]
    returns, no message mapping being given. *)
Definition setDescriptiveErrorMessage (message : string) (code : option string)
  : string :=
  match commonErrorFor code with
  | Some text => text
  | None =>
      match commonErrorIn message with
      | Some text => text
      | None => message
      end
  end.

(** A property that is set and truthy. *)
Definition truthyString (o : option string) : option string :=
  match o with
  | Some s => if nonempty s then Some s else None
  | None => None
  end.

(** [new NodeApiError(node, errorResponse, {message, description, httpCode,
    itemIndex})]. *)
Definition NodeApiError_new (errorResponse : HttpError)
    (message description : string) (httpCode : option string) (itemIndex : nat)
  : NodeApiError :=
  let httpCode :=
    match truthyString httpCode with
    | Some given => Some given
    | None => truthyString (code errorResponse)
    end in
  let description :=
    if (message =? description)%string then None else Some description in
  mkNodeApiError (setDescriptiveErrorMessage message httpCode) description
    httpCode itemIndex errorResponse.

End N8nWorkflow.

(* ------------------------------------------------------------------------ *)
(** ** Request descriptors and the HTTP transport *)

Inductive Method : Type := GET | POST | PUT | PATCH | DELETE.

(** Values of a query-string record: [string | number | boolean]. *)
Inductive QVal : Type :=
| QStr (s : string)
| QNum (n : Z)
| QBool (b : bool).

Inductive Body : Type :=
| JsonBody (j : Json)
| RawBody (b : list byte).

(** [IHttpRequestOptions], with the credential type name when the request goes
    through [httpRequestWithAuthentication] ([None] for a plain
    [httpRequest]).  An absent property is [None]. *)
Record Request : Type := mkRequest {
  authentication : option string;
  method : Method;
  baseURL : option string;
  url : string;
  qs : option (list (string * QVal));
  headers : list (string * string);
  body : option Body;
  timeout : option Z;
  encoding : option string;
  returnFullResponse : bool
}.

(** What the transport hands back: the parsed body, or a rejection. *)
Inductive Reply : Type :=
| Resolve (response : Json)
| Reject (error : HttpError).

(** A deterministic server: the reply to a request after a history of
    requests. *)
Definition Server : Type := list Request -> Request -> Reply.

Inductive Outcome (A : Type) : Type :=
| Returned (a : A)
| Thrown (e : Exn)
| OutOfFuel.
Arguments Returned {A} a.
Arguments Thrown {A} e.
Arguments OutOfFuel {A}.

(** Computations that send requests: the state is the list of requests sent
    so far, oldest first. *)
Definition M (A : Type) : Type := list Request -> Outcome A * list Request.

Definition ret {A : Type} (a : A) : M A := fun sent => (Returned a, sent).

Definition throw {A : Type} (e : Exn) : M A := fun sent => (Thrown e, sent).

Definition out_of_fuel {A : Type} : M A := fun sent => (OutOfFuel, sent).

Definition bind {A B : Type} (m : M A) (k : A -> M B) : M B :=
  fun sent =>
    match m sent with
    | (Returned a, sent') => k a sent'
    | (Thrown e, sent') => (Thrown e, sent')
    | (OutOfFuel, sent') => (OutOfFuel, sent')
    end.

(** [try { m } catch (error) { handler(error) }]. *)
Definition try_catch {A : Type} (m : M A) (handler : Exn -> M A) : M A :=
  fun sent =>
    match m sent with
    | (Thrown e, sent') => handler e sent'
    | r => r
    end.

Notation "x <- m ;; k" := (bind m (fun x => k))
  (at level 61, m at next level, right associativity).

(** [await helpers.httpRequest(options)]: the request is recorded, then the
    server's reply is returned or thrown. *)
Definition httpRequest (server : Server) (options : Request) : M Json :=
  fun sent =>
    match server sent options with
    | Resolve response => (Returned response, sent ++ [options])
    | Reject error => (Thrown (OtherExn error), sent ++ [options])
    end.

(** A [TypeError] raised by the language itself. *)
Definition TypeError (msg : string) : Exn :=
  OtherExn (mkHttpError None (Some msg) None).

(** A [TypeError] raised by a Node.js built-in on an argument of the wrong
    type; it carries the code ERR_INVALID_ARG_TYPE. *)
Definition InvalidArgTypeError (msg : string) : Exn :=
  OtherExn (mkCaught None (Some msg) None (Some "ERR_INVALID_ARG_TYPE")).

(* ------------------------------------------------------------------------ *)
(** ** src/nodes/GenericFunctions.ts *)

Module GenericFunctions.

Definition CREDENTIAL_NAME : string := "ainoflowApi".
Definition DEFAULT_BASE_URL : string := "https://api.ainoflow.io".

Inductive EntityType : Type := EntRecord | EntJob | EntFile.

Record Credentials : Type := mkCredentials {
  apiKey : string;
  baseUrl : option string
}.

Definition getBaseUrl (credentials : Credentials) : string :=
  or_else (baseUrl credentials) DEFAULT_BASE_URL.

Definition apiMessageOf (httpError : HttpError) : string :=
  or_else (responseMessage httpError)
    (or_else (message httpError) "Unknown issue").

Definition notFoundMessages (entityType : EntityType) : string * string :=
  match entityType with
  | EntRecord => ("Record not found", "The specified record does not exist")
  | EntJob => ("Job not found", "The specified job ID does not exist or has expired")
  | EntFile => ("File not found", "The specified file does not exist or has been deleted")
  end.

Definition conflictMessages (apiMessage : string) (entityType : EntityType)
  : string * string :=
  match entityType with
  | EntRecord => ("Record already exists", apiMessage)
  | EntJob => ("Job already exists", apiMessage)
  | EntFile => ("File already exists",
                "Use " +++ DQUOTE +++ "Create or Replace" +++ DQUOTE +++
                " operation to overwrite existing files")
  end.

Definition rateLimitMessages (entityType : EntityType) : string :=
  match entityType with
  | EntRecord => "Storage limit reached"
  | EntJob => "Rate limit exceeded"
  | EntFile => "Storage limit reached"
  end.

Definition handleApiError (error : HttpError) (itemIndex : nat)
    (operation : string) (entityType : EntityType) : NodeApiError :=
  let apiMessage := apiMessageOf error in
  let '(message, description) :=
    match statusCode error with
    | Some 400 => ("Invalid request", apiMessage)
    | Some 401 => ("Invalid API key", "Check your Ainoflow API credentials")
    | Some 404 => notFoundMessages entityType
    | Some 409 => conflictMessages apiMessage entityType
    | Some 429 => (rateLimitMessages entityType,
                   "API rate/count limit reached for current scope")
    | Some 500 | Some 502 | Some 503 =>
        ("Server returned an unexpected response",
         "Ainoflow API response: " +++ apiMessage)
    | _ => ("Could not " +++ operation, apiMessage)
    end in
  N8nWorkflow.NodeApiError_new error message description
    (option_map toString (statusCode error)) itemIndex.

End GenericFunctions.
Import GenericFunctions.

(* ------------------------------------------------------------------------ *)
(** ** Host and language primitives shared by the three nodes *)

(** The execution context [this]: the transport behind [this.helpers], the
    stored credentials and the node's continue-on-fail setting. *)
Record IExecuteFunctions : Type := mkContext {
  helpers : Server;
  getCredentials : Credentials;
  continueOnFail : bool
}.

(** [this.helpers.httpRequestWithAuthentication.call(this, name, options)]:
    [options] arrive with [authentication := Some name]. *)
Definition httpRequestWithAuthentication (this : IExecuteFunctions)
    (options : Request) : M Json :=
  httpRequest (helpers this) options.

(** *** encodeURIComponent *)

Definition in_range (lo hi n : nat) : bool := (Nat.leb lo n && Nat.leb n hi)%bool.

(** The characters [encodeURIComponent] leaves alone:
    [A-Z a-z 0-9 - _ . ! ~ * ' ( )]. *)
Definition unreserved (c : ascii) : bool :=
  let n := nat_of_ascii c in
  (in_range 65 90 n || in_range 97 122 n || in_range 48 57 n
   || existsb (Ascii.eqb c)
        ["-"; "_"; "."; "!"; "~"; "*"; "'"; "("; ")"]%char)%bool.

Definition hexDigit (n : nat) : ascii :=
  if Nat.ltb n 10 then ascii_of_nat (48 + n) else ascii_of_nat (55 + n).

Definition percentEncode (c : ascii) : string :=
  let n := nat_of_ascii c in
  String "%" (String (hexDigit (Nat.div n 16))
                (String (hexDigit (Nat.modulo n 16)) EmptyString)).

Fixpoint encodeURIComponent (s : string) : string :=
  match s with
  | EmptyString => EmptyString
  | String c s' =>
      (if unreserved c then String c EmptyString else percentEncode c)
      +++ encodeURIComponent s'
  end.

(** *** List responses *)

(** [Array.isArray(response) ? response : response.items || []].
    Reading [items] off [null] or [undefined] raises a [TypeError]; off a
    primitive it yields [undefined].  Property lists have distinct keys. *)
Definition itemsOf (response : Json) : M Json :=
  match response with
  | JArr _ => ret response
  | JUndefined =>
      throw (TypeError "Cannot read properties of undefined (reading 'items')")
  | JNull =>
      throw (TypeError "Cannot read properties of null (reading 'items')")
  | JObj fields =>
      match assoc "items" fields with
      | Some v => if truthy v then ret v else ret (JArr [])
      | None => ret (JArr [])
      end
  | JBool _ | JNum _ | JStr _ | JBuf _ => ret (JArr [])
  end.

(** [...items] in an argument list: arrays and strings are iterable (a string
    yields its characters, exact for ASCII text), anything else raises. *)
Definition spread (items : Json) : M (list Json) :=
  match items with
  | JArr xs => ret xs
  | JStr s =>
      ret (map (fun c => JStr (String c EmptyString)) (list_ascii_of_string s))
  | _ => throw (TypeError "items is not iterable")
  end.

(** [items.length], [None] standing for [undefined]. *)
Definition jsLength (items : Json) : option Z :=
  match items with
  | JArr xs => Some (Z.of_nat (List.length xs))
  | JStr s => Some (Z.of_nat (String.length s))
  | _ => None
  end.

(** [items.length === n]. *)
Definition lengthIs (items : Json) (n : Z) : bool :=
  match jsLength items with
  | Some k => k =? n
  | None => false
  end.

(** Optional query-string entries: [if (v) qs.k = v]. *)
Definition qsStr (k : string) (v : option string) : list (string * QVal) :=
  match v with
  | Some s => if nonempty s then [(k, QStr s)] else []
  | None => []
  end.

Definition qsNum (k : string) (v : option Z) : list (string * QVal) :=
  match v with
  | Some n => if negb (n =? 0) then [(k, QNum n)] else []
  | None => []
  end.

Definition qsBool (k : string) (v : option bool) : list (string * QVal) :=
  match v with
  | Some true => [(k, QBool true)]
  | _ => []
  end.

(** [Object.keys(qs).length > 0 ? qs : undefined]. *)
Definition qsOrUndefined (q : list (string * QVal)) : option (list (string * QVal)) :=
  match q with
  | [] => None
  | _ => Some q
  end.

(** [Buffer.from(s, 'utf8')]. *)
Definition Buffer_from (s : string) : list byte := list_byte_of_string s.

(** A field part of a multipart body, as each builder spells it out. *)
Definition fieldPart (boundary name value : string) : string :=
  "--" +++ boundary +++ CRLF +++
  "Content-Disposition: form-data; name=" +++ DQUOTE +++ name +++ DQUOTE
    +++ CRLF +++ CRLF +++
  value +++ CRLF.

(** The headers that open the file part. *)
Definition filePreambleOf (boundary fileName mimeType : string) : string :=
  "--" +++ boundary +++ CRLF +++
  "Content-Disposition: form-data; name=" +++ DQUOTE +++ "file" +++ DQUOTE
    +++ "; filename=" +++ DQUOTE +++ fileName +++ DQUOTE +++ CRLF +++
  "Content-Type: " +++ mimeType +++ CRLF +++ CRLF.

(** [`----n8nFormBoundary${Date.now()}${Math.random().toString(36).substring(2)}`],
    given the clock reading and the random base-36 suffix. *)
Definition newBoundary (now : Z) (random36 : string) : string :=
  "----n8nFormBoundary" +++ toString now +++ random36.

(** *** Pieces of the item loops and handlers common to the nodes *)

(** What [helpers.assertBinaryData(itemIndex, binaryPropertyName)] returns:
    the description of the binary property. *)
Record IBinaryData : Type := mkIBinaryData {
  fileName : option string;
  mimeType : option string
}.

(** The binary property of the input item that the parameter
    [binaryPropertyName] names, as the host's helpers give it:
    [helpers.assertBinaryData] returns its description or throws (the item
    has no such property), and [helpers.getBinaryDataBuffer] resolves to its
    content or rejects. *)
Record BinaryProperty : Type := mkBinaryProperty {
  assertBinaryData : Exn + IBinaryData;
  getBinaryDataBuffer : Exn + list byte
}.

(** The call of a host helper: its result is returned or its error thrown,
    and nothing is sent. *)
Definition helperCall {A : Type} (result : Exn + A) : M A :=
  match result with
  | inl error => throw error
  | inr a => ret a
  end.

(** What the handlers take from the host besides the transport: the first
    capture group of the match of the content-disposition header against
    the handler's filename pattern ([None] without a match),
    [helpers.prepareBinaryData], and the clock reading and random suffix
    available while an item is processed. *)
Record Host : Type := mkHost {
  filenameMatch : string -> option string;
  prepareBinaryData : Json -> string -> Json -> Json;
  Date_now : nat -> Z;
  Math_random36 : nat -> string
}.

(** [value.property], raising on [null] and [undefined]. *)
Definition getProp (v : Json) (k : string) : M Json :=
  match v with
  | JUndefined | JNull => throw (TypeError ("Cannot read properties of undefined (reading '" +++ k +++ "')"))
  | JObj fields =>
      match assoc k fields with
      | Some x => ret x
      | None => ret JUndefined
      end
  | _ => ret JUndefined
  end.

Definition pairedItem (itemIndex : nat) : string * Json :=
  ("pairedItem", JObj [("item", JNum (Z.of_nat itemIndex))]).

Definition unknown (what value : string) (itemIndex : nat) : Exn :=
  OperationExn (mkNodeOperationError (Some (what +++ value)) itemIndex None).

(** The entry that records a failed item under continue-on-fail. *)
Definition errorEntry (error : Exn) (itemIndex : nat) : Json :=
  JObj [("json",
         JObj [("error", match exn_message error with
                         | Some m => JStr m
                         | None => JUndefined
                         end)]);
        pairedItem itemIndex].

(** What the [catch] block raises when continue-on-fail is off. *)
Definition rethrow (error : Exn) (itemIndex : nat) : Exn :=
  match error with
  | ApiExn _ | OperationExn _ => error
  | OtherExn h =>
      OperationExn (mkNodeOperationError (message h) itemIndex None)
  end.

(* ------------------------------------------------------------------------ *)
(** ** The AinoflowFiles node *)

Module Files.

Definition API_BASE_PATH : string := "/api/v1/files".
Definition MAX_LIMIT_PER_REQUEST : Z := 1000.
Definition UPLOAD_TIMEOUT_MS : Z := 600000.

Record CreateAdditionalFields : Type := mkCreateAdditionalFields {
  key : option string;
  create_expiresAt : option string
}.

Record GetManyAdditionalFields : Type := mkGetManyAdditionalFields {
  offset : option Z;
  prefix : option string;
  sortBy : option string;
  sortOrder : option string;
  aggregate : option bool
}.

(** **** Request paths *)

Definition filePath (category key : string) : string :=
  API_BASE_PATH +++ "/" +++ encodeURIComponent category
    +++ "/" +++ encodeURIComponent key.

(** [executeCreate]: the URL, with or without key. *)
Definition executeCreate_url (category : string) (options : CreateAdditionalFields)
  : string :=
  let url := API_BASE_PATH +++ "/" +++ encodeURIComponent category in
  match key options with
  | Some k => if nonempty k then url +++ "/" +++ encodeURIComponent k else url
  | None => url
  end.

(** [executeCreate], [executeCreateOrReplace]: the extra form fields. *)
Definition additionalFieldsOf (expiresAt : option string) : list (string * string) :=
  match expiresAt with
  | Some e => if nonempty e then [("expiresAt", e)] else []
  | None => []
  end.

Definition executeCreateOrReplace_url (category key : string) : string :=
  filePath category key.

(** **** Request descriptors of the single-request operations *)

Definition executeDownload_requestOptions (baseURL category key : string) : Request :=
  {| authentication := Some CREDENTIAL_NAME;
     method := GET;
     baseURL := Some baseURL;
     url := filePath category key;
     qs := None;
     headers := [];
     body := None;
     timeout := None;
     encoding := Some "arraybuffer";
     returnFullResponse := true |}.

Definition executeDelete_requestOptions (baseURL category key : string) : Request :=
  {| authentication := Some CREDENTIAL_NAME;
     method := DELETE;
     baseURL := Some baseURL;
     url := filePath category key;
     qs := None;
     headers := [];
     body := None;
     timeout := None;
     encoding := None;
     returnFullResponse := false |}.

Definition executeGetMetadata_requestOptions (baseURL category key : string) : Request :=
  {| authentication := Some CREDENTIAL_NAME;
     method := GET;
     baseURL := Some baseURL;
     url := filePath category key +++ "/meta";
     qs := None;
     headers := [];
     body := None;
     timeout := None;
     encoding := None;
     returnFullResponse := false |}.

Definition executeGetUrl_requestOptions (baseURL category key : string)
    (expirySeconds : option Z) : Request :=
  let qs := qsNum "expirySeconds" expirySeconds in
  {| authentication := Some CREDENTIAL_NAME;
     method := GET;
     baseURL := Some baseURL;
     url := filePath category key +++ "/url";
     qs := qsOrUndefined qs;
     headers := [];
     body := None;
     timeout := None;
     encoding := None;
     returnFullResponse := false |}.

Definition executeCategoryGetMany_requestOptions (baseURL : string) : Request :=
  {| authentication := Some CREDENTIAL_NAME;
     method := GET;
     baseURL := Some baseURL;
     url := API_BASE_PATH;
     qs := None;
     headers := [];
     body := None;
     timeout := None;
     encoding := None;
     returnFullResponse := false |}.

(** **** Multipart bodies *)

(** [buildMultipartBody], given the clock reading and random suffix the
    boundary is made from.  [parts] is the list of buffers the function
    pushes to, in order. *)
Definition buildMultipartBody_parts (boundary : string) (fileBuffer : list byte)
    (fileName mimeType : string) (additionalFields : list (string * string))
  : list (list byte) :=
  let parts := [] in
  let filePreamble := filePreambleOf boundary fileName mimeType in
  let parts := parts ++ [Buffer_from filePreamble] in
  let parts := parts ++ [fileBuffer] in
  let parts := parts ++ [Buffer_from CRLF] in
  let parts :=
    fold_left
      (fun parts '(name, value) =>
         if nonempty value
         then parts ++ [Buffer_from (fieldPart boundary name value)]
         else parts)
      additionalFields parts in
  parts ++ [Buffer_from ("--" +++ boundary +++ "--" +++ CRLF)].

Definition buildMultipartBody (now : Z) (random36 : string)
    (fileBuffer : list byte) (fileName mimeType : string)
    (additionalFields : list (string * string)) : list byte * string :=
  let boundary := newBoundary now random36 in
  (concat (buildMultipartBody_parts boundary fileBuffer fileName mimeType
             additionalFields),
   boundary).

(** [buildUrlMultipartBody]. *)
Definition buildUrlMultipartBody_parts (boundary sourceUrl : string)
    (additionalFields : list (string * string)) : list (list byte) :=
  let parts := [] in
  let urlPart := fieldPart boundary "sourceUrl" sourceUrl in
  let parts := parts ++ [Buffer_from urlPart] in
  let parts :=
    fold_left
      (fun parts '(name, value) =>
         if nonempty value
         then parts ++ [Buffer_from (fieldPart boundary name value)]
         else parts)
      additionalFields parts in
  parts ++ [Buffer_from ("--" +++ boundary +++ "--" +++ CRLF)].

Definition buildUrlMultipartBody (now : Z) (random36 : string)
    (sourceUrl : string) (additionalFields : list (string * string))
  : list byte * string :=
  let boundary := newBoundary now random36 in
  (concat (buildUrlMultipartBody_parts boundary sourceUrl additionalFields),
   boundary).

(** **** Uploads *)

Definition uploadViaBinary_requestOptions (credentials : Credentials)
    (url : string) (method : Method) (body : list byte) (boundary : string)
  : Request :=
  let baseUrl := or_else (baseUrl credentials) DEFAULT_BASE_URL in
  {| authentication := None;
     method := method;
     baseURL := None;
     url := baseUrl +++ url;
     qs := None;
     headers := [("Authorization", "Bearer " +++ apiKey credentials);
                 ("Content-Type", "multipart/form-data; boundary=" +++ boundary)];
     body := Some (RawBody body);
     timeout := Some UPLOAD_TIMEOUT_MS;
     encoding := None;
     returnFullResponse := false |}.

Definition uploadViaBinary (this : IExecuteFunctions) (now : Z) (random36 : string)
    (binaryProperty : BinaryProperty) (itemIndex : nat) (url : string)
    (method : Method) (additionalFields : list (string * string)) : M Json :=
  binaryData <- helperCall (assertBinaryData binaryProperty) ;;
  fileBuffer <- helperCall (getBinaryDataBuffer binaryProperty) ;;
  let fileName := or_else (fileName binaryData) "file" in
  let mimeType := or_else (mimeType binaryData) "application/octet-stream" in
  let '(body, boundary) :=
    buildMultipartBody now random36 fileBuffer fileName mimeType additionalFields in
  let credentials := getCredentials this in
  try_catch
    (httpRequest (helpers this)
       (uploadViaBinary_requestOptions credentials url method body boundary))
    (fun error =>
       throw (ApiExn (handleApiError (as_http error) itemIndex "upload file" EntFile))).

Definition uploadViaUrl_requestOptions (baseURL url : string) (method : Method)
    (body : list byte) (boundary : string) : Request :=
  {| authentication := Some CREDENTIAL_NAME;
     method := method;
     baseURL := Some baseURL;
     url := url;
     qs := None;
     headers := [("Content-Type", "multipart/form-data; boundary=" +++ boundary)];
     body := Some (RawBody body);
     timeout := Some UPLOAD_TIMEOUT_MS;
     encoding := None;
     returnFullResponse := false |}.

Definition uploadViaUrl (this : IExecuteFunctions) (now : Z) (random36 : string)
    (sourceUrl : string) (itemIndex : nat) (url : string) (method : Method)
    (additionalFields : list (string * string)) : M Json :=
  if negb (nonempty sourceUrl) then
    throw (OperationExn
             (mkNodeOperationError (Some "Source URL is required") itemIndex None))
  else
    let baseURL := getBaseUrl (getCredentials this) in
    let '(body, boundary) := buildUrlMultipartBody now random36 sourceUrl additionalFields in
    try_catch
      (httpRequestWithAuthentication this
         (uploadViaUrl_requestOptions baseURL url method body boundary))
      (fun error =>
         throw (ApiExn (handleApiError (as_http error) itemIndex
                          "upload file from URL" EntFile))).

(** **** Listing files *)

(** The query string of one page of the return-all loop. *)
Definition getMany_page_qs (options : GetManyAdditionalFields) (offset : Z)
  : list (string * QVal) :=
  [("limit", QNum MAX_LIMIT_PER_REQUEST); ("offset", QNum offset)]
    ++ qsStr "prefix" (prefix options)
    ++ qsStr "sortBy" (sortBy options)
    ++ qsStr "sortOrder" (sortOrder options)
    ++ qsBool "aggregate" (aggregate options).

Definition getMany_requestOptions (baseURL category : string)
    (qs : list (string * QVal)) : Request :=
  {| authentication := Some CREDENTIAL_NAME;
     method := GET;
     baseURL := Some baseURL;
     url := API_BASE_PATH +++ "/" +++ encodeURIComponent category;
     qs := Some qs;
     headers := [];
     body := None;
     timeout := None;
     encoding := None;
     returnFullResponse := false |}.

(** The [while (hasMore)] loop of [executeFileGetMany]; one unit of fuel per
    iteration. *)
Fixpoint getMany_loop (fuel : nat) (this : IExecuteFunctions) (itemIndex : nat)
    (baseURL category : string) (options : GetManyAdditionalFields)
    (allItems : list Json) (offset : Z) : M (list Json) :=
  match fuel with
  | O => out_of_fuel
  | S fuel' =>
      let qs := getMany_page_qs options offset in
      let requestOptions := getMany_requestOptions baseURL category qs in
      page <-
        try_catch
          (response <- httpRequestWithAuthentication this requestOptions ;;
           items <- itemsOf response ;;
           pushed <- spread items ;;
           ret (pushed, lengthIs items MAX_LIMIT_PER_REQUEST))
          (fun error =>
             throw (ApiExn (handleApiError (as_http error) itemIndex
                              "get many files" EntFile))) ;;
      let allItems := allItems ++ fst page in
      let hasMore := snd page in
      let offset := offset + MAX_LIMIT_PER_REQUEST in
      if hasMore
      then getMany_loop fuel' this itemIndex baseURL category options allItems offset
      else ret allItems
  end.

(** The query string of the single bounded request. *)
Definition getMany_single_qs (options : GetManyAdditionalFields) (limit : Z)
  : list (string * QVal) :=
  [("limit", QNum limit)]
    ++ qsNum "offset" (offset options)
    ++ qsStr "prefix" (prefix options)
    ++ qsStr "sortBy" (sortBy options)
    ++ qsStr "sortOrder" (sortOrder options)
    ++ qsBool "aggregate" (aggregate options).

Definition executeFileGetMany (fuel : nat) (this : IExecuteFunctions)
    (itemIndex : nat) (category : string) (returnAll : bool)
    (options : GetManyAdditionalFields) (limit : Z) : M Json :=
  let baseURL := getBaseUrl (getCredentials this) in
  if returnAll then
    let offset := match offset options with Some n => n | None => 0 end in
    allItems <- getMany_loop fuel this itemIndex baseURL category options [] offset ;;
    ret (JArr allItems)
  else
    let qs := getMany_single_qs options limit in
    let requestOptions := getMany_requestOptions baseURL category qs in
    try_catch
      (response <- httpRequestWithAuthentication this requestOptions ;;
       itemsOf response)
      (fun error =>
         throw (ApiExn (handleApiError (as_http error) itemIndex
                          "get many files" EntFile))).

(** **** The remaining operations *)

(** The node parameters [getNodeParameter] resolves for one item, and the
    item's binary property. *)
Record Parameters : Type := mkParameters {
  resource : string;
  operation : string;
  category : string;
  keyParam : string;
  inputSource : string;
  createOptions : CreateAdditionalFields;
  createOrReplaceOptions_expiresAt : option string;
  getUrlOptions_expirySeconds : option Z;
  returnAll : bool;
  getManyOptions : GetManyAdditionalFields;
  limit : Z;
  sourceUrl : string;
  binaryProperty : BinaryProperty
}.

(** Removal of every single and double quote character. *)
Fixpoint stripQuotes (s : string) : string :=
  match s with
  | EmptyString => EmptyString
  | String c s' =>
      if (Ascii.eqb c "'" || Ascii.eqb c "034")%bool
      then stripQuotes s'
      else String c (stripQuotes s')
  end.

Definition executeDownload (this : IExecuteFunctions) (host : Host)
    (itemIndex : nat) (category key : string) : M Json :=
  let baseURL := getBaseUrl (getCredentials this) in
  let requestOptions := executeDownload_requestOptions baseURL category key in
  try_catch
    (response <- httpRequestWithAuthentication this requestOptions ;;
     headers <- getProp response "headers" ;;
     ct <- getProp headers "content-type" ;;
     let contentType := if truthy ct then ct else JStr "application/octet-stream" in
     cd <- getProp headers "content-disposition" ;;
     let contentDisposition := if truthy cd then cd else JStr EmptyString in
     fileName <-
       match contentDisposition with
       | JStr d =>
           match filenameMatch host d with
           | Some g => ret (if nonempty g then stripQuotes g else key)
           | None => ret key
           end
       | _ => throw (TypeError "contentDisposition.match is not a function")
       end ;;
     body <- getProp response "body" ;;
     buffer <-
       match body with
       | JBuf _ | JStr _ | JArr _ => ret body
       | _ => throw (InvalidArgTypeError "The first argument must be of type string or an instance of Buffer, ArrayBuffer, or Array or an Array-like Object.")
       end ;;
     let binaryData := prepareBinaryData host buffer fileName contentType in
     ret (JObj [("json", JObj [("category", JStr category); ("key", JStr key);
                               ("fileName", JStr fileName);
                               ("mimeType", contentType)]);
                ("binary", JObj [("data", binaryData)]);
                pairedItem itemIndex]))
    (fun error =>
       throw (ApiExn (handleApiError (as_http error) itemIndex
                        "download file" EntFile))).

Definition executeDelete (this : IExecuteFunctions) (itemIndex : nat)
    (category key : string) : M Json :=
  let baseURL := getBaseUrl (getCredentials this) in
  let requestOptions := executeDelete_requestOptions baseURL category key in
  try_catch
    (_ <- httpRequestWithAuthentication this requestOptions ;;
     ret (JObj [("deleted", JBool true)]))
    (fun error =>
       throw (ApiExn (handleApiError (as_http error) itemIndex
                        "delete file" EntFile))).

Definition executeGetMetadata (this : IExecuteFunctions) (itemIndex : nat)
    (category key : string) : M Json :=
  let baseURL := getBaseUrl (getCredentials this) in
  let requestOptions := executeGetMetadata_requestOptions baseURL category key in
  try_catch
    (httpRequestWithAuthentication this requestOptions)
    (fun error =>
       throw (ApiExn (handleApiError (as_http error) itemIndex
                        "get file metadata" EntFile))).

Definition executeGetUrl (this : IExecuteFunctions) (itemIndex : nat)
    (category key : string) (expirySeconds : option Z) : M Json :=
  let baseURL := getBaseUrl (getCredentials this) in
  let requestOptions :=
    executeGetUrl_requestOptions baseURL category key expirySeconds in
  try_catch
    (httpRequestWithAuthentication this requestOptions)
    (fun error =>
       throw (ApiExn (handleApiError (as_http error) itemIndex
                        "get download URL" EntFile))).

Definition executeCategoryGetMany (this : IExecuteFunctions) (itemIndex : nat)
  : M Json :=
  let baseURL := getBaseUrl (getCredentials this) in
  let requestOptions := executeCategoryGetMany_requestOptions baseURL in
  try_catch
    (httpRequestWithAuthentication this requestOptions)
    (fun error =>
       throw (ApiExn (handleApiError (as_http error) itemIndex
                        "get categories" EntFile))).

Definition executeCreate (this : IExecuteFunctions) (host : Host)
    (p : Parameters) (itemIndex : nat) : M Json :=
  let category := category p in
  let inputSource := inputSource p in
  let options := createOptions p in
  let url := executeCreate_url category options in
  let additionalFields := additionalFieldsOf (create_expiresAt options) in
  if (inputSource =? "url")%string
  then uploadViaUrl this (Date_now host itemIndex) (Math_random36 host itemIndex)
         (sourceUrl p) itemIndex url POST additionalFields
  else uploadViaBinary this (Date_now host itemIndex) (Math_random36 host itemIndex)
         (binaryProperty p) itemIndex url POST additionalFields.

Definition executeCreateOrReplace (this : IExecuteFunctions) (host : Host)
    (p : Parameters) (itemIndex : nat) : M Json :=
  let category := category p in
  let key := keyParam p in
  let inputSource := inputSource p in
  let url := executeCreateOrReplace_url category key in
  let additionalFields := additionalFieldsOf (createOrReplaceOptions_expiresAt p) in
  if (inputSource =? "url")%string
  then uploadViaUrl this (Date_now host itemIndex) (Math_random36 host itemIndex)
         (sourceUrl p) itemIndex url PUT additionalFields
  else uploadViaBinary this (Date_now host itemIndex) (Math_random36 host itemIndex)
         (binaryProperty p) itemIndex url PUT additionalFields.

Definition executeFileOperation (fuel : nat) (this : IExecuteFunctions)
    (host : Host) (params : nat -> Parameters) (itemIndex : nat)
    (operation : string) : M Json :=
  let p := params itemIndex in
  if (operation =? "create")%string then executeCreate this host p itemIndex
  else if (operation =? "createOrReplace")%string
  then executeCreateOrReplace this host p itemIndex
  else if (operation =? "download")%string
  then executeDownload this host itemIndex (category p) (keyParam p)
  else if (operation =? "delete")%string
  then executeDelete this itemIndex (category p) (keyParam p)
  else if (operation =? "getMetadata")%string
  then executeGetMetadata this itemIndex (category p) (keyParam p)
  else if (operation =? "getUrl")%string
  then executeGetUrl this itemIndex (category p) (keyParam p)
         (getUrlOptions_expirySeconds p)
  else if (operation =? "getMany")%string
  then executeFileGetMany fuel this itemIndex (category p) (returnAll p)
         (getManyOptions p) (limit p)
  else throw (unknown "Unknown file operation: " operation itemIndex).

Definition executeCategoryOperation (this : IExecuteFunctions)
    (itemIndex : nat) (operation : string) : M Json :=
  if (operation =? "getMany")%string then executeCategoryGetMany this itemIndex
  else throw (unknown "Unknown category operation: " operation itemIndex).

(** **** The item loop *)

(** The output entries one successful item contributes. *)
Definition outputsOf (responseData : Json) (itemIndex : nat) : list Json :=
  match responseData with
  | JArr xs =>
      map (fun item => JObj [("json", item); pairedItem itemIndex]) xs
  | JObj fields =>
      match assoc "binary" fields with
      | Some _ => [responseData]
      | None => [JObj [("json", responseData); pairedItem itemIndex]]
      end
  | _ => [JObj [("json", responseData); pairedItem itemIndex]]
  end.

(** The response data of one item: the dispatch on the resource that opens
    the [try] block. *)
Definition responseDataOf (fuel : nat) (this : IExecuteFunctions) (host : Host)
    (params : nat -> Parameters) (resource operation : string) (itemIndex : nat)
  : M Json :=
  if (resource =? "file")%string
  then executeFileOperation fuel this host params itemIndex operation
  else if (resource =? "category")%string
  then executeCategoryOperation this itemIndex operation
  else throw (unknown "Unknown resource: " resource itemIndex).

(** The [for] loop of [execute], from [itemIndex] on, [remaining] items to
    go. *)
Fixpoint execute_loop (fuel : nat) (this : IExecuteFunctions) (host : Host)
    (params : nat -> Parameters) (resource operation : string)
    (remaining itemIndex : nat) (returnData : list Json) : M (list Json) :=
  match remaining with
  | O => ret returnData
  | S remaining' =>
      returnData <-
        try_catch
          (responseData <-
             responseDataOf fuel this host params resource operation itemIndex ;;
           ret (returnData ++ outputsOf responseData itemIndex))
          (fun error =>
             if continueOnFail this
             then ret (returnData ++ [errorEntry error itemIndex])
             else throw (rethrow error itemIndex)) ;;
      execute_loop fuel this host params resource operation
        remaining' (S itemIndex) returnData
  end.

Definition execute (fuel : nat) (this : IExecuteFunctions) (host : Host)
    (params : nat -> Parameters) (items : list Json) : M (list (list Json)) :=
  let resource := resource (params O) in
  let operation := operation (params O) in
  returnData <- execute_loop fuel this host params resource operation
                  (List.length items) O [] ;;
  ret [returnData].

End Files.

(* ------------------------------------------------------------------------ *)
(** ** The AinoflowConvert node *)

Module Convert.

Definition REQUEST_TIMEOUT_MS : Z := 600000.
Definition DEFAULT_JOB_EXPIRY_MINUTES : Z := 1440.

Record ConvertAdditionalFields : Type := mkConvertAdditionalFields {
  response : option string;
  models : option string;
  webhookUrl : option string;
  reference : option string;
  jobExpiryInMinutes : option Z
}.

Record Parameters : Type := mkParameters {
  operation : string;
  inputSource : string;
  languages : list string;
  outputs : list string;
  additionalFields : ConvertAdditionalFields;
  sourceUrl : string;
  binaryProperty : BinaryProperty;
  jobId : string;
  simplify : bool
}.

(** [if (v) body.k = v] on the JSON body. *)
Definition bodyStr (k : string) (v : option string) : list (string * Json) :=
  match v with
  | Some s => if nonempty s then [(k, JStr s)] else []
  | None => []
  end.

Definition submitViaUrl_body (sourceUrl : string) (languages outputs : list string)
    (additionalFields : ConvertAdditionalFields) : list (string * Json) :=
  [("sourceUrl", JStr sourceUrl);
   ("languages", JStr (join "," languages));
   ("outputs", JStr (join "," outputs));
   ("response", JStr (or_else (response additionalFields) "persisted"));
   ("models", JStr (or_else (models additionalFields) "auto"))]
    ++ bodyStr "webhookUrl" (webhookUrl additionalFields)
    ++ bodyStr "reference" (reference additionalFields)
    ++ match jobExpiryInMinutes additionalFields with
       | Some n => [("jobExpiryInMinutes", JNum n)]
       | None => []
       end.

Definition submitViaUrl_requestOptions (baseURL : string)
    (body : list (string * Json)) : Request :=
  {| authentication := Some CREDENTIAL_NAME;
     method := POST;
     baseURL := Some baseURL;
     url := "/api/v1/convert/submit-url";
     qs := None;
     headers := [];
     body := Some (JsonBody (JObj body));
     timeout := Some REQUEST_TIMEOUT_MS;
     encoding := None;
     returnFullResponse := false |}.

Definition submitViaUrl (this : IExecuteFunctions) (sourceUrl : string)
    (itemIndex : nat) (languages outputs : list string)
    (additionalFields : ConvertAdditionalFields) : M Json :=
  if negb (nonempty sourceUrl) then
    throw (OperationExn
             (mkNodeOperationError (Some "Source URL is required") itemIndex None))
  else
    let baseURL := getBaseUrl (getCredentials this) in
    let body := submitViaUrl_body sourceUrl languages outputs additionalFields in
    try_catch
      (httpRequestWithAuthentication this (submitViaUrl_requestOptions baseURL body))
      (fun error =>
         throw (ApiExn (handleApiError (as_http error) itemIndex
                          "submit document via URL" EntJob))).

(** [submitViaBinary]: the form fields, in the order they are collected. *)
Definition submitViaBinary_formFields (languages outputs : list string)
    (additionalFields : ConvertAdditionalFields) : list (string * string) :=
  [("languages", join "," languages);
   ("outputs", join "," outputs);
   ("response", or_else (response additionalFields) "persisted");
   ("models", or_else (models additionalFields) "auto")]
    ++ match webhookUrl additionalFields with
       | Some w => if nonempty w then [("webhookUrl", w)] else []
       | None => []
       end
    ++ match reference additionalFields with
       | Some r => if nonempty r then [("reference", r)] else []
       | None => []
       end
    ++ match jobExpiryInMinutes additionalFields with
       | Some n => [("jobExpiryInMinutes", toString n)]
       | None => []
       end.

(** [submitViaBinary]: the body buffer. *)
Definition submitViaBinary_bodyBuffer (boundary : string)
    (formFields : list (string * string)) (fileBuffer : list byte)
    (fileName mimeType : string) : list byte :=
  let formFieldsBody :=
    fold_left
      (fun formFieldsBody '(fieldName, fieldValue) =>
         formFieldsBody +++ fieldPart boundary fieldName fieldValue)
      formFields EmptyString in
  let filePreamble := filePreambleOf boundary fileName mimeType in
  let closing := CRLF +++ "--" +++ boundary +++ "--" +++ CRLF in
  concat [Buffer_from formFieldsBody; Buffer_from filePreamble; fileBuffer;
          Buffer_from closing].

Definition submitViaBinary_requestOptions (credentials : Credentials)
    (bodyBuffer : list byte) (boundary : string) : Request :=
  let baseUrl := or_else (baseUrl credentials) DEFAULT_BASE_URL in
  {| authentication := None;
     method := POST;
     baseURL := None;
     url := baseUrl +++ "/api/v1/convert/submit-file";
     qs := None;
     headers := [("Authorization", "Bearer " +++ apiKey credentials);
                 ("Content-Type", "multipart/form-data; boundary=" +++ boundary)];
     body := Some (RawBody bodyBuffer);
     timeout := Some REQUEST_TIMEOUT_MS;
     encoding := None;
     returnFullResponse := false |}.

Definition submitViaBinary (this : IExecuteFunctions) (now : Z) (random36 : string)
    (binaryProperty : BinaryProperty) (itemIndex : nat)
    (languages outputs : list string)
    (additionalFields : ConvertAdditionalFields) : M Json :=
  binaryData <- helperCall (assertBinaryData binaryProperty) ;;
  fileBuffer <- helperCall (getBinaryDataBuffer binaryProperty) ;;
  let fileName := or_else (fileName binaryData) "file" in
  let mimeType := or_else (mimeType binaryData) "application/octet-stream" in
  let boundary := newBoundary now random36 in
  let formFields := submitViaBinary_formFields languages outputs additionalFields in
  let bodyBuffer :=
    submitViaBinary_bodyBuffer boundary formFields fileBuffer fileName mimeType in
  let credentials := getCredentials this in
  try_catch
    (httpRequest (helpers this)
       (submitViaBinary_requestOptions credentials bodyBuffer boundary))
    (fun error =>
       throw (ApiExn (handleApiError (as_http error) itemIndex
                        "submit binary file" EntJob))).

Definition executeConvert (this : IExecuteFunctions) (host : Host)
    (p : Parameters) (itemIndex : nat) : M Json :=
  let inputSource := inputSource p in
  let languages := languages p in
  let outputs := outputs p in
  let additionalFields := additionalFields p in
  if (List.length languages =? O)%nat then
    throw (OperationExn
             (mkNodeOperationError (Some "At least one language must be selected")
                itemIndex
                (Some "Languages are required for OCR and audio transcription")))
  else if (List.length outputs =? O)%nat then
    throw (OperationExn
             (mkNodeOperationError (Some "At least one output format must be selected")
                itemIndex None))
  else if (inputSource =? "url")%string
  then submitViaUrl this (sourceUrl p) itemIndex languages outputs additionalFields
  else submitViaBinary this (Date_now host itemIndex)
         (Math_random36 host itemIndex) (binaryProperty p) itemIndex
         languages outputs additionalFields.

Definition executeGetResult_requestOptions (baseURL jobId : string) : Request :=
  {| authentication := Some CREDENTIAL_NAME;
     method := GET;
     baseURL := Some baseURL;
     url := "/api/v1/convert/jobs/" +++ encodeURIComponent jobId;
     qs := None;
     headers := [];
     body := None;
     timeout := None;
     encoding := None;
     returnFullResponse := false |}.

(** The reduction of a job status to its essential fields. *)
Definition simplified (id status processingTime files error : Json) : Json :=
  JObj ([("id", id); ("status", status)]
          ++ match processingTime with
             | JUndefined => []
             | t => [("processingTimeInSeconds", t)]
             end
          ++ (if truthy files then [("files", files)] else [])
          ++ (if truthy error then [("error", error)] else [])).

Definition executeGetResult (this : IExecuteFunctions) (p : Parameters)
    (itemIndex : nat) : M Json :=
  let jobId := jobId p in
  let simplify := simplify p in
  if negb (nonempty jobId) then
    throw (OperationExn
             (mkNodeOperationError (Some "Job ID is required") itemIndex None))
  else
    let baseURL := getBaseUrl (getCredentials this) in
    let requestOptions := executeGetResult_requestOptions baseURL jobId in
    try_catch
      (response <- httpRequestWithAuthentication this requestOptions ;;
       if simplify then
         id <- getProp response "id" ;;
         status <- getProp response "status" ;;
         processingTime <- getProp response "processingTimeInSeconds" ;;
         files <- getProp response "files" ;;
         error <- getProp response "error" ;;
         ret (simplified id status processingTime files error)
       else ret response)
      (fun error =>
         throw (ApiExn (handleApiError (as_http error) itemIndex
                          "get job result" EntJob))).

(** The response data of one item: the dispatch on the operation that opens
    the [try] block. *)
Definition responseDataOf (this : IExecuteFunctions) (host : Host)
    (params : nat -> Parameters) (operation : string) (itemIndex : nat) : M Json :=
  if (operation =? "convert")%string
  then executeConvert this host (params itemIndex) itemIndex
  else if (operation =? "getResult")%string
  then executeGetResult this (params itemIndex) itemIndex
  else throw (unknown "Unknown operation: " operation itemIndex).

(** The [for] loop of [execute]. *)
Fixpoint execute_loop (this : IExecuteFunctions) (host : Host)
    (params : nat -> Parameters) (operation : string)
    (remaining itemIndex : nat) (returnData : list Json) : M (list Json) :=
  match remaining with
  | O => ret returnData
  | S remaining' =>
      returnData <-
        try_catch
          (responseData <- responseDataOf this host params operation itemIndex ;;
           ret (returnData ++ [JObj [("json", responseData); pairedItem itemIndex]]))
          (fun error =>
             if continueOnFail this
             then ret (returnData ++ [errorEntry error itemIndex])
             else throw (rethrow error itemIndex)) ;;
      execute_loop this host params operation remaining' (S itemIndex) returnData
  end.

Definition execute (this : IExecuteFunctions) (host : Host)
    (params : nat -> Parameters) (items : list Json) : M (list (list Json)) :=
  let operation := operation (params O) in
  returnData <- execute_loop this host params operation (List.length items) O [] ;;
  ret [returnData].

End Convert.

(* ------------------------------------------------------------------------ *)
(** ** The AinoflowStorage node *)

Module Storage.

Definition API_BASE_PATH : string := "/api/v1/storage/json".
Definition MAX_LIMIT_PER_REQUEST : Z := 1000.

(** The [additionalFields] collection; each operation reads the properties
    its own interface declares. *)
Record AdditionalFields : Type := mkAdditionalFields {
  key : option string;
  expiresAt : option string;
  expiresMs : option Z;
  sortBy : option string;
  sortOrder : option string
}.

Record Parameters : Type := mkParameters {
  resource : string;
  operation : string;
  category : string;
  keyParam : string;
  additionalFields : AdditionalFields;
  returnAll : bool;
  aggregate : bool;
  limit : Z;
  page : Z;
  specifyData : string;
  dataJson : Json;
  dataFields : option (list (string * string))
}.

(** [result[name] = value] on a property list: an existing property keeps its
    place, a new one goes last. *)
Fixpoint setProp (name : string) (value : Json) (o : list (string * Json))
  : list (string * Json) :=
  match o with
  | [] => [(name, value)]
  | (k, v) :: o' =>
      if (k =? name)%string then (k, value) :: o' else (k, v) :: setProp name value o'
  end.

(** [buildDataFromInput], given the host's [JSON.parse] ([None] when it
    raises). *)
Definition buildDataFromInput (JSON_parse : string -> option Json)
    (p : Parameters) (itemIndex : nat) : M Json :=
  if (specifyData p =? "json")%string then
    data <-
      match dataJson p with
      | JStr text =>
          match JSON_parse text with
          | Some data => ret data
          | None =>
              throw (OperationExn
                       (mkNodeOperationError (Some "Invalid JSON in data field")
                          itemIndex
                          (Some "The JSON field must contain valid JSON")))
          end
      | data => ret data
      end ;;
    match data with
    | JObj _ | JArr _ | JBuf _ => ret data
    | _ =>
        throw (OperationExn
                 (mkNodeOperationError (Some "JSON must be an object or array")
                    itemIndex
                    (Some "Primitive values (strings, numbers, booleans) are not allowed")))
    end
  else
    ret (JObj
           (match dataFields p with
            | Some field =>
                fold_left
                  (fun result '(name, value) =>
                     if nonempty name then setProp name (JStr value) result
                     else result)
                  field []
            | None => []
            end)).

Definition buildTtlQueryParams (additionalFields : AdditionalFields)
  : list (string * QVal) :=
  qsStr "expiresAt" (expiresAt additionalFields)
    ++ match expiresMs additionalFields with
       | Some ms => if (negb (ms =? 0) && (0 <? ms))%bool
                    then [("expiresMs", QNum ms)] else []
       | None => []
       end.

(** **** Request paths *)

Definition recordPath (category key : string) : string :=
  API_BASE_PATH +++ "/" +++ encodeURIComponent category
    +++ "/" +++ encodeURIComponent key.

Definition executeCreate_url (category : string) (additionalFields : AdditionalFields)
  : string :=
  let url := API_BASE_PATH +++ "/" +++ encodeURIComponent category in
  match key additionalFields with
  | Some k => if nonempty k then url +++ "/" +++ encodeURIComponent k else url
  | None => url
  end.

(** A request through [httpRequestWithAuthentication] with the properties
    the record handlers set. *)
Definition request (method : Method) (baseURL url : string) (body : option Json)
    (qs : option (list (string * QVal))) : Request :=
  {| authentication := Some CREDENTIAL_NAME;
     method := method;
     baseURL := Some baseURL;
     url := url;
     qs := qs;
     headers := [];
     body := option_map JsonBody body;
     timeout := None;
     encoding := None;
     returnFullResponse := false |}.

Definition executeCreate_requestOptions (baseURL category : string)
    (additionalFields : AdditionalFields) (data : Json) : Request :=
  request POST baseURL (executeCreate_url category additionalFields) (Some data)
    (qsOrUndefined (buildTtlQueryParams additionalFields)).

Definition executeCreateOrReplace_requestOptions (baseURL category key : string)
    (additionalFields : AdditionalFields) (data : Json) : Request :=
  request PUT baseURL (recordPath category key) (Some data)
    (qsOrUndefined (buildTtlQueryParams additionalFields)).

Definition executeUpdate_requestOptions (baseURL category key : string)
    (data : Json) : Request :=
  request PATCH baseURL (recordPath category key) (Some data) None.

Definition executeGet_requestOptions (baseURL category key : string) : Request :=
  request GET baseURL (recordPath category key) None None.

Definition executeDelete_requestOptions (baseURL category key : string) : Request :=
  request DELETE baseURL (recordPath category key) None None.

Definition executeGetMetadata_requestOptions (baseURL category key : string) : Request :=
  request GET baseURL (recordPath category key +++ "/meta") None None.

(** **** Record handlers *)

(** The shape shared by the single-request handlers: send, then return the
    response, or what [handleApiError] makes of the failure. *)
Definition send (this : IExecuteFunctions) (itemIndex : nat)
    (requestOptions : Request) (operation : string) : M Json :=
  try_catch
    (httpRequestWithAuthentication this requestOptions)
    (fun error =>
       throw (ApiExn (handleApiError (as_http error) itemIndex operation EntRecord))).

Definition executeCreate (this : IExecuteFunctions)
    (JSON_parse : string -> option Json) (p : Parameters) (itemIndex : nat)
  : M Json :=
  let baseURL := getBaseUrl (getCredentials this) in
  data <- buildDataFromInput JSON_parse p itemIndex ;;
  send this itemIndex
    (executeCreate_requestOptions baseURL (category p) (additionalFields p) data)
    "create record".

Definition executeCreateOrReplace (this : IExecuteFunctions)
    (JSON_parse : string -> option Json) (p : Parameters) (itemIndex : nat)
  : M Json :=
  let baseURL := getBaseUrl (getCredentials this) in
  data <- buildDataFromInput JSON_parse p itemIndex ;;
  send this itemIndex
    (executeCreateOrReplace_requestOptions baseURL (category p) (keyParam p)
       (additionalFields p) data)
    "create or replace record".

Definition executeUpdate (this : IExecuteFunctions)
    (JSON_parse : string -> option Json) (p : Parameters) (itemIndex : nat)
  : M Json :=
  let baseURL := getBaseUrl (getCredentials this) in
  data <- buildDataFromInput JSON_parse p itemIndex ;;
  send this itemIndex
    (executeUpdate_requestOptions baseURL (category p) (keyParam p) data)
    "update record".

Definition executeGet (this : IExecuteFunctions) (p : Parameters)
    (itemIndex : nat) : M Json :=
  let baseURL := getBaseUrl (getCredentials this) in
  send this itemIndex
    (executeGet_requestOptions baseURL (category p) (keyParam p)) "get record".

Definition executeDelete (this : IExecuteFunctions) (p : Parameters)
    (itemIndex : nat) : M Json :=
  let baseURL := getBaseUrl (getCredentials this) in
  try_catch
    (_ <- httpRequestWithAuthentication this
            (executeDelete_requestOptions baseURL (category p) (keyParam p)) ;;
     ret (JObj [("deleted", JBool true)]))
    (fun error =>
       throw (ApiExn (handleApiError (as_http error) itemIndex
                        "delete record" EntRecord))).

Definition executeGetMetadata (this : IExecuteFunctions) (p : Parameters)
    (itemIndex : nat) : M Json :=
  let baseURL := getBaseUrl (getCredentials this) in
  send this itemIndex
    (executeGetMetadata_requestOptions baseURL (category p) (keyParam p))
    "get record metadata".

(** **** Listing records *)

Definition recordGetMany_page_qs (additionalFields : AdditionalFields) (page : Z)
  : list (string * QVal) :=
  [("page", QNum page); ("limit", QNum MAX_LIMIT_PER_REQUEST)]
    ++ qsStr "sortBy" (sortBy additionalFields)
    ++ qsStr "sortOrder" (sortOrder additionalFields).

Definition recordGetMany_requestOptions (baseURL category : string)
    (qs : list (string * QVal)) : Request :=
  request GET baseURL (API_BASE_PATH +++ "/" +++ encodeURIComponent category)
    None (Some qs).

(** The [while (hasMore)] loop of [executeRecordGetMany]. *)
Fixpoint recordGetMany_loop (fuel : nat) (this : IExecuteFunctions)
    (itemIndex : nat) (baseURL category : string)
    (additionalFields : AdditionalFields) (allItems : list Json) (page : Z)
  : M (list Json) :=
  match fuel with
  | O => out_of_fuel
  | S fuel' =>
      let qs := recordGetMany_page_qs additionalFields page in
      let requestOptions := recordGetMany_requestOptions baseURL category qs in
      fetched <-
        try_catch
          (response <- httpRequestWithAuthentication this requestOptions ;;
           items <- itemsOf response ;;
           pushed <- spread items ;;
           ret (pushed, lengthIs items MAX_LIMIT_PER_REQUEST))
          (fun error =>
             throw (ApiExn (handleApiError (as_http error) itemIndex
                              "get many records" EntRecord))) ;;
      let allItems := allItems ++ fst fetched in
      let hasMore := snd fetched in
      let page := page + 1 in
      if hasMore
      then recordGetMany_loop fuel' this itemIndex baseURL category
             additionalFields allItems page
      else ret allItems
  end.

(** [allItems.length] as a JSON number. *)
Definition count (allItems : list Json) : Json :=
  JNum (Z.of_nat (List.length allItems)).

Definition recordGetMany_single_qs (additionalFields : AdditionalFields)
    (page limit : Z) (aggregate : bool) : list (string * QVal) :=
  [("page", QNum page); ("limit", QNum limit)]
    ++ qsStr "sortBy" (sortBy additionalFields)
    ++ qsStr "sortOrder" (sortOrder additionalFields)
    ++ (if aggregate then [("aggregate", QBool true)] else []).

Definition executeRecordGetMany (fuel : nat) (this : IExecuteFunctions)
    (p : Parameters) (itemIndex : nat) : M Json :=
  let category := category p in
  let returnAll := returnAll p in
  let additionalFields := additionalFields p in
  let baseURL := getBaseUrl (getCredentials this) in
  if returnAll then
    let aggregate := aggregate p in
    allItems <- recordGetMany_loop fuel this itemIndex baseURL category
                  additionalFields [] 1 ;;
    if aggregate then
      ret (JObj [("category", JStr category);
                 ("items", JArr allItems);
                 ("totalCount", count allItems);
                 ("page", JNum 1);
                 ("pageSize", count allItems);
                 ("totalPages", JNum 1)])
    else ret (JArr allItems)
  else
    let limit := limit p in
    let page := page p in
    let aggregate := aggregate p in
    let qs := recordGetMany_single_qs additionalFields page limit aggregate in
    let requestOptions := recordGetMany_requestOptions baseURL category qs in
    try_catch
      (response <- httpRequestWithAuthentication this requestOptions ;;
       if aggregate then ret response else itemsOf response)
      (fun error =>
         throw (ApiExn (handleApiError (as_http error) itemIndex
                          "get many records" EntRecord))).

(** **** Listing categories *)

Definition categoryGetMany_requestOptions (baseURL : string)
    (qs : list (string * QVal)) : Request :=
  request GET baseURL API_BASE_PATH None (Some qs).

(** The [while (hasMore)] loop of [executeCategoryGetMany]. *)
Fixpoint categoryGetMany_loop (fuel : nat) (this : IExecuteFunctions)
    (itemIndex : nat) (baseURL : string) (allItems : list Json) (page : Z)
  : M (list Json) :=
  match fuel with
  | O => out_of_fuel
  | S fuel' =>
      let qs := [("page", QNum page); ("limit", QNum MAX_LIMIT_PER_REQUEST)] in
      let requestOptions := categoryGetMany_requestOptions baseURL qs in
      fetched <-
        try_catch
          (response <- httpRequestWithAuthentication this requestOptions ;;
           items <- itemsOf response ;;
           pushed <- spread items ;;
           ret (pushed, lengthIs items MAX_LIMIT_PER_REQUEST))
          (fun error =>
             throw (ApiExn (handleApiError (as_http error) itemIndex
                              "get categories" EntRecord))) ;;
      let allItems := allItems ++ fst fetched in
      let hasMore := snd fetched in
      let page := page + 1 in
      if hasMore
      then categoryGetMany_loop fuel' this itemIndex baseURL allItems page
      else ret allItems
  end.

Definition executeCategoryGetMany (fuel : nat) (this : IExecuteFunctions)
    (p : Parameters) (itemIndex : nat) : M Json :=
  let returnAll := returnAll p in
  let baseURL := getBaseUrl (getCredentials this) in
  if returnAll then
    let aggregate := aggregate p in
    allItems <- categoryGetMany_loop fuel this itemIndex baseURL [] 1 ;;
    if aggregate then
      ret (JObj [("items", JArr allItems);
                 ("totalCount", count allItems);
                 ("page", JNum 1);
                 ("pageSize", count allItems);
                 ("totalPages", JNum 1)])
    else ret (JArr allItems)
  else
    let limit := limit p in
    let page := page p in
    let aggregate := aggregate p in
    let qs := [("page", QNum page); ("limit", QNum limit)]
                ++ (if aggregate then [("aggregate", QBool true)] else []) in
    let requestOptions := categoryGetMany_requestOptions baseURL qs in
    try_catch
      (response <- httpRequestWithAuthentication this requestOptions ;;
       if aggregate then ret response else itemsOf response)
      (fun error =>
         throw (ApiExn (handleApiError (as_http error) itemIndex
                          "get categories" EntRecord))).

(** **** Dispatch and the item loop *)

Definition executeRecordOperation (fuel : nat) (this : IExecuteFunctions)
    (JSON_parse : string -> option Json) (params : nat -> Parameters)
    (itemIndex : nat) (operation : string) : M Json :=
  let p := params itemIndex in
  if (operation =? "create")%string then executeCreate this JSON_parse p itemIndex
  else if (operation =? "createOrReplace")%string
  then executeCreateOrReplace this JSON_parse p itemIndex
  else if (operation =? "update")%string
  then executeUpdate this JSON_parse p itemIndex
  else if (operation =? "get")%string then executeGet this p itemIndex
  else if (operation =? "delete")%string then executeDelete this p itemIndex
  else if (operation =? "getMetadata")%string then executeGetMetadata this p itemIndex
  else if (operation =? "getMany")%string
  then executeRecordGetMany fuel this p itemIndex
  else throw (unknown "Unknown record operation: " operation itemIndex).

Definition executeCategoryOperation (fuel : nat) (this : IExecuteFunctions)
    (params : nat -> Parameters) (itemIndex : nat) (operation : string) : M Json :=
  if (operation =? "getMany")%string
  then executeCategoryGetMany fuel this (params itemIndex) itemIndex
  else throw (unknown "Unknown category operation: " operation itemIndex).

(** The output entries one successful item contributes. *)
Definition outputsOf (responseData : Json) (itemIndex : nat) : list Json :=
  match responseData with
  | JArr xs => map (fun item => JObj [("json", item); pairedItem itemIndex]) xs
  | _ => [JObj [("json", responseData); pairedItem itemIndex]]
  end.

(** The response data of one item: the dispatch on the resource that opens
    the [try] block. *)
Definition responseDataOf (fuel : nat) (this : IExecuteFunctions)
    (JSON_parse : string -> option Json) (params : nat -> Parameters)
    (resource operation : string) (itemIndex : nat) : M Json :=
  if (resource =? "record")%string
  then executeRecordOperation fuel this JSON_parse params itemIndex operation
  else if (resource =? "category")%string
  then executeCategoryOperation fuel this params itemIndex operation
  else throw (unknown "Unknown resource: " resource itemIndex).

(** The [for] loop of [execute]. *)
Fixpoint execute_loop (fuel : nat) (this : IExecuteFunctions)
    (JSON_parse : string -> option Json) (params : nat -> Parameters)
    (resource operation : string) (remaining itemIndex : nat)
    (returnData : list Json) : M (list Json) :=
  match remaining with
  | O => ret returnData
  | S remaining' =>
      returnData <-
        try_catch
          (responseData <-
             responseDataOf fuel this JSON_parse params resource operation
               itemIndex ;;
           ret (returnData ++ outputsOf responseData itemIndex))
          (fun error =>
             if continueOnFail this
             then ret (returnData ++ [errorEntry error itemIndex])
             else throw (rethrow error itemIndex)) ;;
      execute_loop fuel this JSON_parse params resource operation
        remaining' (S itemIndex) returnData
  end.

Definition execute (fuel : nat) (this : IExecuteFunctions)
    (JSON_parse : string -> option Json) (params : nat -> Parameters)
    (items : list Json) : M (list (list Json)) :=
  let resource := resource (params O) in
  let operation := operation (params O) in
  returnData <- execute_loop fuel this JSON_parse params resource operation
                  (List.length items) O [] ;;
  ret [returnData].

End Storage.

(* ------------------------------------------------------------------------ *)
(** ** The AinoflowStorage node that carries its own error handler *)

Module StorageLocal.

Definition CREDENTIAL_NAME : string := "ainoflowApi".
Definition API_BASE_PATH : string := "/api/v1/storage/json".
Definition MAX_LIMIT_PER_REQUEST : Z := 1000.

Record GetManyAdditionalFields : Type := mkGetManyAdditionalFields {
  sortBy : option string;
  sortOrder : option string;
  aggregate : option bool
}.

Definition handleApiError (error : HttpError) (itemIndex : nat)
    (operation : string) : NodeApiError :=
  let apiMessage :=
    or_else (responseMessage error) (or_else (message error) "Unknown error") in
  let '(message, description) :=
    match statusCode error with
    | Some 400 => ("Invalid request", apiMessage)
    | Some 401 => ("Invalid API key", "Check your Ainoflow API credentials")
    | Some 404 => ("Record not found", "The specified record does not exist")
    | Some 409 => ("Record already exists", apiMessage)
    | Some 429 => ("Storage limit reached",
                   "Storage API count limit reached for current scope")
    | Some 500 | Some 502 | Some 503 =>
        ("Server error", "Ainoflow API error: " +++ apiMessage)
    | _ => ("Failed to " +++ operation, apiMessage)
    end in
  N8nWorkflow.NodeApiError_new error message description
    (option_map toString (statusCode error)) itemIndex.

(** A request through [httpRequestWithAuthentication]; this node sets no
    [baseURL]. *)
Definition request (method : Method) (url : string) (body : option Json)
    (qs : option (list (string * QVal))) : Request :=
  {| authentication := Some CREDENTIAL_NAME;
     method := method;
     baseURL := None;
     url := url;
     qs := qs;
     headers := [];
     body := option_map JsonBody body;
     timeout := None;
     encoding := None;
     returnFullResponse := false |}.

Definition recordPath (category key : string) : string :=
  API_BASE_PATH +++ "/" +++ encodeURIComponent category
    +++ "/" +++ encodeURIComponent key.

Definition executeCreate_url (category : string) (key : option string) : string :=
  let url := API_BASE_PATH +++ "/" +++ encodeURIComponent category in
  match key with
  | Some k => if nonempty k then url +++ "/" +++ encodeURIComponent k else url
  | None => url
  end.

Definition executeCreate_requestOptions (category : string)
    (additionalFields : Storage.AdditionalFields) (data : Json) : Request :=
  request POST (executeCreate_url category (Storage.key additionalFields)) (Some data)
    (qsOrUndefined (Storage.buildTtlQueryParams additionalFields)).

Definition executeCreateOrReplace_requestOptions (category key : string)
    (additionalFields : Storage.AdditionalFields) (data : Json) : Request :=
  request PUT (recordPath category key) (Some data)
    (qsOrUndefined (Storage.buildTtlQueryParams additionalFields)).

Definition executeUpdate_requestOptions (category key : string) (data : Json)
  : Request :=
  request PATCH (recordPath category key) (Some data) None.

Definition executeGet_requestOptions (category key : string) : Request :=
  request GET (recordPath category key) None None.

Definition executeDelete_requestOptions (category key : string) : Request :=
  request DELETE (recordPath category key) None None.

Definition executeGetMetadata_requestOptions (category key : string) : Request :=
  request GET (recordPath category key +++ "/meta") None None.

Definition executeCategoryGetMany_requestOptions : Request :=
  request GET API_BASE_PATH None None.

Definition recordGetMany_qs (additionalFields : GetManyAdditionalFields)
    (page limit : Z) : list (string * QVal) :=
  [("page", QNum page); ("limit", QNum limit)]
    ++ qsStr "sortBy" (sortBy additionalFields)
    ++ qsStr "sortOrder" (sortOrder additionalFields)
    ++ qsBool "aggregate" (aggregate additionalFields).

Definition recordGetMany_requestOptions (category : string)
    (qs : list (string * QVal)) : Request :=
  request GET (API_BASE_PATH +++ "/" +++ encodeURIComponent category) None (Some qs).

(** The [while (hasMore)] loop of [executeRecordGetMany]. *)
Fixpoint recordGetMany_loop (fuel : nat) (this : IExecuteFunctions)
    (itemIndex : nat) (category : string)
    (additionalFields : GetManyAdditionalFields) (allItems : list Json) (page : Z)
  : M (list Json) :=
  match fuel with
  | O => out_of_fuel
  | S fuel' =>
      let qs := recordGetMany_qs additionalFields page MAX_LIMIT_PER_REQUEST in
      let requestOptions := recordGetMany_requestOptions category qs in
      fetched <-
        try_catch
          (response <- httpRequestWithAuthentication this requestOptions ;;
           items <- itemsOf response ;;
           pushed <- spread items ;;
           ret (pushed, lengthIs items MAX_LIMIT_PER_REQUEST))
          (fun error =>
             throw (ApiExn (handleApiError (as_http error) itemIndex
                              "get many records"))) ;;
      let allItems := allItems ++ fst fetched in
      let hasMore := snd fetched in
      let page := page + 1 in
      if hasMore
      then recordGetMany_loop fuel' this itemIndex category additionalFields
             allItems page
      else ret allItems
  end.

Definition executeRecordGetMany (fuel : nat) (this : IExecuteFunctions)
    (itemIndex : nat) (category : string) (returnAll : bool)
    (additionalFields : GetManyAdditionalFields) (limit : Z) : M Json :=
  if returnAll then
    allItems <- recordGetMany_loop fuel this itemIndex category additionalFields [] 1 ;;
    ret (JArr allItems)
  else
    let qs := recordGetMany_qs additionalFields 1 limit in
    let requestOptions := recordGetMany_requestOptions category qs in
    try_catch
      (response <- httpRequestWithAuthentication this requestOptions ;;
       itemsOf response)
      (fun error =>
         throw (ApiExn (handleApiError (as_http error) itemIndex
                          "get many records"))).

(** **** The single-request handlers, the dispatch and the item loop *)

(** This node reads the same parameters as the other Storage node, builds
    the record data with the same [buildDataFromInput] (the two sources carry
    the same text), and reads the [additionalFields] collection of a listing
    as [GetManyAdditionalFields]. *)
Definition send (this : IExecuteFunctions) (itemIndex : nat)
    (requestOptions : Request) (operation : string) : M Json :=
  try_catch
    (httpRequestWithAuthentication this requestOptions)
    (fun error =>
       throw (ApiExn (handleApiError (as_http error) itemIndex operation))).

Definition executeCreate (this : IExecuteFunctions)
    (JSON_parse : string -> option Json) (p : Storage.Parameters)
    (itemIndex : nat) : M Json :=
  data <- Storage.buildDataFromInput JSON_parse p itemIndex ;;
  send this itemIndex
    (executeCreate_requestOptions (Storage.category p)
       (Storage.additionalFields p) data)
    "create record".

Definition executeCreateOrReplace (this : IExecuteFunctions)
    (JSON_parse : string -> option Json) (p : Storage.Parameters)
    (itemIndex : nat) : M Json :=
  data <- Storage.buildDataFromInput JSON_parse p itemIndex ;;
  send this itemIndex
    (executeCreateOrReplace_requestOptions (Storage.category p)
       (Storage.keyParam p) (Storage.additionalFields p) data)
    "create or replace record".

Definition executeUpdate (this : IExecuteFunctions)
    (JSON_parse : string -> option Json) (p : Storage.Parameters)
    (itemIndex : nat) : M Json :=
  data <- Storage.buildDataFromInput JSON_parse p itemIndex ;;
  send this itemIndex
    (executeUpdate_requestOptions (Storage.category p) (Storage.keyParam p) data)
    "update record".

Definition executeGet (this : IExecuteFunctions) (p : Storage.Parameters)
    (itemIndex : nat) : M Json :=
  send this itemIndex
    (executeGet_requestOptions (Storage.category p) (Storage.keyParam p))
    "get record".

Definition executeDelete (this : IExecuteFunctions) (p : Storage.Parameters)
    (itemIndex : nat) : M Json :=
  try_catch
    (_ <- httpRequestWithAuthentication this
            (executeDelete_requestOptions (Storage.category p)
               (Storage.keyParam p)) ;;
     ret (JObj [("deleted", JBool true)]))
    (fun error =>
       throw (ApiExn (handleApiError (as_http error) itemIndex "delete record"))).

Definition executeGetMetadata (this : IExecuteFunctions) (p : Storage.Parameters)
    (itemIndex : nat) : M Json :=
  send this itemIndex
    (executeGetMetadata_requestOptions (Storage.category p) (Storage.keyParam p))
    "get record metadata".

Definition executeCategoryGetMany (this : IExecuteFunctions) (itemIndex : nat)
  : M Json :=
  send this itemIndex executeCategoryGetMany_requestOptions "get categories".

Definition executeRecordOperation (fuel : nat) (this : IExecuteFunctions)
    (JSON_parse : string -> option Json) (params : nat -> Storage.Parameters)
    (getManyFields : nat -> GetManyAdditionalFields)
    (itemIndex : nat) (operation : string) : M Json :=
  let p := params itemIndex in
  if (operation =? "create")%string then executeCreate this JSON_parse p itemIndex
  else if (operation =? "createOrReplace")%string
  then executeCreateOrReplace this JSON_parse p itemIndex
  else if (operation =? "update")%string
  then executeUpdate this JSON_parse p itemIndex
  else if (operation =? "get")%string then executeGet this p itemIndex
  else if (operation =? "delete")%string then executeDelete this p itemIndex
  else if (operation =? "getMetadata")%string then executeGetMetadata this p itemIndex
  else if (operation =? "getMany")%string
  then executeRecordGetMany fuel this itemIndex (Storage.category p)
         (Storage.returnAll p) (getManyFields itemIndex) (Storage.limit p)
  else throw (unknown "Unknown record operation: " operation itemIndex).

Definition executeCategoryOperation (this : IExecuteFunctions)
    (itemIndex : nat) (operation : string) : M Json :=
  if (operation =? "getMany")%string then executeCategoryGetMany this itemIndex
  else throw (unknown "Unknown category operation: " operation itemIndex).

(** The response data of one item: the dispatch on the resource that opens
    the [try] block. *)
Definition responseDataOf (fuel : nat) (this : IExecuteFunctions)
    (JSON_parse : string -> option Json) (params : nat -> Storage.Parameters)
    (getManyFields : nat -> GetManyAdditionalFields)
    (resource operation : string) (itemIndex : nat) : M Json :=
  if (resource =? "record")%string
  then executeRecordOperation fuel this JSON_parse params getManyFields itemIndex
         operation
  else if (resource =? "category")%string
  then executeCategoryOperation this itemIndex operation
  else throw (unknown "Unknown resource: " resource itemIndex).

(** The [for] loop of [execute]; an array result contributes one entry per
    element, any other result one entry. *)
Fixpoint execute_loop (fuel : nat) (this : IExecuteFunctions)
    (JSON_parse : string -> option Json) (params : nat -> Storage.Parameters)
    (getManyFields : nat -> GetManyAdditionalFields)
    (resource operation : string) (remaining itemIndex : nat)
    (returnData : list Json) : M (list Json) :=
  match remaining with
  | O => ret returnData
  | S remaining' =>
      returnData <-
        try_catch
          (responseData <-
             responseDataOf fuel this JSON_parse params getManyFields resource
               operation itemIndex ;;
           ret (returnData ++ Storage.outputsOf responseData itemIndex))
          (fun error =>
             if continueOnFail this
             then ret (returnData ++ [errorEntry error itemIndex])
             else throw (rethrow error itemIndex)) ;;
      execute_loop fuel this JSON_parse params getManyFields resource operation
        remaining' (S itemIndex) returnData
  end.

Definition execute (fuel : nat) (this : IExecuteFunctions)
    (JSON_parse : string -> option Json) (params : nat -> Storage.Parameters)
    (getManyFields : nat -> GetManyAdditionalFields)
    (items : list Json) : M (list (list Json)) :=
  let resource := Storage.resource (params O) in
  let operation := Storage.operation (params O) in
  returnData <- execute_loop fuel this JSON_parse params getManyFields resource
                  operation (List.length items) O [] ;;
  ret [returnData].

End StorageLocal.

(* ======================================================================== *)
(** * Specification vocabulary *)

(** An optional string property that is present and not empty. *)
Definition present (o : option string) (s : string) : Prop :=
  o = Some s /\ s <> EmptyString.

(** An optional string property that is missing or empty. *)
Definition absent (o : option string) : Prop :=
  o = None \/ o = Some EmptyString.


(** *** What a constructed error shows *)

(** The operation labels the handlers of the nodes pass to their
    normalizer. *)
Definition operationLabels : list string :=
  ["download file"; "delete file"; "get file metadata"; "get download URL";
   "get many files"; "get categories"; "upload file"; "upload file from URL";
   "submit document via URL"; "submit binary file"; "get job result";
   "create record"; "create or replace record"; "update record"; "get record";
   "delete record"; "get record metadata"; "get many records"].

(** An error shows a message/description pair: it has the message, and the
    description unless the description repeats the message, in which case it
    has none. *)
Definition shows (e : NodeApiError) (message description : string) : Prop :=
  apiMessageText e = message
  /\ apiDescription e
     = (if (message =? description)%string then None else Some description).

(** The name of an error code as Node.js and the HTTP client write one: an
    upper-case letter followed by upper-case letters, digits and
    underscores. *)
Definition upperLetter (c : ascii) : bool :=
  let n := nat_of_ascii c in (Nat.leb 65 n && Nat.leb n 90)%bool.

Definition codeChar (c : ascii) : bool :=
  let n := nat_of_ascii c in
  (upperLetter c || (Nat.leb 48 n && Nat.leb n 57) || Nat.eqb n 95)%bool.

Definition codeName (c : string) : bool :=
  match c with
  | EmptyString => false
  | String first rest =>
      (upperLetter first && forallb codeChar (list_ascii_of_string rest))%bool
  end.

(** The code of the error, when it has one, is such a name. *)
Definition namedCode (error : HttpError) : Prop :=
  forall c, N8nWorkflow.truthyString (code error) = Some c -> codeName c = true.

(** A failure below HTTP: the caught value has no status code and carries a
    code of the library's list of common errors, for which the library has
    the descriptive [text]. *)
Definition networkFailure (error : HttpError) (text : string) : Prop :=
  statusCode error = None
  /\ N8nWorkflow.commonErrorFor (N8nWorkflow.truthyString (code error)) = Some text.

(** The shapes a list endpoint answers in, with the items they carry: a bare
    array, or a wrapper object whose [items] property is the array, or a
    wrapper object without an [items] property, which carries no items. *)
Inductive listResponse : Json -> list Json -> Prop :=
| bare_array (xs : list Json) : listResponse (JArr xs) xs
| wrapper (fields : list (string * Json)) (xs : list Json) :
    assoc "items" fields = Some (JArr xs) -> listResponse (JObj fields) xs
| wrapper_without_items (fields : list (string * Json)) :
    assoc "items" fields = None -> listResponse (JObj fields) [].

(** What one iteration of a return-all loop extracts from a response. *)
Definition extractPage (ceiling : Z) (response : Json) : M (list Json * bool) :=
  items <- itemsOf response ;;
  pushed <- spread items ;;
  ret (pushed, lengthIs items ceiling).

(** The return-all loop the three nodes share in shape: [request_for] builds
    the request for a cursor position, [step] advances the cursor, [ceiling]
    is the page size and [normalize] is what the [catch] block makes of a
    failure. *)
Fixpoint paginate (server : Server) (request_for : Z -> Request) (step ceiling : Z)
    (normalize : Exn -> Exn) (fuel : nat) (allItems : list Json) (cursor : Z)
  : M (list Json) :=
  match fuel with
  | O => out_of_fuel
  | S fuel' =>
      fetched <-
        try_catch
          (response <- httpRequest server (request_for cursor) ;;
           extractPage ceiling response)
          (fun error => throw (normalize error)) ;;
      if snd fetched
      then paginate server request_for step ceiling normalize fuel'
             (allItems ++ fst fetched) (cursor + step)
      else ret (allItems ++ fst fetched)
  end.

(** The requests of the first [n] cursor positions from [cursor] on. *)
Definition requests_from (request_for : Z -> Request) (step : Z) (cursor : Z)
    (n : nat) : list Request :=
  map (fun i => request_for (cursor + step * Z.of_nat i)) (seq 0 n).

(** The server answers the successive page requests, sent after [sent], with
    [responses]. *)
Definition answers (server : Server) (request_for : Z -> Request) (step : Z)
    (sent : list Request) (cursor : Z) (responses : list Json) : Prop :=
  forall (i : nat) (r : Json),
    nth_error responses i = Some r ->
    server (sent ++ requests_from request_for step cursor i)
           (request_for (cursor + step * Z.of_nat i)) = Resolve r.

(** A mock page source: the [n]-th request is answered by the [n]-th scripted
    reply, whatever it asks; past the script every request is rejected. *)
Definition scripted (replies : list Reply) : Server :=
  fun sent _ =>
    nth (List.length sent) replies
        (Reject (mkHttpError None (Some "script exhausted") None)).

(** What a return-all collector owes its page source, for the ceiling of
    1000: when the source answers the successive page requests with full
    pages followed by one page that is not full, then with fuel for every page
    the collector returns [finish] of all items, page after page in order, and
    has sent exactly one request per page, the cursor starting at [start] and
    advancing by [step]. *)
Definition collector_contract_with (finish : list Json -> Json) (server : Server)
    (collect : nat -> M Json) (request_for : Z -> Request) (start step : Z) : Prop :=
  forall (responses : list Json) (pages : list (list Json))
         (last_response : Json) (last_page : list Json)
         (fuel : nat) (sent : list Request),
    Forall2 listResponse responses pages ->
    Forall (fun p => Z.of_nat (List.length p) = 1000) pages ->
    listResponse last_response last_page ->
    Z.of_nat (List.length last_page) <> 1000 ->
    answers server request_for step sent start (responses ++ [last_response]) ->
    (List.length pages < fuel)%nat ->
    collect fuel sent
    = (Returned (finish (concat pages ++ last_page)),
       sent ++ requests_from request_for step start (S (List.length pages))).

(** The contract of a collector that returns the items as an array. *)
Definition collector_contract : Server -> (nat -> M Json) -> (Z -> Request) ->
                                Z -> Z -> Prop :=
  collector_contract_with JArr.

(** The wrapper the Storage node synthesizes from the collected items when
    Aggregate is on; [head] holds the properties that precede [items]. *)
Definition synthesized (head : list (string * Json)) (allItems : list Json) : Json :=
  JObj (head ++
        [("items", JArr allItems);
         ("totalCount", JNum (Z.of_nat (List.length allItems)));
         ("page", JNum 1);
         ("pageSize", JNum (Z.of_nat (List.length allItems)));
         ("totalPages", JNum 1)]).

(** The two page sources of the specification, as mocks: pages of sizes
    1000, 1000, 37 take exactly 3 requests and yield 2037 items; pages of
    sizes 1000, 1000, 1000 and then an empty page take exactly 4 requests and
    yield 3000 items. *)
Definition collects_mock_sources (collect : Server -> nat -> M Json) : Prop :=
  (forall (r1 r2 r3 : Json) (p1 p2 p3 : list Json) (fuel : nat),
      listResponse r1 p1 -> listResponse r2 p2 -> listResponse r3 p3 ->
      List.length p1 = 1000%nat -> List.length p2 = 1000%nat ->
      List.length p3 = 37%nat ->
      (3 <= fuel)%nat ->
      exists requests,
        collect (scripted [Resolve r1; Resolve r2; Resolve r3]) fuel []
        = (Returned (JArr (p1 ++ p2 ++ p3)), requests)
        /\ List.length requests = 3%nat
        /\ List.length (p1 ++ p2 ++ p3) = 2037%nat)
  /\
  (forall (r1 r2 r3 r4 : Json) (p1 p2 p3 : list Json) (fuel : nat),
      listResponse r1 p1 -> listResponse r2 p2 -> listResponse r3 p3 ->
      listResponse r4 [] ->
      List.length p1 = 1000%nat -> List.length p2 = 1000%nat ->
      List.length p3 = 1000%nat ->
      (4 <= fuel)%nat ->
      exists requests,
        collect (scripted [Resolve r1; Resolve r2; Resolve r3; Resolve r4]) fuel []
        = (Returned (JArr (p1 ++ p2 ++ p3)), requests)
        /\ List.length requests = 4%nat
        /\ List.length (p1 ++ p2 ++ p3) = 3000%nat).

(** What a single bounded fetch owes a list endpoint: one request, and the
    items of the response as an array, whichever shape carried them. *)
Definition single_fetch_contract (server : Server) (fetch : M Json)
    (request : Request) : Prop :=
  forall (response : Json) (xs : list Json) (sent : list Request),
    server sent request = Resolve response ->
    listResponse response xs ->
    fetch sent = (Returned (JArr xs), sent ++ [request]).

(** A fetch that hands on what it gets: one request, and the response as
    received, whatever its shape. *)
Definition response_as_received (server : Server) (fetch : M Json)
    (request : Request) : Prop :=
  forall (response : Json) (sent : list Request),
    server sent request = Resolve response ->
    fetch sent = (Returned response, sent ++ [request]).

(** Two runs of a collector against sources that deliver the same pages, each
    in shapes of its own, return the same value. *)
Definition shape_independent (collect : Server -> nat -> M Json)
    (request_for : Z -> Request) (start step : Z) : Prop :=
  forall (server1 server2 : Server) (responses1 responses2 : list Json)
         (pages : list (list Json)) (last1 last2 : Json) (last_page : list Json)
         (fuel : nat) (sent1 sent2 : list Request),
    Forall2 listResponse responses1 pages ->
    Forall2 listResponse responses2 pages ->
    Forall (fun p => Z.of_nat (List.length p) = 1000) pages ->
    listResponse last1 last_page -> listResponse last2 last_page ->
    Z.of_nat (List.length last_page) <> 1000 ->
    answers server1 request_for step sent1 start (responses1 ++ [last1]) ->
    answers server2 request_for step sent2 start (responses2 ++ [last2]) ->
    (List.length pages < fuel)%nat ->
    fst (collect server1 fuel sent1) = fst (collect server2 fuel sent2).

(** The item loop the three nodes share in shape: [process] yields the
    response data of an item and [outputs] the entries it contributes. *)
Fixpoint item_loop (continueOnFail : bool) (process : nat -> M Json)
    (outputs : Json -> nat -> list Json) (remaining itemIndex : nat)
    (returnData : list Json) : M (list Json) :=
  match remaining with
  | O => ret returnData
  | S remaining' =>
      returnData <-
        try_catch
          (responseData <- process itemIndex ;;
           ret (returnData ++ outputs responseData itemIndex))
          (fun error =>
             if continueOnFail
             then ret (returnData ++ [errorEntry error itemIndex])
             else throw (rethrow error itemIndex)) ;;
      item_loop continueOnFail process outputs remaining' (S itemIndex) returnData
  end.

(** A single-object result: an object that is neither an array nor a download
    result carrying a [binary] property. *)
Definition single_object (responseData : Json) : Prop :=
  exists fields, responseData = JObj fields /\ assoc "binary" fields = None.

(** The output entry of a single-object result. *)
Definition entry (responseData : Json) (itemIndex : Z) : Json :=
  JObj [("json", responseData); ("pairedItem", JObj [("item", JNum itemIndex)])].

(** The output entry that records an error: a [json] object with an [error]
    property, paired with the item. *)
Definition error_record (error : Exn) (itemIndex : Z) : Json :=
  JObj [("json", JObj [("error", match exn_message error with
                                 | Some m => JStr m
                                 | None => JUndefined
                                 end)]);
        ("pairedItem", JObj [("item", JNum itemIndex)])].

(** What a driver owes three input items of which the second fails while the
    others succeed with single-object results.  With continue-on-fail on, all
    three are processed and the output holds three entries in item order, the
    second an error record paired with item 1.  With continue-on-fail off, the
    run ends by raising the error of item 2 in the state item 2 left behind:
    item 3 is not processed and nothing is returned. *)
Definition driver_contract (continueOnFail : bool) (process : nat -> M Json)
    (execute : list Json -> M (list (list Json))) : Prop :=
  forall (items : list Json) (sent0 sent1 sent2 : list Request)
         (r0 : Json) (e : Exn),
    List.length items = 3%nat ->
    process O sent0 = (Returned r0, sent1) -> single_object r0 ->
    process 1%nat sent1 = (Thrown e, sent2) ->
    (continueOnFail = false ->
     execute items sent0 = (Thrown (rethrow e 1%nat), sent2))
    /\
    (continueOnFail = true ->
     forall (r2 : Json) (sent3 : list Request),
       process 2%nat sent2 = (Returned r2, sent3) -> single_object r2 ->
       execute items sent0
       = (Returned [[entry r0 0; error_record e 1; entry r2 2]], sent3)).

(** The classes of requests the specification tells apart. *)
Inductive RequestClass : Type := Ordinary | UploadClass | DownloadClass.

(** The request descriptors the three nodes build, each with its class:
    binary upload, URL upload and the two convert submissions are
    upload-class, the file download is download-class, all others are
    ordinary. *)
Inductive builds : RequestClass -> Request -> Prop :=
| files_upload_binary credentials url method body boundary :
    builds UploadClass
      (Files.uploadViaBinary_requestOptions credentials url method body boundary)
| files_upload_url baseURL url method body boundary :
    builds UploadClass
      (Files.uploadViaUrl_requestOptions baseURL url method body boundary)
| convert_submit_url baseURL body :
    builds UploadClass (Convert.submitViaUrl_requestOptions baseURL body)
| convert_submit_binary credentials bodyBuffer boundary :
    builds UploadClass
      (Convert.submitViaBinary_requestOptions credentials bodyBuffer boundary)
| files_download baseURL category key :
    builds DownloadClass (Files.executeDownload_requestOptions baseURL category key)
| files_delete baseURL category key :
    builds Ordinary (Files.executeDelete_requestOptions baseURL category key)
| files_get_metadata baseURL category key :
    builds Ordinary (Files.executeGetMetadata_requestOptions baseURL category key)
| files_get_url baseURL category key expirySeconds :
    builds Ordinary
      (Files.executeGetUrl_requestOptions baseURL category key expirySeconds)
| files_get_many baseURL category qs :
    builds Ordinary (Files.getMany_requestOptions baseURL category qs)
| files_category_get_many baseURL :
    builds Ordinary (Files.executeCategoryGetMany_requestOptions baseURL)
| convert_get_result baseURL jobId :
    builds Ordinary (Convert.executeGetResult_requestOptions baseURL jobId)
| storage_create baseURL category additionalFields data :
    builds Ordinary
      (Storage.executeCreate_requestOptions baseURL category additionalFields data)
| storage_create_or_replace baseURL category key additionalFields data :
    builds Ordinary
      (Storage.executeCreateOrReplace_requestOptions baseURL category key
         additionalFields data)
| storage_update baseURL category key data :
    builds Ordinary (Storage.executeUpdate_requestOptions baseURL category key data)
| storage_get baseURL category key :
    builds Ordinary (Storage.executeGet_requestOptions baseURL category key)
| storage_delete baseURL category key :
    builds Ordinary (Storage.executeDelete_requestOptions baseURL category key)
| storage_get_metadata baseURL category key :
    builds Ordinary (Storage.executeGetMetadata_requestOptions baseURL category key)
| storage_record_get_many baseURL category qs :
    builds Ordinary (Storage.recordGetMany_requestOptions baseURL category qs)
| storage_category_get_many baseURL qs :
    builds Ordinary (Storage.categoryGetMany_requestOptions baseURL qs)
| local_create category additionalFields data :
    builds Ordinary
      (StorageLocal.executeCreate_requestOptions category additionalFields data)
| local_create_or_replace category key additionalFields data :
    builds Ordinary
      (StorageLocal.executeCreateOrReplace_requestOptions category key
         additionalFields data)
| local_update category key data :
    builds Ordinary (StorageLocal.executeUpdate_requestOptions category key data)
| local_get category key :
    builds Ordinary (StorageLocal.executeGet_requestOptions category key)
| local_delete category key :
    builds Ordinary (StorageLocal.executeDelete_requestOptions category key)
| local_get_metadata category key :
    builds Ordinary (StorageLocal.executeGetMetadata_requestOptions category key)
| local_record_get_many category qs :
    builds Ordinary (StorageLocal.recordGetMany_requestOptions category qs)
| local_category_get_many :
    builds Ordinary StorageLocal.executeCategoryGetMany_requestOptions.

(** Occurrence of a character in a string. *)
Fixpoint occurs (c : ascii) (s : string) : Prop :=
  match s with
  | EmptyString => False
  | String c' s' => c = c' \/ occurs c s'
  end.

(** The whitespace characters of the ASCII range: tab, line feed, vertical
    tab, form feed, carriage return and space.  (Wider whitespace is encoded
    in several bytes, none of them in the ASCII range.) *)
Definition whitespace (c : ascii) : Prop :=
  In c ["009"; "010"; "011"; "012"; "013"; " "]%char.

(** The value of a hexadecimal digit. *)
Definition unhex (c : ascii) : nat :=
  let n := nat_of_ascii c in
  if Nat.ltb n 58 then Nat.sub n 48 else Nat.sub n 55.

(** The inverse of [encodeURIComponent] on its image. *)
Fixpoint decodeURIComponent (s : string) : string :=
  match s with
  | EmptyString => EmptyString
  | String "%" (String h1 (String h2 rest)) =>
      String (ascii_of_nat (Nat.add (Nat.mul 16 (unhex h1)) (unhex h2)))
             (decodeURIComponent rest)
  | String c rest => String c (decodeURIComponent rest)
  end.

(** The key [executeCreate] puts in the path, if any: a missing key and an
    empty key both stand for no key. *)
Definition suppliedKey (key : option string) : option string :=
  match key with
  | Some k => if nonempty k then Some k else None
  | None => None
  end.

(** A path of one or two user-supplied segments under a fixed base, every
    segment passed through [encodeURIComponent]. *)
Definition segment1 (base category : string) : string :=
  base +++ "/" +++ encodeURIComponent category.

Definition segment2 (base category key : string) : string :=
  base +++ "/" +++ encodeURIComponent category +++ "/" +++ encodeURIComponent key.

(** The path of a create operation: the key segment is there when a key was
    supplied. *)
Definition segmentOpt (base category : string) (key : option string) : string :=
  match suppliedKey key with
  | Some k => segment2 base category k
  | None => segment1 base category
  end.

(** *** The multipart/form-data wire format *)

(** A part: name, optional filename, optional content type, payload. *)
Record Part : Type := mkPart {
  partName : string;
  partFilename : option string;
  partContentType : option string;
  partPayload : list byte
}.

Definition filePart (fileName mimeType : string) (payload : list byte) : Part :=
  mkPart "file" (Some fileName) (Some mimeType) payload.

Definition textPart (field : string * string) : Part :=
  mkPart (fst field) None None (Buffer_from (snd field)).

(** One part on the wire: the dash-boundary line, the Content-Disposition
    header with the name (and the filename, for a file), the Content-Type
    header when there is one, a blank line, the payload, CRLF. *)
Definition renderPart (boundary : string) (part : Part) : list byte :=
  Buffer_from ("--" +++ boundary +++ CRLF)
  ++ Buffer_from ("Content-Disposition: form-data; name="
                  +++ DQUOTE +++ partName part +++ DQUOTE)
  ++ match partFilename part with
     | Some f => Buffer_from ("; filename=" +++ DQUOTE +++ f +++ DQUOTE)
     | None => []
     end
  ++ Buffer_from CRLF
  ++ match partContentType part with
     | Some t => Buffer_from ("Content-Type: " +++ t +++ CRLF)
     | None => []
     end
  ++ Buffer_from CRLF
  ++ partPayload part
  ++ Buffer_from CRLF.

(** A body on the wire: the parts in order, then the closing delimiter. *)
Definition render (boundary : string) (parts : list Part) : list byte :=
  concat (map (renderPart boundary) parts)
  ++ Buffer_from ("--" +++ boundary +++ "--" +++ CRLF).

(** The extra fields a builder emits: those with a value that is not empty. *)
Definition emitted (additionalFields : list (string * string))
  : list (string * string) :=
  filter (fun field => nonempty (snd field)) additionalFields.

(** *** A reader of multipart/form-data bodies *)

(** The reader follows the grammar of the format: the body opens with the
    dash-boundary; each part is introduced by CRLF, carries header lines up to
    a blank line and a payload up to the next delimiter (CRLF, two dashes, the
    boundary); two dashes after a delimiter close the body. *)

Definition CR : byte := "013"%byte.
Definition LF : byte := "010"%byte.
Definition DQ : byte := "034"%byte.

(** [s] without the prefix [p], when it starts with [p]. *)
Fixpoint stripPrefix (p s : list byte) : option (list byte) :=
  match p, s with
  | [], _ => Some s
  | x :: p', y :: s' => if Byte.eqb x y then stripPrefix p' s' else None
  | _ :: _, [] => None
  end.

(** [hay] split around the first occurrence of [needle]. *)
Fixpoint splitAt (needle hay : list byte) : option (list byte * list byte) :=
  match stripPrefix needle hay with
  | Some rest => Some ([], rest)
  | None =>
      match hay with
      | [] => None
      | x :: hay' =>
          match splitAt needle hay' with
          | Some (before, after) => Some (x :: before, after)
          | None => None
          end
      end
  end.

(** Optional whitespace around a header value: space and tab. *)
Definition isOWS (b : byte) : bool := (Byte.eqb b " " || Byte.eqb b "009")%bool.

Fixpoint trimLeft (s : list byte) : list byte :=
  match s with
  | [] => []
  | b :: s' => if isOWS b then trimLeft s' else s
  end.

Definition trimOWS (s : list byte) : list byte :=
  rev (trimLeft (rev (trimLeft s))).

(** The Content-Disposition line: the name and, when given, the filename. *)
Definition parseDisposition (line : list byte) : option (string * option string) :=
  match stripPrefix
          (Buffer_from ("Content-Disposition: form-data; name=" +++ DQUOTE)) line with
  | None => None
  | Some rest =>
      match splitAt [DQ] rest with
      | None => None
      | Some (name, []) => Some (string_of_list_byte name, None)
      | Some (name, rest') =>
          match stripPrefix (Buffer_from ("; filename=" +++ DQUOTE)) rest' with
          | None => None
          | Some rest'' =>
              match splitAt [DQ] rest'' with
              | Some (fileName, []) =>
                  Some (string_of_list_byte name,
                        Some (string_of_list_byte fileName))
              | _ => None
              end
          end
      end
  end.

(** The Content-Type line: its value, without the whitespace around it. *)
Definition parseContentType (line : list byte) : option string :=
  match stripPrefix (Buffer_from "Content-Type:") line with
  | Some value => Some (string_of_list_byte (trimOWS value))
  | None => None
  end.

(** The header lines of a part up to the blank line; what follows is
    returned with them. *)
Definition parseHeaders (rest : list byte)
  : option (string * option string * option string * list byte) :=
  match splitAt [CR; LF] rest with
  | None => None
  | Some (line1, rest1) =>
      match parseDisposition line1 with
      | None => None
      | Some (name, fileName) =>
          match splitAt [CR; LF] rest1 with
          | None => None
          | Some ([], rest2) => Some (name, fileName, None, rest2)
          | Some (line2, rest2) =>
              match parseContentType line2 with
              | None => None
              | Some contentType =>
                  match splitAt [CR; LF] rest2 with
                  | Some ([], rest3) =>
                      Some (name, fileName, Some contentType, rest3)
                  | _ => None
                  end
              end
          end
      end
  end.

(** The parts that follow a dash-boundary. *)
Fixpoint parseParts (fuel : nat) (delimiter rest : list byte) : option (list Part) :=
  match fuel with
  | O => None
  | S fuel' =>
      match stripPrefix (Buffer_from "--") rest with
      | Some _ => Some []
      | None =>
          match stripPrefix [CR; LF] rest with
          | None => None
          | Some rest1 =>
              match parseHeaders rest1 with
              | None => None
              | Some (name, fileName, contentType, rest2) =>
                  match splitAt delimiter rest2 with
                  | None => None
                  | Some (payload, rest3) =>
                      match parseParts fuel' delimiter rest3 with
                      | Some parts =>
                          Some (mkPart name fileName contentType payload :: parts)
                      | None => None
                      end
                  end
              end
          end
      end
  end.

(** The delimiter between parts. *)
Definition delimiterOf (boundary : string) : list byte :=
  Buffer_from (CRLF +++ "--" +++ boundary).

Definition parseMultipart (boundary : string) (body : list byte)
  : option (list Part) :=
  match stripPrefix (Buffer_from ("--" +++ boundary)) body with
  | Some rest => parseParts (List.length body) (delimiterOf boundary) rest
  | None => None
  end.

(** Text that can stand between quotes on a header line: no double quote, no
    carriage return, no line feed. *)
Definition quotable (s : string) : bool :=
  forallb (fun b => negb (Byte.eqb b DQ || Byte.eqb b CR || Byte.eqb b LF)%bool)
          (Buffer_from s).

(** Text that can stand as a header value: no carriage return, no line feed,
    no whitespace at either end. *)
Definition headerValue (s : string) : bool :=
  (forallb (fun b => negb (Byte.eqb b CR || Byte.eqb b LF)%bool) (Buffer_from s)
   && match Buffer_from s with
      | [] => true
      | b :: _ => negb (isOWS b) && negb (isOWS (last (Buffer_from s) b))
      end)%bool.

(** The bytes hold no carriage return. *)
Definition noCR (s : list byte) : bool :=
  forallb (fun b => negb (Byte.eqb b CR)) s.

(** The bytes hold the delimiter of the boundary nowhere. *)
Definition delimiterFree (boundary : string) (payload : list byte) : bool :=
  match splitAt (delimiterOf boundary) payload with
  | Some _ => false
  | None => true
  end.

(** The header lines of a rendered part, blank line included. *)
Definition headerLines (part : Part) : list byte :=
  (Buffer_from ("Content-Disposition: form-data; name=" +++ DQUOTE)
   ++ Buffer_from (partName part) ++ [DQ]
   ++ match partFilename part with
      | Some f => Buffer_from ("; filename=" +++ DQUOTE) ++ Buffer_from f ++ [DQ]
      | None => []
      end)
  ++ [CR; LF]
  ++ match partContentType part with
     | Some t => (Buffer_from "Content-Type:" ++ " "%byte :: Buffer_from t) ++ [CR; LF]
     | None => []
     end
  ++ [CR; LF].

(** What follows the opening dash-boundary of a rendered body. *)
Definition afterDash (boundary : string) (parts : list Part) : list byte :=
  fold_right
    (fun part rest =>
       [CR; LF] ++ headerLines part ++ partPayload part
       ++ delimiterOf boundary ++ rest)
    (Buffer_from ("--" +++ CRLF)) parts.

(** A part the reader gives back as it was rendered. *)
Definition readable (boundary : string) (part : Part) : bool :=
  (quotable (partName part)
   && match partFilename part with Some f => quotable f | None => true end
   && match partContentType part with Some t => headerValue t | None => true end
   && delimiterFree boundary (partPayload part))%bool.

(** *** Further vocabulary: failures, endless sources, handlers *)

(** What a return-all collector does when a page fetch fails: after full
    pages, a rejected request ends the run with the normalized error; the
    pages gathered so far are not returned and no further request is sent. *)
Definition collector_failure (normalize : HttpError -> NodeApiError)
    (server : Server) (collect : nat -> M Json) (request_for : Z -> Request)
    (start step : Z) : Prop :=
  forall (responses : list Json) (pages : list (list Json)) (error : HttpError)
         (fuel : nat) (sent : list Request),
    Forall2 listResponse responses pages ->
    Forall (fun p => Z.of_nat (List.length p) = 1000) pages ->
    answers server request_for step sent start responses ->
    server (sent ++ requests_from request_for step start (List.length pages))
           (request_for (start + step * Z.of_nat (List.length pages)))
    = Reject error ->
    (List.length pages < fuel)%nat ->
    collect fuel sent
    = (Thrown (ApiExn (normalize error)),
       sent ++ requests_from request_for step start (S (List.length pages))).

(** A source that answers every page request, whatever came before, with a
    page of exactly 1000 items. *)
Definition always_full (server : Server) (request_for : Z -> Request) : Prop :=
  forall (sent : list Request) (cursor : Z),
    exists (response : Json) (page : list Json),
      server sent (request_for cursor) = Resolve response
      /\ listResponse response page
      /\ Z.of_nat (List.length page) = 1000.

(** A collector that never returns against such a source: whatever the fuel,
    it is used up, one request per unit. *)
Definition runs_forever (collect : nat -> M Json) (request_for : Z -> Request)
    (start step : Z) : Prop :=
  forall (fuel : nat) (sent : list Request),
    collect fuel sent
    = (OutOfFuel, sent ++ requests_from request_for step start fuel).

(** A handler that sends exactly one request and is done: the reply is
    returned through [onSuccess], a rejection is thrown as [normalize] renders
    it; either way the request is the only one sent. *)
Definition one_request (server : Server) (handler : M Json) (request : Request)
    (onSuccess : Json -> Json) (normalize : HttpError -> NodeApiError) : Prop :=
  forall sent : list Request,
    handler sent
    = match server sent request with
      | Resolve response => (Returned (onSuccess response), sent ++ [request])
      | Reject error => (Thrown (ApiExn (normalize error)), sent ++ [request])
      end.

(** The host delivers the binary property: its description and its
    content. *)
Definition delivered (binaryProperty : BinaryProperty) (binaryData : IBinaryData)
    (fileBuffer : list byte) : Prop :=
  assertBinaryData binaryProperty = inr binaryData
  /\ getBinaryDataBuffer binaryProperty = inr fileBuffer.

(** The host does not deliver the binary property: the error of the first
    helper that fails. *)
Definition withheld (binaryProperty : BinaryProperty) (error : Exn) : Prop :=
  assertBinaryData binaryProperty = inl error
  \/ (exists binaryData,
         assertBinaryData binaryProperty = inr binaryData
         /\ getBinaryDataBuffer binaryProperty = inl error).

(** A handler that stops on an error before any request: it throws the error
    as it is and sends nothing. *)
Definition stopped_by (handler : M Json) (error : Exn) : Prop :=
  forall sent : list Request, handler sent = (Thrown error, sent).

(** A handler that fails on its own input: it throws a [NodeOperationError]
    with the given message for the item and sends nothing. *)
Definition rejected_locally (handler : M Json) (msg : string) (itemIndex : nat)
  : Prop :=
  forall sent : list Request,
    exists description,
      handler sent
      = (Thrown (OperationExn
                   (mkNodeOperationError (Some msg) itemIndex description)),
         sent).



(** A JSON value that is not an object, array or buffer. *)
Definition primitive (v : Json) : Prop :=
  match v with
  | JObj _ | JArr _ | JBuf _ => False
  | _ => True
  end.

(** *** Runs of the item loop *)

(** What [process] does on consecutive items from [itemIndex] on, each item
    starting in the state the one before left behind: the result or the error
    of every item, and the state after the last. *)
Inductive item_run (process : nat -> M Json)
  : nat -> list Request -> list (Json + Exn) -> list Request -> Prop :=
| run_done itemIndex sent : item_run process itemIndex sent [] sent
| run_returned itemIndex sent r sent' rest sent'' :
    process itemIndex sent = (Returned r, sent') ->
    item_run process (S itemIndex) sent' rest sent'' ->
    item_run process itemIndex sent (inl r :: rest) sent''
| run_thrown itemIndex sent e sent' rest sent'' :
    process itemIndex sent = (Thrown e, sent') ->
    item_run process (S itemIndex) sent' rest sent'' ->
    item_run process itemIndex sent (inr e :: rest) sent''.

(** The entries the items of a run contribute, in item order: the outputs of
    a result, one error entry for an error. *)
Fixpoint contributions (outputs : Json -> nat -> list Json) (itemIndex : nat)
    (results : list (Json + Exn)) : list Json :=
  match results with
  | [] => []
  | inl r :: rest =>
      outputs r itemIndex ++ contributions outputs (S itemIndex) rest
  | inr e :: rest =>
      errorEntry e itemIndex :: contributions outputs (S itemIndex) rest
  end.

Definition succeeded (result : Json + Exn) : Prop :=
  match result with
  | inl _ => True
  | inr _ => False
  end.

(** What a driver does with any number of items.  When every item succeeds,
    or continue-on-fail is on, all items are processed in order and the one
    output list holds their contributions in item order.  With
    continue-on-fail off the first failing item ends the run: its error is
    raised again, later items are not processed and nothing is returned. *)
Definition driver_run (continueOnFail : bool) (process : nat -> M Json)
    (outputs : Json -> nat -> list Json)
    (execute : list Json -> M (list (list Json))) : Prop :=
  forall (items : list Json) (sent sent' : list Request)
         (results : list (Json + Exn)),
    item_run process O sent results sent' ->
    (List.length results = List.length items ->
     continueOnFail = true \/ Forall succeeded results ->
     execute items sent = (Returned [contributions outputs O results], sent'))
    /\
    (forall (rs : list Json) (e : Exn),
        results = map inl rs ++ [inr e] ->
        (List.length rs < List.length items)%nat ->
        continueOnFail = false ->
        execute items sent = (Thrown (rethrow e (List.length rs)), sent')).

(** The property [name] of an object. *)
Definition property (name : string) (entry : Json) : option Json :=
  match entry with
  | JObj fields => assoc name fields
  | _ => None
  end.

(** The [pairedItem] value that links an output entry to input item [i]. *)
Definition pairedWith (i : nat) : Json := JObj [("item", JNum (Z.of_nat i))].

(** The [json] payload of the entry for a result or an error. *)
Definition payload (result : Json + Exn) : Json :=
  match result with
  | inl r => r
  | inr e => JObj [("error", match exn_message e with
                             | Some m => JStr m
                             | None => JUndefined
                             end)]
  end.

(** The payloads the Storage node puts out for one item: the elements of an
    array result (none for an empty array), any other result as it is, the
    error object for an error. *)
Definition payloads (result : Json + Exn) : list Json :=
  match result with
  | inl (JArr xs) => xs
  | _ => [payload result]
  end.

(** Output entries grouped by input item, from item [first] on: the entries
    are the concatenation, in item order, of one group per item of the run,
    and the group of an item holds one entry per payload of the item's result,
    in order, each paired with that item. *)
Definition grouped_from (first : nat) (entries : list Json)
    (results : list (Json + Exn)) : Prop :=
  exists groups : list (list Json),
    entries = concat groups
    /\ List.length groups = List.length results
    /\ forall (k : nat) (result : Json + Exn),
         nth_error results k = Some result ->
         exists group,
           nth_error groups k = Some group
           /\ map (property "json") group = map Some (payloads result)
           /\ Forall (fun entry =>
                        property "pairedItem" entry
                        = Some (pairedWith (first + k)))
                group.

Definition grouped_by_item (entries : list Json) (results : list (Json + Exn))
  : Prop :=
  grouped_from O entries results.

(** Output entries paired with input items in item order: the entries'
    [pairedItem] values name item indices below [n] that never decrease. *)
Definition paired_in_order (entries : list Json) (n : nat) : Prop :=
  exists indices : list nat,
    map (property "pairedItem") entries = map (fun i => Some (pairedWith i)) indices
    /\ StronglySorted le indices
    /\ Forall (fun i => (i < n)%nat) indices.

(** The header [name] of a full response, [fallback] standing in for a
    missing or falsy one. *)
Definition headerOr (headers : list (string * Json)) (name : string)
    (fallback : Json) : Json :=
  match assoc name headers with
  | Some v => if truthy v then v else fallback
  | None => fallback
  end.

(** The file name a download takes from the content-disposition text [d]:
    the captured name without its quotes, or the key when the pattern finds
    none. *)
Definition downloadName (host : Host) (d key : string) : string :=
  match filenameMatch host d with
  | Some g => if nonempty g then Files.stripQuotes g else key
  | None => key
  end.

(** The output entry of a download. *)
Definition downloadEntry (host : Host) (category key fileName : string)
    (contentType : Json) (bytes : list byte) (itemIndex : nat) : Json :=
  JObj [("json", JObj [("category", JStr category); ("key", JStr key);
                       ("fileName", JStr fileName); ("mimeType", contentType)]);
        ("binary",
         JObj [("data", prepareBinaryData host (JBuf bytes) fileName contentType)]);
        ("pairedItem", pairedWith itemIndex)].

(** The value the last pair named [name] carries, if a pair has the name. *)
Fixpoint lastValue (name : string) (fields : list (string * string))
  : option string :=
  match fields with
  | [] => None
  | (k, v) :: rest =>
      match lastValue name rest with
      | Some w => Some w
      | None => if (k =? name)%string then Some v else None
      end
  end.

(** The field pairs of the [dataFields] collection. *)
Definition fieldPairs (p : Storage.Parameters) : list (string * string) :=
  match Storage.dataFields p with
  | Some field => field
  | None => []
  end.

(** The query-string parameter [name] of a request. *)
Definition queried (name : string) (request : Request) : option QVal :=
  match qs request with
  | Some q => assoc name q
  | None => None
  end.

(** [response.name] on an object: the property, or [undefined]. *)
Definition field (name : string) (fields : list (string * Json)) : Json :=
  match assoc name fields with
  | Some v => v
  | None => JUndefined
  end.

(** What a single bounded fetch makes of a response outside the list shapes:
    [null] and [undefined] end it with the normalized error of a failure that
    has no status code; a boolean, a number and a string count as an empty
    list; a wrapper whose [items] property is not an array yields that
    property as it is when it is truthy, and an empty list otherwise.  One
    request is sent in each case. *)
Definition single_fetch_edges (server : Server) (fetch : M Json)
    (request : Request) (normalize : HttpError -> NodeApiError) : Prop :=
  forall (response : Json) (sent : list Request),
    server sent request = Resolve response ->
    (response = JNull \/ response = JUndefined ->
     exists cause,
       fetch sent = (Thrown (ApiExn (normalize cause)), sent ++ [request])
       /\ statusCode cause = None /\ responseMessage cause = None)
    /\ (match response with
        | JBool _ | JNum _ | JStr _ => True
        | _ => False
        end ->
        fetch sent = (Returned (JArr []), sent ++ [request]))
    /\ (forall fields items,
           response = JObj fields -> assoc "items" fields = Some items ->
           fetch sent
           = (Returned (if truthy items then items else JArr []),
              sent ++ [request])).

(** A query string without idle entries: distinct keys, no empty text and no
    [false] among the values. *)
Definition tidy (q : list (string * QVal)) : Prop :=
  NoDup (map fst q)
  /\ Forall (fun entry => snd entry <> QStr EmptyString
                          /\ snd entry <> QBool false) q.

(** The errors n8n knows how to show: [NodeApiError] and
    [NodeOperationError]. *)
Definition node_error (e : Exn) : Prop :=
  match e with
  | ApiExn _ | OperationExn _ => True
  | OtherExn _ => False
  end.

(** The failures of a driver: none at all with continue-on-fail on, and
    otherwise node errors only. *)
Definition fails_with_node_errors_only (continueOnFail : bool)
    (execute : list Json -> M (list (list Json))) : Prop :=
  forall (items : list Json) (sent sent' : list Request) (e : Exn),
    execute items sent = (Thrown e, sent') ->
    continueOnFail = false /\ node_error e.

(* ======================================================================== *)
(** * Properties *)

(** ** Small facts about the JavaScript layer *)

Lemma nonempty_true (s : string) : nonempty s = true <-> s <> EmptyString.
Proof.
  unfold nonempty. rewrite negb_true_iff. split.
  - intros H E. subst s. discriminate H.
  - intros H. apply String.eqb_neq. exact H.
Qed.

Lemma nonempty_false (s : string) : nonempty s = false <-> s = EmptyString.
Proof.
  unfold nonempty. rewrite negb_false_iff. apply String.eqb_eq.
Qed.

Lemma string_append_assoc (a b c : string) : (a +++ b) +++ c = a +++ b +++ c.
Proof.
  induction a as [|x a IH]; simpl; [reflexivity|]. rewrite IH. reflexivity.
Qed.


Lemma or_else_absent (o : option string) (d : string) :
  absent o -> or_else o d = d.
Proof.
  intros [-> | ->]; reflexivity.
Qed.

(** ** The error table *)

Ltac split_code :=
  repeat match goal with
         | |- context [match ?p with xI _ => _ | xO _ => _ | xH => _ end] =>
             destruct p
         | |- context [match ?z with Z0 => _ | Zpos _ => _ | Zneg _ => _ end] =>
             destruct z
         end.

(** Decimal numerals are no error codes. *)
Lemma toString_no_common_error (c : Z) :
  N8nWorkflow.truthyString (Some (toString c)) = Some (toString c)
  /\ N8nWorkflow.commonErrorFor (Some (toString c)) = None.
Proof.
  unfold toString, N8nWorkflow.truthyString, N8nWorkflow.commonErrorFor.
  destruct (Z.to_int c) as [d | d]; [destruct d | ]; split; reflexivity.
Qed.

(** The code the constructor looks up, for an error with a status code and
    for one without. *)
Lemma lookup_status (error : HttpError) (c : Z) :
  statusCode error = Some c ->
  match N8nWorkflow.truthyString (option_map toString (statusCode error)) with
  | Some given => Some given
  | None => N8nWorkflow.truthyString (code error)
  end = Some (toString c).
Proof.
  intros ->. cbn [option_map].
  rewrite (proj1 (toString_no_common_error c)). reflexivity.
Qed.

Lemma lookup_no_status (error : HttpError) :
  statusCode error = None ->
  match N8nWorkflow.truthyString (option_map toString (statusCode error)) with
  | Some given => Some given
  | None => N8nWorkflow.truthyString (code error)
  end = N8nWorkflow.truthyString (code error).
Proof. intros ->. reflexivity. Qed.

(** The constructor shows the pair it is given when neither the code nor the
    message names a common error. *)
Lemma NodeApiError_new_shows (error : HttpError) (message description : string)
    (itemIndex : nat) :
  (forall text, ~ networkFailure error text) ->
  N8nWorkflow.commonErrorIn message = None ->
  shows (N8nWorkflow.NodeApiError_new error message description
           (option_map toString (statusCode error)) itemIndex)
    message description.
Proof.
  intros Hplain Hscan. unfold shows, N8nWorkflow.NodeApiError_new.
  cbn [apiMessageText apiDescription]. split; [|reflexivity].
  unfold N8nWorkflow.setDescriptiveErrorMessage. rewrite Hscan.
  destruct (statusCode error) as [c|] eqn:Hc.
  - cbn [option_map]. rewrite (proj1 (toString_no_common_error c)).
    rewrite (proj2 (toString_no_common_error c)). reflexivity.
  - cbn [option_map N8nWorkflow.truthyString].
    destruct (N8nWorkflow.commonErrorFor (N8nWorkflow.truthyString (code error)))
      as [text|] eqn:E; [|reflexivity].
    exfalso. apply (Hplain text). split; assumption.
Qed.

(** A status code is no network failure. *)
Lemma status_plain (error : HttpError) (c : Z) :
  statusCode error = Some c -> forall text, ~ networkFailure error text.
Proof. intros Hc text [Hn _]. congruence. Qed.

(** None of the labels in use names a common error. *)
Lemma labels_name_no_common_error :
  Forall (fun operation =>
            N8nWorkflow.commonErrorIn ("Could not " +++ operation) = None
            /\ N8nWorkflow.commonErrorIn ("Failed to " +++ operation) = None)
    operationLabels.
Proof. repeat constructor. Qed.





(** ** Running computations *)

Lemma bind_returned {A B : Type} (m : M A) (k : A -> M B) (sent sent' : list Request)
    (a : A) :
  m sent = (Returned a, sent') -> bind m k sent = k a sent'.
Proof. intros H. unfold bind. rewrite H. reflexivity. Qed.

Lemma bind_thrown {A B : Type} (m : M A) (k : A -> M B) (sent sent' : list Request)
    (e : Exn) :
  m sent = (Thrown e, sent') -> bind m k sent = (Thrown e, sent').
Proof. intros H. unfold bind. rewrite H. reflexivity. Qed.

Lemma bind_ext {A B : Type} (m : M A) (k1 k2 : A -> M B) (sent : list Request) :
  (forall a sent', k1 a sent' = k2 a sent') -> bind m k1 sent = bind m k2 sent.
Proof.
  intros H. unfold bind. destruct (m sent) as [[a| |] sent']; try reflexivity.
  apply H.
Qed.

Lemma try_catch_returned {A : Type} (m : M A) (h : Exn -> M A)
    (sent sent' : list Request) (a : A) :
  m sent = (Returned a, sent') -> try_catch m h sent = (Returned a, sent').
Proof. intros H. unfold try_catch. rewrite H. reflexivity. Qed.

Lemma try_catch_thrown {A : Type} (m : M A) (h : Exn -> M A)
    (sent sent' : list Request) (e : Exn) :
  m sent = (Thrown e, sent') -> try_catch m h sent = h e sent'.
Proof. intros H. unfold try_catch. rewrite H. reflexivity. Qed.

(** ** List responses *)

Lemma extractPage_listResponse (ceiling : Z) (response : Json) (xs : list Json)
    (sent : list Request) :
  listResponse response xs ->
  extractPage ceiling response sent
  = (Returned (xs, Z.of_nat (List.length xs) =? ceiling), sent).
Proof.
  intros H. destruct H as [xs | fields xs H | fields H]; unfold extractPage; simpl.
  - reflexivity.
  - rewrite H. reflexivity.
  - rewrite H. reflexivity.
Qed.

(** The single bounded fetch returns the extracted array itself. *)
Lemma itemsOf_listResponse (response : Json) (xs : list Json) (sent : list Request) :
  listResponse response xs -> itemsOf response sent = (Returned (JArr xs), sent).
Proof.
  intros H. destruct H as [xs | fields xs H | fields H]; simpl.
  - reflexivity.
  - rewrite H. reflexivity.
  - rewrite H. reflexivity.
Qed.

(** ** The return-all loop, once for the three nodes *)

Section Paginate.

Variable server : Server.
Variable request_for : Z -> Request.
Variable step : Z.
Variable ceiling : Z.
Variable normalize : Exn -> Exn.

Local Abbreviation run_pages := (paginate server request_for step ceiling normalize).
Local Abbreviation page_requests := (requests_from request_for step).
Local Abbreviation served := (answers server request_for step).

Lemma requests_from_S (cursor : Z) (n : nat) :
  page_requests cursor (S n)
  = request_for cursor :: page_requests (cursor + step) n.
Proof.
  unfold requests_from. simpl. rewrite <- seq_shift, map_map.
  f_equal.
  - f_equal. lia.
  - apply map_ext. intros i. f_equal. lia.
Qed.

Lemma answers_tail (sent : list Request) (cursor : Z) (r : Json)
    (responses : list Json) :
  served sent cursor (r :: responses) ->
  served (sent ++ [request_for cursor]) (cursor + step) responses.
Proof.
  intros H i r' Hi. specialize (H (S i) r' Hi).
  rewrite requests_from_S in H. rewrite <- app_assoc. simpl.
  replace (cursor + step + step * Z.of_nat i)
    with (cursor + step * Z.of_nat (S i)) by lia.
  exact H.
Qed.

Lemma answers_head (sent : list Request) (cursor : Z) (r : Json)
    (responses : list Json) :
  served sent cursor (r :: responses) ->
  server sent (request_for cursor) = Resolve r.
Proof.
  intros H. specialize (H O r eq_refl).
  unfold requests_from in H. simpl in H.
  rewrite app_nil_r in H. replace (cursor + step * 0) with cursor in H by lia.
  exact H.
Qed.

(** One iteration on a well-shaped response. *)
Lemma fetch_page (sent : list Request) (cursor : Z) (r : Json) (xs : list Json) :
  server sent (request_for cursor) = Resolve r ->
  listResponse r xs ->
  try_catch
    (response <- httpRequest server (request_for cursor) ;;
     extractPage ceiling response)
    (fun error => throw (normalize error)) sent
  = (Returned (xs, Z.of_nat (List.length xs) =? ceiling),
     sent ++ [request_for cursor]).
Proof.
  intros Hs Hr. apply try_catch_returned.
  unfold bind, httpRequest. rewrite Hs.
  apply extractPage_listResponse. exact Hr.
Qed.

(** Full pages keep the loop going; the first page that is not full ends
    it.  With fuel for every page the loop returns all items in order,
    having sent one request per page, cursor after cursor. *)
Lemma paginate_run (responses : list Json) (pages : list (list Json)) :
  Forall2 listResponse responses pages ->
  Forall (fun p => Z.of_nat (List.length p) = ceiling) pages ->
  forall (last_response : Json) (last_page : list Json),
    listResponse last_response last_page ->
    Z.of_nat (List.length last_page) <> ceiling ->
    forall (fuel : nat) (allItems : list Json) (cursor : Z) (sent : list Request),
      served sent cursor (responses ++ [last_response]) ->
      (List.length pages < fuel)%nat ->
      run_pages fuel allItems cursor sent
      = (Returned (allItems ++ concat pages ++ last_page),
         sent ++ page_requests cursor (S (List.length pages))).
Proof.
  intros HF. induction HF as [| r p rs ps Hr HF IH];
    intros Hfull last_response last_page Hlast Hshort fuel allItems cursor sent Hans Hfuel.
  - destruct fuel as [|fuel]; [simpl in Hfuel; lia|].
    simpl in Hans. pose proof (answers_head _ _ _ _ Hans) as Hs.
    simpl.
    rewrite (bind_returned _ _ _ _ _ (fetch_page _ _ _ _ Hs Hlast)).
    simpl. apply Z.eqb_neq in Hshort. rewrite Hshort.
    unfold requests_from. simpl.
    replace (cursor + step * 0) with cursor by lia. reflexivity.
  - destruct fuel as [|fuel]; [simpl in Hfuel; lia|].
    simpl in Hans. pose proof (answers_head _ _ _ _ Hans) as Hs.
    apply Forall_cons_iff in Hfull as [Hp Hfull'].
    simpl.
    rewrite (bind_returned _ _ _ _ _ (fetch_page _ _ _ _ Hs Hr)).
    rewrite Hp, Z.eqb_refl. cbn [fst snd].
    rewrite (IH Hfull' last_response last_page Hlast Hshort fuel
               (allItems ++ p) (cursor + step) (sent ++ [request_for cursor])
               (answers_tail _ _ _ _ Hans)) by (simpl in Hfuel; lia).
    rewrite requests_from_S with (n := S (List.length ps)).
    cbn [concat List.length]. rewrite <- !app_assoc. reflexivity.
Qed.

End Paginate.

(** The loops of the nodes are instances of [paginate]. *)

Ltac loop_step IH :=
  unfold extractPage, httpRequestWithAuthentication,
    Files.MAX_LIMIT_PER_REQUEST, Storage.MAX_LIMIT_PER_REQUEST,
    StorageLocal.MAX_LIMIT_PER_REQUEST;
  unfold bind at 1 5;
  match goal with
  | |- context [try_catch ?m ?h ?sent] =>
      let pushed := fresh "pushed" in
      let more := fresh "more" in
      destruct (try_catch m h sent) as [[[pushed more]| |] ?]
  end; try reflexivity;
  cbn [fst snd];
  match goal with
  | |- context [if ?more then _ else _] => destruct more
  end; [apply IH | reflexivity].

Lemma Files_getMany_loop_paginate (fuel : nat) (this : IExecuteFunctions)
    (itemIndex : nat) (baseURL category : string)
    (options : Files.GetManyAdditionalFields) :
  forall (allItems : list Json) (offset : Z) (sent : list Request),
    Files.getMany_loop fuel this itemIndex baseURL category options allItems offset sent
    = paginate (helpers this)
        (fun offset => Files.getMany_requestOptions baseURL category
                         (Files.getMany_page_qs options offset))
        1000 1000
        (fun error => ApiExn (handleApiError (as_http error) itemIndex
                                "get many files" EntFile))
        fuel allItems offset sent.
Proof.
  induction fuel as [|fuel IH]; intros allItems offset sent; [reflexivity|].
  cbn [Files.getMany_loop paginate]. loop_step IH.
Qed.

Lemma Storage_recordGetMany_loop_paginate (fuel : nat) (this : IExecuteFunctions)
    (itemIndex : nat) (baseURL category : string)
    (additionalFields : Storage.AdditionalFields) :
  forall (allItems : list Json) (page : Z) (sent : list Request),
    Storage.recordGetMany_loop fuel this itemIndex baseURL category
      additionalFields allItems page sent
    = paginate (helpers this)
        (fun page => Storage.recordGetMany_requestOptions baseURL category
                       (Storage.recordGetMany_page_qs additionalFields page))
        1 1000
        (fun error => ApiExn (handleApiError (as_http error) itemIndex
                                "get many records" EntRecord))
        fuel allItems page sent.
Proof.
  induction fuel as [|fuel IH]; intros allItems page sent; [reflexivity|].
  cbn [Storage.recordGetMany_loop paginate]. loop_step IH.
Qed.

Lemma Storage_categoryGetMany_loop_paginate (fuel : nat) (this : IExecuteFunctions)
    (itemIndex : nat) (baseURL : string) :
  forall (allItems : list Json) (page : Z) (sent : list Request),
    Storage.categoryGetMany_loop fuel this itemIndex baseURL allItems page sent
    = paginate (helpers this)
        (fun page => Storage.categoryGetMany_requestOptions baseURL
                       [("page", QNum page); ("limit", QNum 1000)])
        1 1000
        (fun error => ApiExn (handleApiError (as_http error) itemIndex
                                "get categories" EntRecord))
        fuel allItems page sent.
Proof.
  induction fuel as [|fuel IH]; intros allItems page sent; [reflexivity|].
  cbn [Storage.categoryGetMany_loop paginate]. loop_step IH.
Qed.

Lemma StorageLocal_recordGetMany_loop_paginate (fuel : nat)
    (this : IExecuteFunctions) (itemIndex : nat) (category : string)
    (additionalFields : StorageLocal.GetManyAdditionalFields) :
  forall (allItems : list Json) (page : Z) (sent : list Request),
    StorageLocal.recordGetMany_loop fuel this itemIndex category
      additionalFields allItems page sent
    = paginate (helpers this)
        (fun page => StorageLocal.recordGetMany_requestOptions category
                       (StorageLocal.recordGetMany_qs additionalFields page 1000))
        1 1000
        (fun error => ApiExn (StorageLocal.handleApiError (as_http error) itemIndex
                                "get many records"))
        fuel allItems page sent.
Proof.
  induction fuel as [|fuel IH]; intros allItems page sent; [reflexivity|].
  cbn [StorageLocal.recordGetMany_loop paginate]. loop_step IH.
Qed.

(** A scripted source answers any sequence of page requests with its
    script. *)
Lemma scripted_answers (request_for : Z -> Request) (step cursor : Z)
    (responses : list Json) :
  answers (scripted (map Resolve responses)) request_for step [] cursor responses.
Proof.
  intros i r H. unfold scripted, requests_from.
  rewrite app_nil_l, length_map, length_seq.
  rewrite (nth_error_nth _ _ _ (map_nth_error Resolve _ _ H)). reflexivity.
Qed.

(** A collector that keeps its contract handles the two mock sources. *)
Lemma contract_mock_sources (collect : Server -> nat -> M Json)
    (request_for : Z -> Request) (start step : Z) :
  (forall server, collector_contract server (collect server) request_for start step) ->
  collects_mock_sources collect.
Proof.
  intros H. split.
  - intros r1 r2 r3 p1 p2 p3 fuel H1 H2 H3 L1 L2 L3 Hfuel.
    exists (requests_from request_for step start 3). split; [|split].
    + change [Resolve r1; Resolve r2; Resolve r3] with (map Resolve ([r1; r2] ++ [r3])).
      rewrite (H _ [r1; r2] [p1; p2] r3 p3 fuel []).
      * cbn [concat List.length app]. rewrite app_nil_r, <- app_assoc. reflexivity.
      * repeat constructor; assumption.
      * repeat constructor; lia.
      * assumption.
      * lia.
      * apply scripted_answers.
      * simpl. lia.
    + unfold requests_from. simpl. reflexivity.
    + rewrite !length_app. lia.
  - intros r1 r2 r3 r4 p1 p2 p3 fuel H1 H2 H3 H4 L1 L2 L3 Hfuel.
    exists (requests_from request_for step start 4). split; [|split].
    + change [Resolve r1; Resolve r2; Resolve r3; Resolve r4]
        with (map Resolve ([r1; r2; r3] ++ [r4])).
      rewrite (H _ [r1; r2; r3] [p1; p2; p3] r4 [] fuel []).
      * cbn [concat List.length app]. rewrite !app_nil_r. reflexivity.
      * repeat constructor; assumption.
      * repeat constructor; lia.
      * assumption.
      * simpl. lia.
      * apply scripted_answers.
      * simpl. lia.
    + unfold requests_from. simpl. reflexivity.
    + rewrite !length_app. lia.
Qed.

(** ** The return-all collector *)

(** A collector that runs [paginate] from an empty accumulator and finishes
    the items off keeps the contract. *)
Lemma paginate_contract_with (finish : list Json -> Json) (server : Server)
    (request_for : Z -> Request) (start step : Z) (normalize : Exn -> Exn)
    (collect : nat -> M Json) :
  (forall fuel sent,
      collect fuel sent
      = bind (paginate server request_for step 1000 normalize fuel [] start)
          (fun allItems => ret (finish allItems)) sent) ->
  collector_contract_with finish server collect request_for start step.
Proof.
  intros Hc responses pages last_response last_page fuel sent HF Hfull Hlast Hshort
    Hans Hfuel.
  rewrite Hc.
  rewrite (bind_returned _ _ _ _ _
             (paginate_run server request_for step 1000 normalize responses pages
                HF Hfull last_response last_page Hlast Hshort fuel [] start sent
                Hans Hfuel)).
  reflexivity.
Qed.

Lemma paginate_contract (server : Server) (request_for : Z -> Request)
    (start step : Z) (normalize : Exn -> Exn) (collect : nat -> M Json) :
  (forall fuel sent,
      collect fuel sent
      = bind (paginate server request_for step 1000 normalize fuel [] start)
          (fun allItems => ret (JArr allItems)) sent) ->
  collector_contract server collect request_for start step.
Proof. apply paginate_contract_with. Qed.

Lemma Files_collector_contract (this : IExecuteFunctions) (itemIndex : nat)
    (category : string) (options : Files.GetManyAdditionalFields) (limit : Z) :
  collector_contract (helpers this)
    (fun fuel => Files.executeFileGetMany fuel this itemIndex category true options limit)
    (fun offset =>
       Files.getMany_requestOptions (getBaseUrl (getCredentials this)) category
         (Files.getMany_page_qs options offset))
    (match Files.offset options with Some n => n | None => 0 end) 1000.
Proof.
  eapply paginate_contract. intros fuel sent.
  unfold Files.executeFileGetMany, bind.
  rewrite Files_getMany_loop_paginate. reflexivity.
Qed.

Lemma Storage_collector_contract (this : IExecuteFunctions) (itemIndex : nat)
    (p : Storage.Parameters) :
  Storage.returnAll p = true -> Storage.aggregate p = false ->
  collector_contract (helpers this)
    (fun fuel => Storage.executeRecordGetMany fuel this p itemIndex)
    (fun page =>
       Storage.recordGetMany_requestOptions (getBaseUrl (getCredentials this))
         (Storage.category p)
         (Storage.recordGetMany_page_qs (Storage.additionalFields p) page))
    1 1.
Proof.
  intros Hall Hagg. eapply paginate_contract. intros fuel sent.
  unfold Storage.executeRecordGetMany, bind. rewrite Hall, Hagg.
  rewrite Storage_recordGetMany_loop_paginate. reflexivity.
Qed.

Lemma StorageLocal_collector_contract (this : IExecuteFunctions) (itemIndex : nat)
    (category : string) (additionalFields : StorageLocal.GetManyAdditionalFields)
    (limit : Z) :
  collector_contract (helpers this)
    (fun fuel => StorageLocal.executeRecordGetMany fuel this itemIndex category true
                   additionalFields limit)
    (fun page =>
       StorageLocal.recordGetMany_requestOptions category
         (StorageLocal.recordGetMany_qs additionalFields page 1000))
    1 1.
Proof.
  eapply paginate_contract. intros fuel sent.
  unfold StorageLocal.executeRecordGetMany, bind.
  rewrite StorageLocal_recordGetMany_loop_paginate. reflexivity.
Qed.

(** C2.  With return-all set, the file listing of the Files node and the
    record listings of the two Storage nodes keep the collector contract for
    the ceiling of 1000: page requests go out one after the other, each after
    the previous reply, the cursor starting at the initial offset (or page 1)
    and advancing by 1000 (or one page); every page's items are appended in
    order; a page of exactly 1000 items is followed by the request for the
    next cursor position and the first page of any other size ends the loop.
    In particular a source of pages of sizes 1000, 1000, 37 takes exactly 3
    requests and yields the 2037 items, and a source of pages of sizes 1000,
    1000, 1000 followed by an empty page takes exactly 4 requests and yields
    the 3000 items. *)
Theorem return_all_collector :
  forall (credentials : Credentials) (continueOnFail : bool) (itemIndex : nat),
    let this := fun server => mkContext server credentials continueOnFail in
    (forall server category options limit,
        collector_contract server
          (fun fuel =>
             Files.executeFileGetMany fuel (this server) itemIndex category true
               options limit)
          (fun offset =>
             Files.getMany_requestOptions (getBaseUrl credentials) category
               (Files.getMany_page_qs options offset))
          (match Files.offset options with Some n => n | None => 0 end) 1000)
    /\
    (forall server p,
        Storage.returnAll p = true -> Storage.aggregate p = false ->
        collector_contract server
          (fun fuel => Storage.executeRecordGetMany fuel (this server) p itemIndex)
          (fun page =>
             Storage.recordGetMany_requestOptions (getBaseUrl credentials)
               (Storage.category p)
               (Storage.recordGetMany_page_qs (Storage.additionalFields p) page))
          1 1)
    /\
    (forall server category additionalFields limit,
        collector_contract server
          (fun fuel =>
             StorageLocal.executeRecordGetMany fuel (this server) itemIndex category
               true additionalFields limit)
          (fun page =>
             StorageLocal.recordGetMany_requestOptions category
               (StorageLocal.recordGetMany_qs additionalFields page 1000))
          1 1)
    /\
    (forall category options limit,
        collects_mock_sources
          (fun server fuel =>
             Files.executeFileGetMany fuel (this server) itemIndex category true
               options limit))
    /\
    (forall p,
        Storage.returnAll p = true -> Storage.aggregate p = false ->
        collects_mock_sources
          (fun server fuel => Storage.executeRecordGetMany fuel (this server) p itemIndex))
    /\
    (forall category additionalFields limit,
        collects_mock_sources
          (fun server fuel =>
             StorageLocal.executeRecordGetMany fuel (this server) itemIndex category
               true additionalFields limit)).
Proof.
  intros credentials continueOnFail itemIndex this.
  assert (HF : forall server category options limit,
             collector_contract server
               (fun fuel =>
                  Files.executeFileGetMany fuel (this server) itemIndex category true
                    options limit)
               (fun offset =>
                  Files.getMany_requestOptions (getBaseUrl credentials) category
                    (Files.getMany_page_qs options offset))
               (match Files.offset options with Some n => n | None => 0 end) 1000).
  { intros server category options limit.
    apply (Files_collector_contract (this server)). }
  assert (HS : forall server p,
             Storage.returnAll p = true -> Storage.aggregate p = false ->
             collector_contract server
               (fun fuel => Storage.executeRecordGetMany fuel (this server) p itemIndex)
               (fun page =>
                  Storage.recordGetMany_requestOptions (getBaseUrl credentials)
                    (Storage.category p)
                    (Storage.recordGetMany_page_qs (Storage.additionalFields p) page))
               1 1).
  { intros server p. apply (Storage_collector_contract (this server)). }
  assert (HL : forall server category additionalFields limit,
             collector_contract server
               (fun fuel =>
                  StorageLocal.executeRecordGetMany fuel (this server) itemIndex
                    category true additionalFields limit)
               (fun page =>
                  StorageLocal.recordGetMany_requestOptions category
                    (StorageLocal.recordGetMany_qs additionalFields page 1000))
               1 1).
  { intros server category additionalFields limit.
    apply (StorageLocal_collector_contract (this server)). }
  split; [exact HF|]. split; [exact HS|]. split; [exact HL|].
  split; [|split].
  - intros category options limit.
    eapply contract_mock_sources. intros server. apply HF.
  - intros p Hall Hagg.
    eapply contract_mock_sources. intros server. apply HS; assumption.
  - intros category additionalFields limit.
    eapply contract_mock_sources. intros server. apply HL.
Qed.

(** ** Response shapes *)

Lemma contract_shape_independent (finish : list Json -> Json)
    (collect : Server -> nat -> M Json)
    (request_for : Z -> Request) (start step : Z) :
  (forall server,
      collector_contract_with finish server (collect server) request_for start step) ->
  shape_independent collect request_for start step.
Proof.
  intros H server1 server2 responses1 responses2 pages last1 last2 last_page fuel
    sent1 sent2 HF1 HF2 Hfull Hl1 Hl2 Hshort Ha1 Ha2 Hfuel.
  rewrite (H server1 responses1 pages last1 last_page fuel sent1) by assumption.
  rewrite (H server2 responses2 pages last2 last_page fuel sent2) by assumption.
  reflexivity.
Qed.

Lemma single_fetch_run (server : Server) (request : Request)
    (normalize : Exn -> Exn) :
  single_fetch_contract server
    (try_catch (response <- httpRequest server request ;; itemsOf response)
       (fun error => throw (normalize error)))
    request.
Proof.
  intros response xs sent Hs Hr. apply try_catch_returned.
  unfold bind, httpRequest. rewrite Hs.
  apply itemsOf_listResponse. exact Hr.
Qed.

Lemma Storage_category_collector_contract (this : IExecuteFunctions)
    (itemIndex : nat) (p : Storage.Parameters) :
  Storage.returnAll p = true -> Storage.aggregate p = false ->
  collector_contract (helpers this)
    (fun fuel => Storage.executeCategoryGetMany fuel this p itemIndex)
    (fun page =>
       Storage.categoryGetMany_requestOptions (getBaseUrl (getCredentials this))
         [("page", QNum page); ("limit", QNum 1000)])
    1 1.
Proof.
  intros Hall Hagg. eapply paginate_contract. intros fuel sent.
  unfold Storage.executeCategoryGetMany, bind. rewrite Hall, Hagg.
  rewrite Storage_categoryGetMany_loop_paginate. reflexivity.
Qed.

Lemma Storage_record_aggregate_contract (this : IExecuteFunctions)
    (itemIndex : nat) (p : Storage.Parameters) :
  Storage.returnAll p = true -> Storage.aggregate p = true ->
  collector_contract_with (synthesized [("category", JStr (Storage.category p))])
    (helpers this)
    (fun fuel => Storage.executeRecordGetMany fuel this p itemIndex)
    (fun page =>
       Storage.recordGetMany_requestOptions (getBaseUrl (getCredentials this))
         (Storage.category p)
         (Storage.recordGetMany_page_qs (Storage.additionalFields p) page))
    1 1.
Proof.
  intros Hall Hagg. eapply paginate_contract_with. intros fuel sent.
  unfold Storage.executeRecordGetMany, bind. rewrite Hall, Hagg.
  rewrite Storage_recordGetMany_loop_paginate. reflexivity.
Qed.

Lemma Storage_category_aggregate_contract (this : IExecuteFunctions)
    (itemIndex : nat) (p : Storage.Parameters) :
  Storage.returnAll p = true -> Storage.aggregate p = true ->
  collector_contract_with (synthesized []) (helpers this)
    (fun fuel => Storage.executeCategoryGetMany fuel this p itemIndex)
    (fun page =>
       Storage.categoryGetMany_requestOptions (getBaseUrl (getCredentials this))
         [("page", QNum page); ("limit", QNum 1000)])
    1 1.
Proof.
  intros Hall Hagg. eapply paginate_contract_with. intros fuel sent.
  unfold Storage.executeCategoryGetMany, bind. rewrite Hall, Hagg.
  rewrite Storage_categoryGetMany_loop_paginate. reflexivity.
Qed.

(** C7, as amended.  A bare array and a wrapper object whose [items] property
    holds that array yield the same extracted items, and a wrapper without an
    [items] property yields none.  The single bounded fetch of the Files node,
    of the Storage node with Aggregate off (records and categories) and of the
    Storage node with its own error handler returns exactly those items after
    one request; the return-all collectors of the three nodes return the same
    value for sources that deliver the same pages in different shapes.  The
    Storage node's single bounded fetch with Aggregate on (records and
    categories) asks for the aggregate in its one request and returns the
    response as received, whatever its shape. *)
Theorem list_response_shapes :
  forall (credentials : Credentials) (continueOnFail : bool) (itemIndex : nat),
    let this := fun server => mkContext server credentials continueOnFail in
    (forall xs fields sent,
        assoc "items" fields = Some (JArr xs) ->
        itemsOf (JObj fields) sent = itemsOf (JArr xs) sent
        /\ itemsOf (JArr xs) sent = (Returned (JArr xs), sent)
        /\ forall ceiling,
            extractPage ceiling (JObj fields) sent
            = extractPage ceiling (JArr xs) sent)
    /\
    (forall fields sent,
        assoc "items" fields = None ->
        itemsOf (JObj fields) sent = (Returned (JArr []), sent))
    /\
    (forall server fuel category options limit,
        single_fetch_contract server
          (Files.executeFileGetMany fuel (this server) itemIndex category false
             options limit)
          (Files.getMany_requestOptions (getBaseUrl credentials) category
             (Files.getMany_single_qs options limit)))
    /\
    (forall server fuel p,
        Storage.returnAll p = false -> Storage.aggregate p = false ->
        single_fetch_contract server
          (Storage.executeRecordGetMany fuel (this server) p itemIndex)
          (Storage.recordGetMany_requestOptions (getBaseUrl credentials)
             (Storage.category p)
             (Storage.recordGetMany_single_qs (Storage.additionalFields p)
                (Storage.page p) (Storage.limit p) false))
        /\
        single_fetch_contract server
          (Storage.executeCategoryGetMany fuel (this server) p itemIndex)
          (Storage.categoryGetMany_requestOptions (getBaseUrl credentials)
             [("page", QNum (Storage.page p)); ("limit", QNum (Storage.limit p))]))
    /\
    (forall server fuel category additionalFields limit,
        single_fetch_contract server
          (StorageLocal.executeRecordGetMany fuel (this server) itemIndex category
             false additionalFields limit)
          (StorageLocal.recordGetMany_requestOptions category
             (StorageLocal.recordGetMany_qs additionalFields 1 limit)))
    /\
    (forall category options limit,
        shape_independent
          (fun server fuel =>
             Files.executeFileGetMany fuel (this server) itemIndex category true
               options limit)
          (fun offset =>
             Files.getMany_requestOptions (getBaseUrl credentials) category
               (Files.getMany_page_qs options offset))
          (match Files.offset options with Some n => n | None => 0 end) 1000)
    /\
    (forall p,
        Storage.returnAll p = true ->
        shape_independent
          (fun server fuel => Storage.executeRecordGetMany fuel (this server) p itemIndex)
          (fun page =>
             Storage.recordGetMany_requestOptions (getBaseUrl credentials)
               (Storage.category p)
               (Storage.recordGetMany_page_qs (Storage.additionalFields p) page))
          1 1
        /\
        shape_independent
          (fun server fuel =>
             Storage.executeCategoryGetMany fuel (this server) p itemIndex)
          (fun page =>
             Storage.categoryGetMany_requestOptions (getBaseUrl credentials)
               [("page", QNum page); ("limit", QNum 1000)])
          1 1)
    /\
    (forall category additionalFields limit,
        shape_independent
          (fun server fuel =>
             StorageLocal.executeRecordGetMany fuel (this server) itemIndex category
               true additionalFields limit)
          (fun page =>
             StorageLocal.recordGetMany_requestOptions category
               (StorageLocal.recordGetMany_qs additionalFields page 1000))
          1 1)
    /\
    (forall server fuel p,
        Storage.returnAll p = false -> Storage.aggregate p = true ->
        let records :=
          Storage.recordGetMany_requestOptions (getBaseUrl credentials)
            (Storage.category p)
            (Storage.recordGetMany_single_qs (Storage.additionalFields p)
               (Storage.page p) (Storage.limit p) true) in
        let categories :=
          Storage.categoryGetMany_requestOptions (getBaseUrl credentials)
            [("page", QNum (Storage.page p)); ("limit", QNum (Storage.limit p));
             ("aggregate", QBool true)] in
        response_as_received server
          (Storage.executeRecordGetMany fuel (this server) p itemIndex) records
        /\ response_as_received server
             (Storage.executeCategoryGetMany fuel (this server) p itemIndex)
             categories
        /\ In ("aggregate", QBool true)
             (match qs records with Some q => q | None => [] end)
        /\ qs categories
           = Some [("page", QNum (Storage.page p));
                   ("limit", QNum (Storage.limit p));
                   ("aggregate", QBool true)]).
Proof.
  intros credentials continueOnFail itemIndex this.
  split; [|split; [|split; [|split; [|split; [|split; [|split; [|split]]]]]]].
  - intros xs fields sent H. simpl. unfold extractPage. simpl. rewrite H.
    repeat split; reflexivity.
  - intros fields sent H. simpl. rewrite H. reflexivity.
  - intros server fuel category options limit.
    unfold Files.executeFileGetMany. apply single_fetch_run.
  - intros server fuel p Hall Hagg. split.
    + unfold Storage.executeRecordGetMany. rewrite Hall, Hagg.
      apply single_fetch_run.
    + unfold Storage.executeCategoryGetMany. rewrite Hall, Hagg.
      apply single_fetch_run.
  - intros server fuel category additionalFields limit.
    unfold StorageLocal.executeRecordGetMany. apply single_fetch_run.
  - intros category options limit.
    eapply contract_shape_independent. intros server.
    apply (Files_collector_contract (this server)).
  - intros p Hall. destruct (Storage.aggregate p) eqn:Hagg; split;
      eapply contract_shape_independent; intros server.
    + apply (Storage_record_aggregate_contract (this server)); assumption.
    + apply (Storage_category_aggregate_contract (this server)); assumption.
    + apply (Storage_collector_contract (this server)); assumption.
    + apply (Storage_category_collector_contract (this server)); assumption.
  - intros category additionalFields limit.
    eapply contract_shape_independent. intros server.
    apply (StorageLocal_collector_contract (this server)).
  - intros server fuel p Hall Hagg records categories.
    subst records categories. split; [|split; [|split]].
    + intros response sent Hs.
      unfold Storage.executeRecordGetMany. rewrite Hall, Hagg.
      unfold try_catch, bind, httpRequestWithAuthentication, httpRequest.
      cbn [helpers getCredentials this]. rewrite Hs. reflexivity.
    + intros response sent Hs.
      unfold Storage.executeCategoryGetMany. rewrite Hall, Hagg.
      unfold try_catch, bind, httpRequestWithAuthentication, httpRequest.
      cbn [helpers getCredentials this app]. rewrite Hs. reflexivity.
    + unfold Storage.recordGetMany_requestOptions, Storage.request,
        Storage.recordGetMany_single_qs. cbn [qs].
      apply in_or_app. right. apply in_or_app. right. apply in_or_app. right.
      left. reflexivity.
    + reflexivity.
Qed.

(** C7 as stated fails on the Storage node's single bounded fetch with
    Aggregate on: a bare array comes back as the array, a wrapper around the
    same items comes back as the wrapper. *)
Lemma aggregate_single_fetch_keeps_shape :
  let p := Storage.mkParameters "record" "getMany" "notes" EmptyString
             (Storage.mkAdditionalFields None None None None None)
             false true 50 1 "json" JNull None in
  let this := fun response =>
    mkContext (scripted [Resolve response])
      (mkCredentials "secret" None) false in
  let item := JObj [("key", JStr "a")] in
  let bare := JArr [item] in
  let wrapped := JObj [("items", JArr [item]); ("totalCount", JNum 1)] in
  listResponse bare [item] /\ listResponse wrapped [item] /\
  fst (Storage.executeRecordGetMany 1 (this bare) p 0 []) = Returned bare /\
  fst (Storage.executeRecordGetMany 1 (this wrapped) p 0 []) = Returned wrapped /\
  fst (Storage.executeRecordGetMany 1 (this bare) p 0 [])
  <> fst (Storage.executeRecordGetMany 1 (this wrapped) p 0 []).
Proof.
  cbv zeta. split; [constructor|]. split; [constructor; reflexivity|].
  split; [vm_compute; reflexivity|]. split; [vm_compute; reflexivity|].
  vm_compute. discriminate.
Qed.

(** ** Return All with Aggregate in the Storage node *)

(** C10.  In the Storage node, with Return All and Aggregate both on, record
    getMany and category getMany return one wrapper object built by the node
    from the collected items, whatever wrappers the server sent: its [items]
    is the concatenation of all pages, [totalCount] and [pageSize] are the
    length of that list, [page] is 1 and [totalPages] is 1, however many page
    requests were sent (one per page). *)
Theorem return_all_aggregate_wrapper :
  forall (this : IExecuteFunctions) (itemIndex : nat) (p : Storage.Parameters),
    Storage.returnAll p = true -> Storage.aggregate p = true ->
    collector_contract_with (synthesized [("category", JStr (Storage.category p))])
      (helpers this)
      (fun fuel => Storage.executeRecordGetMany fuel this p itemIndex)
      (fun page =>
         Storage.recordGetMany_requestOptions (getBaseUrl (getCredentials this))
           (Storage.category p)
           (Storage.recordGetMany_page_qs (Storage.additionalFields p) page))
      1 1
    /\
    collector_contract_with (synthesized []) (helpers this)
      (fun fuel => Storage.executeCategoryGetMany fuel this p itemIndex)
      (fun page =>
         Storage.categoryGetMany_requestOptions (getBaseUrl (getCredentials this))
           [("page", QNum page); ("limit", QNum 1000)])
      1 1
    /\
    (forall (allItems : list Json) (head : list (string * Json)),
        head = [] \/ head = [("category", JStr (Storage.category p))] ->
        exists fields,
          synthesized head allItems = JObj fields
          /\ assoc "items" fields = Some (JArr allItems)
          /\ assoc "totalCount" fields = Some (JNum (Z.of_nat (List.length allItems)))
          /\ assoc "pageSize" fields = Some (JNum (Z.of_nat (List.length allItems)))
          /\ assoc "page" fields = Some (JNum 1)
          /\ assoc "totalPages" fields = Some (JNum 1)).
Proof.
  intros this itemIndex p Hall Hagg. split; [|split].
  - apply Storage_record_aggregate_contract; assumption.
  - apply Storage_category_aggregate_contract; assumption.
  - intros allItems head [-> | ->]; eexists; (split; [reflexivity|]);
      repeat split; reflexivity.
Qed.

(** ** The item loop *)

Ltac driver_step IH := apply bind_ext; intros; apply IH.

Lemma Files_execute_loop_item_loop (fuel : nat) (this : IExecuteFunctions)
    (host : Host) (params : nat -> Files.Parameters) (resource operation : string)
    (remaining : nat) :
  forall (itemIndex : nat) (returnData : list Json) (sent : list Request),
    Files.execute_loop fuel this host params resource operation remaining itemIndex
      returnData sent
    = item_loop (continueOnFail this)
        (Files.responseDataOf fuel this host params resource operation)
        Files.outputsOf remaining itemIndex returnData sent.
Proof.
  induction remaining as [|remaining IH]; intros itemIndex returnData sent;
    [reflexivity|].
  cbn [Files.execute_loop item_loop]. driver_step IH.
Qed.

Lemma Convert_execute_loop_item_loop (this : IExecuteFunctions) (host : Host)
    (params : nat -> Convert.Parameters) (operation : string) (remaining : nat) :
  forall (itemIndex : nat) (returnData : list Json) (sent : list Request),
    Convert.execute_loop this host params operation remaining itemIndex
      returnData sent
    = item_loop (continueOnFail this)
        (Convert.responseDataOf this host params operation)
        (fun responseData itemIndex =>
           [JObj [("json", responseData); pairedItem itemIndex]])
        remaining itemIndex returnData sent.
Proof.
  induction remaining as [|remaining IH]; intros itemIndex returnData sent;
    [reflexivity|].
  cbn [Convert.execute_loop item_loop]. driver_step IH.
Qed.

Lemma Storage_execute_loop_item_loop (fuel : nat) (this : IExecuteFunctions)
    (JSON_parse : string -> option Json) (params : nat -> Storage.Parameters)
    (resource operation : string) (remaining : nat) :
  forall (itemIndex : nat) (returnData : list Json) (sent : list Request),
    Storage.execute_loop fuel this JSON_parse params resource operation remaining
      itemIndex returnData sent
    = item_loop (continueOnFail this)
        (Storage.responseDataOf fuel this JSON_parse params resource operation)
        Storage.outputsOf remaining itemIndex returnData sent.
Proof.
  induction remaining as [|remaining IH]; intros itemIndex returnData sent;
    [reflexivity|].
  cbn [Storage.execute_loop item_loop]. driver_step IH.
Qed.

(** One successful item appends its entries and goes on. *)
Lemma item_loop_returned (cof : bool) (process : nat -> M Json)
    (outputs : Json -> nat -> list Json) (remaining itemIndex : nat)
    (returnData : list Json) (sent sent' : list Request) (r : Json) :
  process itemIndex sent = (Returned r, sent') ->
  item_loop cof process outputs (S remaining) itemIndex returnData sent
  = item_loop cof process outputs remaining (S itemIndex)
      (returnData ++ outputs r itemIndex) sent'.
Proof.
  intros H. cbn [item_loop]. unfold bind at 1, try_catch, bind.
  rewrite H. reflexivity.
Qed.

(** One failed item under continue-on-fail appends an error entry and goes
    on. *)
Lemma item_loop_thrown_continue (process : nat -> M Json)
    (outputs : Json -> nat -> list Json) (remaining itemIndex : nat)
    (returnData : list Json) (sent sent' : list Request) (e : Exn) :
  process itemIndex sent = (Thrown e, sent') ->
  item_loop true process outputs (S remaining) itemIndex returnData sent
  = item_loop true process outputs remaining (S itemIndex)
      (returnData ++ [errorEntry e itemIndex]) sent'.
Proof.
  intros H. cbn [item_loop]. unfold bind at 1, try_catch, bind.
  rewrite H. reflexivity.
Qed.

(** One failed item without continue-on-fail ends the loop. *)
Lemma item_loop_thrown_stop (process : nat -> M Json)
    (outputs : Json -> nat -> list Json) (remaining itemIndex : nat)
    (returnData : list Json) (sent sent' : list Request) (e : Exn) :
  process itemIndex sent = (Thrown e, sent') ->
  item_loop false process outputs (S remaining) itemIndex returnData sent
  = (Thrown (rethrow e itemIndex), sent').
Proof.
  intros H. cbn [item_loop]. unfold bind at 1, try_catch, bind.
  rewrite H. reflexivity.
Qed.

(** A driver built on [item_loop] keeps the contract when a single-object
    result contributes exactly its own entry. *)
Lemma item_loop_contract (cof : bool) (process : nat -> M Json)
    (outputs : Json -> nat -> list Json)
    (execute : list Json -> M (list (list Json))) :
  (forall items sent,
      execute items sent
      = bind (item_loop cof process outputs (List.length items) O [])
          (fun returnData => ret [returnData]) sent) ->
  (forall r i, single_object r -> outputs r i = [entry r (Z.of_nat i)]) ->
  driver_contract cof process execute.
Proof.
  intros Hexec Hout items sent0 sent1 sent2 r0 e Hlen H0 S0 H1. split.
  - intros ->. rewrite Hexec, Hlen. unfold bind.
    rewrite (item_loop_returned _ _ _ _ _ _ _ _ _ H0).
    rewrite (item_loop_thrown_stop _ _ _ _ _ _ _ _ H1). reflexivity.
  - intros -> r2 sent3 H2 S2. rewrite Hexec, Hlen. unfold bind.
    rewrite (item_loop_returned _ _ _ _ _ _ _ _ _ H0).
    rewrite (item_loop_thrown_continue _ _ _ _ _ _ _ _ H1).
    rewrite (item_loop_returned _ _ _ _ _ _ _ _ _ H2).
    rewrite (Hout r0 O S0), (Hout r2 2%nat S2). reflexivity.
Qed.

Lemma Files_outputsOf_single (r : Json) (i : nat) :
  single_object r -> Files.outputsOf r i = [entry r (Z.of_nat i)].
Proof. intros (fields & -> & H). simpl. rewrite H. reflexivity. Qed.

Lemma Storage_outputsOf_single (r : Json) (i : nat) :
  single_object r -> Storage.outputsOf r i = [entry r (Z.of_nat i)].
Proof. intros (fields & -> & H). reflexivity. Qed.

(** C6.  The drivers of the three nodes keep the driver contract: given three
    input items of which the second (index 1) throws while the first and third
    succeed with single-object results, with continue-on-fail on the output
    holds exactly three entries in item order, the second an error record
    (a json object with an error property) paired with item 1, and all three
    items are processed; with continue-on-fail off the loop stops at the
    second item by raising its error again (a node error unchanged), the third
    item is not processed and no entry is returned. *)
Theorem item_loop_driver :
  forall (this : IExecuteFunctions) (host : Host) (fuel : nat),
    (forall params,
        driver_contract (continueOnFail this)
          (Files.responseDataOf fuel this host params
             (Files.resource (params O)) (Files.operation (params O)))
          (Files.execute fuel this host params))
    /\
    (forall params,
        driver_contract (continueOnFail this)
          (Convert.responseDataOf this host params (Convert.operation (params O)))
          (Convert.execute this host params))
    /\
    (forall JSON_parse params,
        driver_contract (continueOnFail this)
          (Storage.responseDataOf fuel this JSON_parse params
             (Storage.resource (params O)) (Storage.operation (params O)))
          (Storage.execute fuel this JSON_parse params))
    /\
    (forall (a : NodeApiError) (o : NodeOperationError) (i : nat),
        rethrow (ApiExn a) i = ApiExn a
        /\ rethrow (OperationExn o) i = OperationExn o).
Proof.
  intros this host fuel. split; [|split; [|split]].
  - intros params. apply item_loop_contract with (outputs := Files.outputsOf).
    + intros items sent. unfold Files.execute, bind.
      rewrite Files_execute_loop_item_loop. reflexivity.
    + apply Files_outputsOf_single.
  - intros params.
    apply item_loop_contract
      with (outputs := fun responseData itemIndex =>
                         [JObj [("json", responseData); pairedItem itemIndex]]).
    + intros items sent. unfold Convert.execute, bind.
      rewrite Convert_execute_loop_item_loop. reflexivity.
    + intros r i _. reflexivity.
  - intros JSON_parse params.
    apply item_loop_contract with (outputs := Storage.outputsOf).
    + intros items sent. unfold Storage.execute, bind.
      rewrite Storage_execute_loop_item_loop. reflexivity.
    + apply Storage_outputsOf_single.
  - intros a o i. split; reflexivity.
Qed.

(** ** Timeouts *)

(** C8, as amended.  No ordinary request descriptor sets a timeout; every
    upload-class descriptor (binary upload, URL upload, convert submission by
    URL or by file) carries the ten-minute timeout of 600000 ms; the file
    download descriptor sets no timeout. *)
Theorem request_timeouts :
  forall (class : RequestClass) (r : Request),
    builds class r ->
    timeout r = match class with
                | Ordinary => None
                | UploadClass => Some 600000
                | DownloadClass => None
                end.
Proof.
  intros class r H. destruct H; reflexivity.
Qed.

(** C8 as stated fails on the file download: its descriptor is
    download-class and carries no timeout. *)
Lemma download_has_no_timeout :
  let r := Files.executeDownload_requestOptions "https://api.ainoflow.io"
             "invoices" "2024/01.pdf" in
  builds DownloadClass r /\ timeout r = None /\ timeout r <> Some 600000.
Proof.
  cbv zeta. split; [constructor|]. split; [reflexivity|]. discriminate.
Qed.

(** ** Path segments *)

Lemma encode_char_decode (c : ascii) (rest : string) :
  decodeURIComponent
    ((if unreserved c then String c EmptyString else percentEncode c) +++ rest)
  = String c (decodeURIComponent rest).
Proof.
  destruct c as [[] [] [] [] [] [] [] []]; reflexivity.
Qed.

Lemma decode_encode (s : string) : decodeURIComponent (encodeURIComponent s) = s.
Proof.
  induction s as [|c s IH]; [reflexivity|].
  cbn [encodeURIComponent]. rewrite encode_char_decode, IH. reflexivity.
Qed.

Lemma encodeURIComponent_injective (s1 s2 : string) :
  encodeURIComponent s1 = encodeURIComponent s2 -> s1 = s2.
Proof.
  intros H. rewrite <- (decode_encode s1), <- (decode_encode s2), H. reflexivity.
Qed.

Lemma occurs_append (c : ascii) (a b : string) :
  occurs c (a +++ b) <-> occurs c a \/ occurs c b.
Proof.
  induction a as [|x a IH]; simpl.
  - tauto.
  - rewrite IH. tauto.
Qed.

(** Every character [encodeURIComponent] emits is unreserved or the percent
    sign. *)
Lemma encode_char_safe (c x : ascii) :
  occurs x (if unreserved c then String c EmptyString else percentEncode c) ->
  unreserved x = true \/ x = "%"%char.
Proof.
  destruct c as [[] [] [] [] [] [] [] []]; simpl;
    intuition (subst; auto).
Qed.

Lemma encode_safe (s : string) (x : ascii) :
  occurs x (encodeURIComponent s) -> unreserved x = true \/ x = "%"%char.
Proof.
  induction s as [|c s IH]; simpl; [tauto|].
  rewrite occurs_append. intros [H | H].
  - exact (encode_char_safe c x H).
  - exact (IH H).
Qed.

Lemma encode_no_separator (s : string) (x : ascii) :
  occurs x (encodeURIComponent s) ->
  x <> "/"%char /\ x <> "?"%char /\ x <> "#"%char /\ ~ whitespace x.
Proof.
  intros H. apply encode_safe in H.
  repeat split; try (intros ->; destruct H as [H | H]; discriminate H).
  unfold whitespace. simpl.
  intros [E | [E | [E | [E | [E | [E | []]]]]]]; subst x;
    destruct H as [H | H]; discriminate H.
Qed.

Lemma append_cancel_l (p a b : string) : p +++ a = p +++ b -> a = b.
Proof.
  induction p as [|c p IH]; simpl; intros H; [exact H|].
  injection H as H. exact (IH H).
Qed.

(** A string splits at its first slash in one way only. *)
Lemma split_at_slash (a1 a2 b1 b2 : string) :
  ~ occurs "/" a1 -> ~ occurs "/" a2 ->
  a1 +++ String "/" b1 = a2 +++ String "/" b2 ->
  a1 = a2 /\ b1 = b2.
Proof.
  revert a2. induction a1 as [|x a1 IH]; intros a2 H1 H2 E.
  - destruct a2 as [|y a2]; simpl in E.
    + injection E as E. split; [reflexivity | exact E].
    + injection E as E _. exfalso. apply H2. left. exact E.
  - destruct a2 as [|y a2]; simpl in E.
    + injection E as E _. exfalso. apply H1. left. symmetry. exact E.
    + injection E as Exy E. subst y.
      destruct (IH a2) as [Ea Eb].
      * intros H. apply H1. right. exact H.
      * intros H. apply H2. right. exact H.
      * exact E.
      * subst a2. split; [reflexivity | exact Eb].
Qed.

Lemma encode_no_slash (s : string) : ~ occurs "/" (encodeURIComponent s).
Proof.
  intros H. apply encode_no_separator in H. destruct H as [H _]. apply H. reflexivity.
Qed.

(** Two encoded segments under a common prefix determine the segments. *)
Lemma two_segments_injective (base c1 k1 c2 k2 : string) :
  base +++ "/" +++ encodeURIComponent c1 +++ "/" +++ encodeURIComponent k1
  = base +++ "/" +++ encodeURIComponent c2 +++ "/" +++ encodeURIComponent k2 ->
  c1 = c2 /\ k1 = k2.
Proof.
  intros H. apply append_cancel_l in H. simpl in H. injection H as H.
  apply split_at_slash in H; try apply encode_no_slash.
  destruct H as [Hc Hk].
  split; apply encodeURIComponent_injective; assumption.
Qed.

(** The same with a fixed suffix after the second segment. *)
Lemma two_segments_suffix_injective (base suffix c1 k1 c2 k2 : string) :
  (base +++ "/" +++ encodeURIComponent c1 +++ "/" +++ encodeURIComponent k1)
    +++ String "/" suffix
  = (base +++ "/" +++ encodeURIComponent c2 +++ "/" +++ encodeURIComponent k2)
    +++ String "/" suffix ->
  c1 = c2 /\ k1 = k2.
Proof.
  intros H. rewrite !string_append_assoc in H.
  apply append_cancel_l in H. simpl in H. injection H as H.
  apply split_at_slash in H; try apply encode_no_slash.
  destruct H as [Hc H].
  apply split_at_slash in H; try apply encode_no_slash.
  destruct H as [Hk _].
  split; apply encodeURIComponent_injective; assumption.
Qed.

(** One segment, optionally followed by a second. *)
Lemma optional_segment_injective (base c1 c2 : string) (o1 o2 : option string) :
  (let url := base +++ "/" +++ encodeURIComponent c1 in
   match o1 with
   | Some k => if nonempty k then url +++ "/" +++ encodeURIComponent k else url
   | None => url
   end)
  = (let url := base +++ "/" +++ encodeURIComponent c2 in
     match o2 with
     | Some k => if nonempty k then url +++ "/" +++ encodeURIComponent k else url
     | None => url
     end) ->
  c1 = c2 /\ suppliedKey o1 = suppliedKey o2.
Proof.
  assert (Hplain : forall a b,
             base +++ "/" +++ encodeURIComponent a
             = base +++ "/" +++ encodeURIComponent b -> a = b).
  { intros a b H. apply append_cancel_l in H. simpl in H. injection H as H.
    apply encodeURIComponent_injective. exact H. }
  assert (Hmixed : forall a b k,
             base +++ "/" +++ encodeURIComponent a
             = (base +++ "/" +++ encodeURIComponent b)
                 +++ "/" +++ encodeURIComponent k -> False).
  { intros a b k H. rewrite !string_append_assoc in H.
    apply append_cancel_l in H. simpl in H. injection H as H.
    apply (encode_no_slash a). rewrite H, occurs_append. right. left. reflexivity. }
  assert (Hboth : forall a b k l,
             (base +++ "/" +++ encodeURIComponent a) +++ "/" +++ encodeURIComponent k
             = (base +++ "/" +++ encodeURIComponent b)
                 +++ "/" +++ encodeURIComponent l -> a = b /\ k = l).
  { intros a b k l H. rewrite !string_append_assoc in H.
    apply two_segments_injective in H. exact H. }
  cbv zeta. unfold suppliedKey.
  destruct o1 as [k1|], o2 as [k2|];
    try destruct (nonempty k1); try destruct (nonempty k2); intros H;
    try (split; [exact (Hplain _ _ H) | reflexivity]);
    try (exfalso; exact (Hmixed _ _ _ H));
    try (exfalso; symmetry in H; exact (Hmixed _ _ _ H)).
  destruct (Hboth _ _ _ _ H) as [-> ->]. split; reflexivity.
Qed.

Lemma optional_segment_shape (base category : string) (key : option string) :
  (let url := base +++ "/" +++ encodeURIComponent category in
   match key with
   | Some k => if nonempty k then url +++ "/" +++ encodeURIComponent k else url
   | None => url
   end)
  = segmentOpt base category key.
Proof.
  cbv zeta. unfold segmentOpt, suppliedKey, segment1, segment2.
  destruct key as [k|]; [|reflexivity].
  destruct (nonempty k); [|reflexivity].
  rewrite !string_append_assoc. reflexivity.
Qed.

(** C9.  In every operation of the three nodes the category, key and job id
    enter the request path through [encodeURIComponent] only; an encoded
    segment holds no slash, question mark, hash sign or whitespace character;
    and the paths of two distinct (category, key) pairs differ, also under
    the meta and url suffixes and, for the create operations, with the key
    counted as supplied when it is present and not empty. *)
Theorem path_segments_encoded :
  (forall baseURL category key expirySeconds options qs,
      Files.executeCreate_url category options
      = segmentOpt "/api/v1/files" category (Files.key options)
      /\ Files.executeCreateOrReplace_url category key
         = segment2 "/api/v1/files" category key
      /\ url (Files.executeDownload_requestOptions baseURL category key)
         = segment2 "/api/v1/files" category key
      /\ url (Files.executeDelete_requestOptions baseURL category key)
         = segment2 "/api/v1/files" category key
      /\ url (Files.executeGetMetadata_requestOptions baseURL category key)
         = segment2 "/api/v1/files" category key +++ "/meta"
      /\ url (Files.executeGetUrl_requestOptions baseURL category key expirySeconds)
         = segment2 "/api/v1/files" category key +++ "/url"
      /\ url (Files.getMany_requestOptions baseURL category qs)
         = segment1 "/api/v1/files" category)
  /\
  (forall baseURL jobId,
      url (Convert.executeGetResult_requestOptions baseURL jobId)
      = segment1 "/api/v1/convert/jobs" jobId)
  /\
  (forall baseURL category key additionalFields data qs,
      url (Storage.executeCreate_requestOptions baseURL category additionalFields data)
      = segmentOpt "/api/v1/storage/json" category (Storage.key additionalFields)
      /\ url (Storage.executeCreateOrReplace_requestOptions baseURL category key
                additionalFields data)
         = segment2 "/api/v1/storage/json" category key
      /\ url (Storage.executeUpdate_requestOptions baseURL category key data)
         = segment2 "/api/v1/storage/json" category key
      /\ url (Storage.executeGet_requestOptions baseURL category key)
         = segment2 "/api/v1/storage/json" category key
      /\ url (Storage.executeDelete_requestOptions baseURL category key)
         = segment2 "/api/v1/storage/json" category key
      /\ url (Storage.executeGetMetadata_requestOptions baseURL category key)
         = segment2 "/api/v1/storage/json" category key +++ "/meta"
      /\ url (Storage.recordGetMany_requestOptions baseURL category qs)
         = segment1 "/api/v1/storage/json" category)
  /\
  (forall category key additionalFields data qs,
      url (StorageLocal.executeCreate_requestOptions category additionalFields data)
      = segmentOpt "/api/v1/storage/json" category (Storage.key additionalFields)
      /\ url (StorageLocal.executeCreateOrReplace_requestOptions category key
                additionalFields data)
         = segment2 "/api/v1/storage/json" category key
      /\ url (StorageLocal.executeUpdate_requestOptions category key data)
         = segment2 "/api/v1/storage/json" category key
      /\ url (StorageLocal.executeGet_requestOptions category key)
         = segment2 "/api/v1/storage/json" category key
      /\ url (StorageLocal.executeDelete_requestOptions category key)
         = segment2 "/api/v1/storage/json" category key
      /\ url (StorageLocal.executeGetMetadata_requestOptions category key)
         = segment2 "/api/v1/storage/json" category key +++ "/meta"
      /\ url (StorageLocal.recordGetMany_requestOptions category qs)
         = segment1 "/api/v1/storage/json" category)
  /\
  (forall (segment : string) (c : ascii),
      occurs c (encodeURIComponent segment) ->
      c <> "/"%char /\ c <> "?"%char /\ c <> "#"%char /\ ~ whitespace c)
  /\
  (forall base category1 key1 category2 key2,
      (category1, key1) <> (category2, key2) ->
      segment2 base category1 key1 <> segment2 base category2 key2
      /\ forall suffix,
          segment2 base category1 key1 +++ String "/" suffix
          <> segment2 base category2 key2 +++ String "/" suffix)
  /\
  (forall base category1 key1 category2 key2,
      (category1, suppliedKey key1) <> (category2, suppliedKey key2) ->
      segmentOpt base category1 key1 <> segmentOpt base category2 key2).
Proof.
  split; [|split; [|split; [|split; [|split; [|split]]]]].
  - intros baseURL category key expirySeconds options qs.
    split; [apply optional_segment_shape|].
    repeat split; reflexivity.
  - intros baseURL jobId. reflexivity.
  - intros baseURL category key additionalFields data qs.
    split; [apply optional_segment_shape|].
    repeat split; reflexivity.
  - intros category key additionalFields data qs.
    split; [apply optional_segment_shape|].
    repeat split; reflexivity.
  - apply encode_no_separator.
  - intros base category1 key1 category2 key2 Hne. split.
    + intros H. apply two_segments_injective in H. destruct H as [-> ->].
      apply Hne. reflexivity.
    + intros suffix H. apply two_segments_suffix_injective in H.
      destruct H as [-> ->]. apply Hne. reflexivity.
  - intros base category1 key1 category2 key2 Hne H.
    rewrite <- !optional_segment_shape in H.
    apply optional_segment_injective in H. destruct H as [Hc Hk].
    apply Hne. rewrite Hc, Hk. reflexivity.
Qed.

(** ** Multipart bodies *)

Lemma Buffer_from_append (a b : string) :
  Buffer_from (a +++ b) = Buffer_from a ++ Buffer_from b.
Proof.
  unfold Buffer_from, list_byte_of_string.
  induction a as [|x a IH]; simpl; [reflexivity|].
  rewrite IH. reflexivity.
Qed.

(** The loop over the extra fields pushes one buffer per field with a value
    that is not empty, in order. *)
Lemma push_fields (boundary : string) (additionalFields : list (string * string)) :
  forall parts : list (list byte),
    fold_left
      (fun parts '(name, value) =>
         if nonempty value
         then parts ++ [Buffer_from (fieldPart boundary name value)]
         else parts)
      additionalFields parts
    = parts
      ++ map (fun field => Buffer_from (fieldPart boundary (fst field) (snd field)))
           (emitted additionalFields).
Proof.
  induction additionalFields as [|[name value] fields IH]; intros parts; simpl.
  - rewrite app_nil_r. reflexivity.
  - rewrite IH. destruct (nonempty value); simpl.
    + rewrite <- app_assoc. reflexivity.
    + reflexivity.
Qed.

(** A field part as the builders spell it is a rendered text part. *)
Lemma fieldPart_render (boundary name value : string) :
  Buffer_from (fieldPart boundary name value)
  = renderPart boundary (textPart (name, value)).
Proof.
  unfold fieldPart, renderPart, textPart.
  cbn [partName partFilename partContentType partPayload fst snd].
  rewrite !Buffer_from_append, <- !app_assoc. reflexivity.
Qed.

(** The file part as the builders spell it is a rendered file part. *)
Lemma filePreamble_render (boundary fileName mimeType : string) (payload : list byte) :
  Buffer_from (filePreambleOf boundary fileName mimeType)
  ++ payload ++ Buffer_from CRLF
  = renderPart boundary (filePart fileName mimeType payload).
Proof.
  unfold filePreambleOf, renderPart, filePart.
  cbn [partName partFilename partContentType partPayload].
  rewrite !Buffer_from_append, <- !app_assoc. reflexivity.
Qed.

Lemma buildMultipartBody_render (now : Z) (random36 : string)
    (fileBuffer : list byte) (fileName mimeType : string)
    (additionalFields : list (string * string)) :
  Files.buildMultipartBody now random36 fileBuffer fileName mimeType additionalFields
  = (render (newBoundary now random36)
       (filePart fileName mimeType fileBuffer
        :: map textPart (emitted additionalFields)),
     newBoundary now random36).
Proof.
  unfold Files.buildMultipartBody, Files.buildMultipartBody_parts, render.
  f_equal. rewrite push_fields.
  rewrite !concat_app. cbn [concat app map]. rewrite !app_nil_r.
  rewrite <- filePreamble_render, <- !app_assoc.
  do 3 f_equal. rewrite !map_map. f_equal. f_equal.
  apply map_ext. intros [name value]. apply fieldPart_render.
Qed.

Lemma buildUrlMultipartBody_render (now : Z) (random36 sourceUrl : string)
    (additionalFields : list (string * string)) :
  Files.buildUrlMultipartBody now random36 sourceUrl additionalFields
  = (render (newBoundary now random36)
       (textPart ("sourceUrl", sourceUrl)
        :: map textPart (emitted additionalFields)),
     newBoundary now random36).
Proof.
  unfold Files.buildUrlMultipartBody, Files.buildUrlMultipartBody_parts, render.
  f_equal. rewrite push_fields.
  rewrite !concat_app. cbn [concat app map]. rewrite !app_nil_r.
  rewrite fieldPart_render.
  do 2 f_equal. rewrite !map_map. f_equal.
  apply map_ext. intros [name value]. apply fieldPart_render.
Qed.

(** The string the convert submission accumulates field by field. *)
Lemma formFieldsBody_render (boundary : string) (formFields : list (string * string)) :
  forall formFieldsBody : string,
    Buffer_from
      (fold_left
         (fun formFieldsBody '(fieldName, fieldValue) =>
            formFieldsBody +++ fieldPart boundary fieldName fieldValue)
         formFields formFieldsBody)
    = Buffer_from formFieldsBody
      ++ concat (map (renderPart boundary) (map textPart formFields)).
Proof.
  induction formFields as [|[name value] fields IH]; intros acc; simpl.
  - rewrite app_nil_r. reflexivity.
  - rewrite IH, Buffer_from_append, fieldPart_render, <- app_assoc. reflexivity.
Qed.

Lemma submitViaBinary_bodyBuffer_render (boundary : string)
    (formFields : list (string * string)) (fileBuffer : list byte)
    (fileName mimeType : string) :
  Convert.submitViaBinary_bodyBuffer boundary formFields fileBuffer fileName mimeType
  = render boundary
      (map textPart formFields ++ [filePart fileName mimeType fileBuffer]).
Proof.
  unfold Convert.submitViaBinary_bodyBuffer, render.
  rewrite formFieldsBody_render. cbn [concat Buffer_from list_byte_of_string
    list_ascii_of_string map app].
  rewrite map_app, concat_app. cbn [map concat].
  rewrite <- filePreamble_render, Buffer_from_append, !app_nil_r, <- !app_assoc.
  reflexivity.
Qed.

Lemma emitted_all (additionalFields : list (string * string)) :
  Forall (fun field => snd field <> EmptyString) additionalFields ->
  emitted additionalFields = additionalFields.
Proof.
  intros H. unfold emitted. induction H as [|field fields Hf H IH]; simpl.
  - reflexivity.
  - apply nonempty_true in Hf. rewrite Hf, IH. reflexivity.
Qed.

(** C3.  For every file payload, filename and content type and all extra
    fields with values that are not empty, the body the builders produce is
    the rendering of their parts in insertion order: each part is the line
    of two dashes and the boundary, CRLF, a Content-Disposition form-data
    header with the quoted name (followed by the quoted filename and a
    Content-Type header line for the file part), a blank line, the payload
    bytes and CRLF; after the last part come two dashes, the boundary, two
    dashes and CRLF.  The file upload puts the file part first, the URL upload
    the sourceUrl field first, the convert submission the file part last. *)
Theorem multipart_body_format :
  forall (now : Z) (random36 : string) (fileBuffer : list byte)
         (fileName mimeType sourceUrl : string)
         (additionalFields : list (string * string)),
    Forall (fun field => snd field <> EmptyString) additionalFields ->
    let boundary := newBoundary now random36 in
    Files.buildMultipartBody now random36 fileBuffer fileName mimeType additionalFields
    = (render boundary
         (filePart fileName mimeType fileBuffer :: map textPart additionalFields),
       boundary)
    /\
    Files.buildUrlMultipartBody now random36 sourceUrl additionalFields
    = (render boundary
         (textPart ("sourceUrl", sourceUrl) :: map textPart additionalFields),
       boundary)
    /\
    Convert.submitViaBinary_bodyBuffer boundary additionalFields fileBuffer
      fileName mimeType
    = render boundary
        (map textPart additionalFields ++ [filePart fileName mimeType fileBuffer])
    /\
    (forall part : Part,
        exists headers : string,
          renderPart boundary part
          = Buffer_from ("--" +++ boundary +++ CRLF
                         +++ "Content-Disposition: form-data; name="
                         +++ DQUOTE +++ partName part +++ DQUOTE +++ headers
                         +++ CRLF +++ CRLF)
            ++ partPayload part ++ Buffer_from CRLF
          /\ headers
             = match partFilename part with
               | Some f => "; filename=" +++ DQUOTE +++ f +++ DQUOTE
               | None => EmptyString
               end
               +++ match partContentType part with
                   | Some t => CRLF +++ "Content-Type: " +++ t
                   | None => EmptyString
                   end).
Proof.
  intros now random36 fileBuffer fileName mimeType sourceUrl additionalFields H
    boundary.
  split; [|split; [|split]].
  - rewrite buildMultipartBody_render, (emitted_all _ H). reflexivity.
  - rewrite buildUrlMultipartBody_render, (emitted_all _ H). reflexivity.
  - apply submitViaBinary_bodyBuffer_render.
  - intros part.
    exists (match partFilename part with
            | Some f => "; filename=" +++ DQUOTE +++ f +++ DQUOTE
            | None => EmptyString
            end
            +++ match partContentType part with
                | Some t => CRLF +++ "Content-Type: " +++ t
                | None => EmptyString
                end).
    split; [|reflexivity].
    unfold renderPart.
    destruct (partFilename part) as [f|], (partContentType part) as [t|];
      rewrite !Buffer_from_append;
      change (Buffer_from EmptyString) with (@nil byte);
      rewrite <- ?app_assoc; cbn [app]; reflexivity.
Qed.

Lemma emitted_In (additionalFields : list (string * string)) (name value : string) :
  In (name, value) (emitted additionalFields) <->
  In (name, value) additionalFields /\ value <> EmptyString.
Proof.
  unfold emitted. rewrite filter_In. simpl. rewrite nonempty_true. tauto.
Qed.

Lemma emitted_idempotent (additionalFields : list (string * string)) :
  emitted (emitted additionalFields) = emitted additionalFields.
Proof.
  unfold emitted. induction additionalFields as [|field fields IH]; simpl.
  - reflexivity.
  - destruct (nonempty (snd field)) eqn:E; simpl; [rewrite E, IH|]; auto.
Qed.

(** In a record, a property has one value. *)
Lemma distinct_keys_one_value (l : list (string * string)) (k v1 v2 : string) :
  NoDup (map fst l) -> In (k, v1) l -> In (k, v2) l -> v1 = v2.
Proof.
  induction l as [|[k' v'] l IH]; simpl; intros Hnd H1 H2; [contradiction|].
  apply NoDup_cons_iff in Hnd as [Hnotin Hnd].
  destruct H1 as [E1 | H1], H2 as [E2 | H2].
  - congruence.
  - injection E1 as -> ->. exfalso. apply Hnotin.
    apply (in_map fst) in H2. exact H2.
  - injection E2 as -> ->. exfalso. apply Hnotin.
    apply (in_map fst) in H1. exact H1.
  - exact (IH Hnd H1 H2).
Qed.

Lemma Buffer_from_nonempty (s : string) : s <> EmptyString -> Buffer_from s <> [].
Proof.
  destruct s as [|c s]; [congruence|]. intros _. discriminate.
Qed.

(** C5.  Whatever extra fields a multipart builder is given, the body is the
    rendering of the leading part and of the fields with a value that is not
    empty: a field with an empty value contributes no part, so the body is the
    one built without it; no emitted field part has an empty payload; and, the
    field names being distinct as in a record, no emitted field part bears the
    name of a field with an empty value. *)
Theorem empty_fields_skipped :
  forall (now : Z) (random36 : string) (fileBuffer : list byte)
         (fileName mimeType sourceUrl : string)
         (additionalFields : list (string * string)),
    let boundary := newBoundary now random36 in
    let fieldParts := map textPart (emitted additionalFields) in
    Files.buildMultipartBody now random36 fileBuffer fileName mimeType additionalFields
    = (render boundary (filePart fileName mimeType fileBuffer :: fieldParts),
       boundary)
    /\
    Files.buildUrlMultipartBody now random36 sourceUrl additionalFields
    = (render boundary (textPart ("sourceUrl", sourceUrl) :: fieldParts), boundary)
    /\
    Files.buildMultipartBody now random36 fileBuffer fileName mimeType additionalFields
    = Files.buildMultipartBody now random36 fileBuffer fileName mimeType
        (emitted additionalFields)
    /\
    Files.buildUrlMultipartBody now random36 sourceUrl additionalFields
    = Files.buildUrlMultipartBody now random36 sourceUrl (emitted additionalFields)
    /\
    (forall name value,
        In (name, value) (emitted additionalFields) <->
        In (name, value) additionalFields /\ value <> EmptyString)
    /\
    Forall (fun part => partPayload part <> []) fieldParts
    /\
    (NoDup (map fst additionalFields) ->
     forall name,
       In (name, EmptyString) additionalFields ->
       ~ In name (map partName fieldParts)).
Proof.
  intros now random36 fileBuffer fileName mimeType sourceUrl additionalFields
    boundary fieldParts. subst boundary fieldParts.
  split; [apply buildMultipartBody_render|].
  split; [apply buildUrlMultipartBody_render|].
  split; [rewrite !buildMultipartBody_render, emitted_idempotent; reflexivity|].
  split; [rewrite !buildUrlMultipartBody_render, emitted_idempotent; reflexivity|].
  split; [apply emitted_In|].
  split.
  - apply Forall_forall. intros part Hin.
    apply in_map_iff in Hin as ([name value] & <- & Hin).
    apply emitted_In in Hin as [_ Hv]. simpl. apply Buffer_from_nonempty. exact Hv.
  - intros Hnd name Hempty Hin.
    rewrite map_map in Hin. apply in_map_iff in Hin as ([name' value] & E & Hin).
    simpl in E. subst name'.
    apply emitted_In in Hin as [Hin Hv]. apply Hv.
    exact (distinct_keys_one_value _ _ _ _ Hnd Hin Hempty).
Qed.

(** ** Reading a rendered body back *)

Lemma byte_eqb_refl (b : byte) : Byte.eqb b b = true.
Proof. apply byte_dec_lb. reflexivity. Qed.

Lemma byte_eqb_neq (a b : byte) : a <> b -> Byte.eqb a b = false.
Proof.
  intros H. destruct (Byte.eqb a b) eqn:E; [|reflexivity].
  apply byte_dec_bl in E. contradiction.
Qed.

Lemma stripPrefix_app (p rest : list byte) : stripPrefix p (p ++ rest) = Some rest.
Proof.
  induction p as [|x p IH]; simpl.
  - destruct rest; reflexivity.
  - rewrite byte_eqb_refl. exact IH.
Qed.

(** A prefix that fails on [a] still fails on [a] followed by a byte the
    prefix does not hold. *)
Lemma stripPrefix_none_extend (c : byte) (w : list byte) :
  forall (t a : list byte),
    stripPrefix t a = None -> ~ In c t -> stripPrefix t (a ++ c :: w) = None.
Proof.
  induction t as [|y t IH]; intros a H Hc.
  - destruct a; discriminate H.
  - destruct a as [|z a]; simpl in *.
    + rewrite byte_eqb_neq; [reflexivity|]. intros E. apply Hc. left. exact E.
    + destruct (Byte.eqb y z); [|reflexivity].
      apply IH; [exact H|]. intros Hin. apply Hc. right. exact Hin.
Qed.

(** The first occurrence of a needle that does not overlap itself: when the
    needle does not occur in [a], [a ++ needle ++ rest] splits into [a] and
    [rest]. *)
Lemma splitAt_first (c : byte) (t rest : list byte) :
  ~ In c t ->
  forall a : list byte,
    splitAt (c :: t) a = None ->
    splitAt (c :: t) (a ++ (c :: t) ++ rest) = Some (a, rest).
Proof.
  intros Hc. induction a as [|x a IH]; intros H.
  - cbn [app splitAt].
    change (c :: t ++ rest) with ((c :: t) ++ rest).
    rewrite stripPrefix_app. reflexivity.
  - cbn [splitAt] in H.
    destruct (stripPrefix (c :: t) (x :: a)) eqn:Hp; [discriminate H|].
    destruct (splitAt (c :: t) a) as [[b r]|] eqn:Hs; [discriminate H|].
    assert (Hn : stripPrefix (c :: t) ((x :: a) ++ (c :: t) ++ rest) = None).
    { simpl in Hp |- *. destruct (Byte.eqb c x); [|reflexivity].
      apply stripPrefix_none_extend; assumption. }
    change ((x :: a) ++ (c :: t) ++ rest) with (x :: (a ++ (c :: t) ++ rest)) in *.
    cbn [splitAt]. rewrite Hn, (IH eq_refl). reflexivity.
Qed.

(** A needle does not occur where its first byte does not. *)
Lemma splitAt_absent (c : byte) (t a : list byte) :
  Forall (fun b => b <> c) a -> splitAt (c :: t) a = None.
Proof.
  induction 1 as [|x a Hx H IH].
  - reflexivity.
  - cbn [splitAt]. simpl stripPrefix.
    rewrite (byte_eqb_neq c x) by congruence. rewrite IH. reflexivity.
Qed.

Lemma splitAt_line (c : byte) (t a rest : list byte) :
  ~ In c t -> Forall (fun b => b <> c) a ->
  splitAt (c :: t) (a ++ (c :: t) ++ rest) = Some (a, rest).
Proof.
  intros Hc Ha. apply splitAt_first; [exact Hc|].
  apply splitAt_absent. exact Ha.
Qed.

Lemma render_afterDash (boundary : string) (parts : list Part) :
  render boundary parts
  = Buffer_from ("--" +++ boundary) ++ afterDash boundary parts.
Proof.
  unfold render. induction parts as [|part parts IH].
  - cbn [map concat app afterDash fold_right].
    rewrite <- Buffer_from_append, string_append_assoc. reflexivity.
  - cbn [map concat afterDash fold_right]. rewrite <- app_assoc, IH.
    fold (afterDash boundary parts).
    unfold renderPart, headerLines, delimiterOf.
    destruct (partFilename part) as [f|], (partContentType part) as [t|];
      rewrite !Buffer_from_append;
      change (Buffer_from DQUOTE) with [DQ];
      change (Buffer_from CRLF) with [CR; LF];
      change (Buffer_from "Content-Type: ")
        with (Buffer_from "Content-Type:" ++ [" "%byte]);
      rewrite <- ?app_assoc; cbn [app]; rewrite <- ?app_assoc; reflexivity.
Qed.

Lemma forallb_neq (c : byte) (f : byte -> bool) (l : list byte) :
  (forall b, f b = true -> b <> c) -> forallb f l = true ->
  Forall (fun b => b <> c) l.
Proof.
  intros Hf H. rewrite forallb_forall in H. apply Forall_forall.
  intros b Hb. apply Hf, H, Hb.
Qed.

Lemma quotable_no (c : byte) (s : string) :
  c = DQ \/ c = CR \/ c = LF ->
  quotable s = true -> Forall (fun b => b <> c) (Buffer_from s).
Proof.
  intros Hc. apply forallb_neq. intros b Hb E. subst b.
  destruct Hc as [-> | [-> | ->]]; discriminate Hb.
Qed.

Lemma headerValue_noCR (s : string) :
  headerValue s = true -> Forall (fun b => b <> CR) (Buffer_from s).
Proof.
  unfold headerValue. rewrite andb_true_iff. intros [H _]. revert H.
  apply forallb_neq. intros b Hb E. subst b. discriminate Hb.
Qed.

Lemma trimLeft_head (b : byte) (l : list byte) :
  isOWS b = false -> trimLeft (b :: l) = b :: l.
Proof. intros H. simpl. rewrite H. reflexivity. Qed.

Lemma headerValue_trimmed (s : string) :
  headerValue s = true -> trimOWS (Buffer_from s) = Buffer_from s.
Proof.
  unfold headerValue. rewrite andb_true_iff. intros [_ H].
  destruct (Buffer_from s) as [|b l] eqn:E; [reflexivity|].
  rewrite andb_true_iff, !negb_true_iff in H. destruct H as [Hb Hl].
  unfold trimOWS. rewrite (trimLeft_head _ _ Hb).
  assert (Hne : b :: l <> []) by discriminate.
  rewrite (app_removelast_last b Hne) at 1 2.
  rewrite rev_app_distr. cbn [rev app].
  rewrite (trimLeft_head _ _ Hl).
  change (last (b :: l) b :: rev (removelast (b :: l)))
    with (rev [last (b :: l) b] ++ rev (removelast (b :: l))).
  rewrite <- rev_app_distr, rev_involutive, <- app_removelast_last by exact Hne.
  reflexivity.
Qed.

Lemma parseDisposition_rendered (name : string) (fileName : option string) :
  quotable name = true ->
  match fileName with Some f => quotable f | None => true end = true ->
  parseDisposition
    (Buffer_from ("Content-Disposition: form-data; name=" +++ DQUOTE)
     ++ Buffer_from name ++ [DQ]
     ++ match fileName with
        | Some f => Buffer_from ("; filename=" +++ DQUOTE) ++ Buffer_from f ++ [DQ]
        | None => []
        end)
  = Some (name, fileName).
Proof.
  intros Hn Hf. unfold parseDisposition.
  rewrite stripPrefix_app.
  rewrite (splitAt_line DQ [] (Buffer_from name)
             (match fileName with
              | Some f => Buffer_from ("; filename=" +++ DQUOTE) ++ Buffer_from f ++ [DQ]
              | None => []
              end))
    by (auto using quotable_no).
  destruct fileName as [f|].
  - remember (Buffer_from ("; filename=" +++ DQUOTE)) as prefix eqn:Ep.
    destruct (prefix ++ Buffer_from f ++ [DQ]) as [|y l] eqn:E.
    { subst prefix. discriminate E. }
    rewrite <- E, stripPrefix_app.
    assert (Hs : splitAt [DQ] (Buffer_from f ++ [DQ] ++ []) = Some (Buffer_from f, []))
      by (apply splitAt_line; auto using quotable_no).
    cbn [app] in Hs. rewrite Hs.
    unfold Buffer_from. rewrite !string_of_list_byte_of_string. reflexivity.
  - unfold Buffer_from. rewrite string_of_list_byte_of_string. reflexivity.
Qed.

Lemma parseContentType_rendered (t : string) :
  headerValue t = true ->
  parseContentType (Buffer_from "Content-Type:" ++ " "%byte :: Buffer_from t)
  = Some t.
Proof.
  intros H. unfold parseContentType. rewrite stripPrefix_app.
  change (trimOWS (" "%byte :: Buffer_from t)) with (trimOWS (Buffer_from t)).
  rewrite (headerValue_trimmed _ H).
  unfold Buffer_from. rewrite string_of_list_byte_of_string. reflexivity.
Qed.

Lemma noCR_Forall (l : list byte) :
  noCR l = true -> Forall (fun b => b <> CR) l.
Proof.
  apply forallb_neq. intros b Hb E. subst b. discriminate Hb.
Qed.

Lemma parseHeaders_rendered (part : Part) (rest : list byte) :
  quotable (partName part) = true ->
  match partFilename part with Some f => quotable f | None => true end = true ->
  match partContentType part with Some t => headerValue t | None => true end = true ->
  parseHeaders (headerLines part ++ rest)
  = Some (partName part, partFilename part, partContentType part, rest).
Proof.
  intros Hn Hf Ht. unfold parseHeaders, headerLines.
  set (line1 := Buffer_from ("Content-Disposition: form-data; name=" +++ DQUOTE)
                ++ Buffer_from (partName part) ++ [DQ]
                ++ match partFilename part with
                   | Some f =>
                       Buffer_from ("; filename=" +++ DQUOTE) ++ Buffer_from f ++ [DQ]
                   | None => []
                   end).
  assert (H1 : Forall (fun b => b <> CR) line1).
  { unfold line1. repeat (apply Forall_app; split).
    - apply noCR_Forall. reflexivity.
    - apply (quotable_no CR); auto.
    - apply noCR_Forall. reflexivity.
    - destruct (partFilename part) as [f|]; [|constructor].
      repeat (apply Forall_app; split).
      + apply noCR_Forall. reflexivity.
      + apply (quotable_no CR); auto.
      + apply noCR_Forall. reflexivity. }
  assert (Hblank : splitAt [CR; LF] (CR :: LF :: rest) = Some ([], rest)).
  { apply (splitAt_line CR [LF] [] rest); [|constructor].
    intros [E | []]; discriminate E. }
  rewrite <- !app_assoc.
  rewrite (splitAt_line CR [LF] line1) by (auto; intros [E | []]; discriminate E).
  unfold line1. rewrite (parseDisposition_rendered _ _ Hn Hf).
  destruct (partContentType part) as [t|].
  - set (line2 := Buffer_from "Content-Type:" ++ " "%byte :: Buffer_from t).
    assert (H2 : Forall (fun b => b <> CR) line2).
    { unfold line2. apply Forall_app. split.
      - apply noCR_Forall. reflexivity.
      - constructor; [discriminate|]. apply headerValue_noCR. exact Ht. }
    rewrite <- !app_assoc.
    rewrite (splitAt_line CR [LF] line2) by (auto; intros [E | []]; discriminate E).
    destruct line2 as [|y l] eqn:E2; [discriminate E2|].
    rewrite <- E2. unfold line2 in E2 |- *.
    rewrite (parseContentType_rendered _ Ht).
    cbn [app]. rewrite Hblank. reflexivity.
  - cbn [app]. rewrite Hblank. reflexivity.
Qed.

Lemma delimiterOf_bytes (boundary : string) :
  delimiterOf boundary = CR :: LF :: "-"%byte :: "-"%byte :: Buffer_from boundary.
Proof. reflexivity. Qed.

Lemma delimiter_tail_noCR (boundary : string) :
  noCR (Buffer_from boundary) = true ->
  ~ In CR (LF :: "-"%byte :: "-"%byte :: Buffer_from boundary).
Proof.
  intros H [E | [E | [E | Hin]]]; try discriminate E.
  apply noCR_Forall in H. rewrite Forall_forall in H.
  exact (H CR Hin eq_refl).
Qed.

Lemma delimiterFree_splitAt (boundary : string) (payload : list byte) :
  delimiterFree boundary payload = true ->
  splitAt (delimiterOf boundary) payload = None.
Proof.
  unfold delimiterFree.
  destruct (splitAt (delimiterOf boundary) payload); [discriminate | reflexivity].
Qed.

Lemma parseParts_rendered (boundary : string) (parts : list Part) :
  noCR (Buffer_from boundary) = true ->
  Forall (fun part => readable boundary part = true) parts ->
  forall fuel : nat,
    (List.length parts < fuel)%nat ->
    parseParts fuel (delimiterOf boundary) (afterDash boundary parts) = Some parts.
Proof.
  intros Hb H. induction H as [|part parts Hp H IH]; intros fuel Hfuel;
    (destruct fuel as [|fuel]; [simpl in Hfuel; lia|]).
  - reflexivity.
  - unfold readable in Hp. rewrite !andb_true_iff in Hp.
    destruct Hp as [[[Hn Hf] Ht] Hd].
    cbn [afterDash fold_right]. fold (afterDash boundary parts).
    cbn [parseParts app]. cbn [stripPrefix Buffer_from list_byte_of_string
      list_ascii_of_string map byte_of_ascii].
    change (Byte.eqb "-" CR) with false. cbv iota.
    rewrite !byte_eqb_refl.
    rewrite (parseHeaders_rendered part _ Hn Hf Ht).
    rewrite delimiterOf_bytes.
    rewrite (splitAt_first CR _ (afterDash boundary parts)
               (delimiter_tail_noCR _ Hb) (partPayload part))
      by (rewrite <- delimiterOf_bytes; apply delimiterFree_splitAt; exact Hd).
    rewrite <- delimiterOf_bytes.
    rewrite IH by (simpl in Hfuel; lia).
    destruct part; reflexivity.
Qed.

Lemma afterDash_length (boundary : string) (parts : list Part) :
  (List.length parts < List.length (afterDash boundary parts))%nat.
Proof.
  induction parts as [|part parts IH].
  - simpl. lia.
  - cbn [afterDash fold_right]. fold (afterDash boundary parts).
    rewrite !length_app. simpl List.length at 1 2. lia.
Qed.

(** The reader gives back the parts of a rendered body when the boundary
    holds no carriage return and every part is readable. *)
Lemma parseMultipart_render (boundary : string) (parts : list Part) :
  noCR (Buffer_from boundary) = true ->
  Forall (fun part => readable boundary part = true) parts ->
  parseMultipart boundary (render boundary parts) = Some parts.
Proof.
  intros Hb H. unfold parseMultipart.
  rewrite render_afterDash, stripPrefix_app.
  apply parseParts_rendered; [exact Hb | exact H |].
  rewrite length_app. pose proof (afterDash_length boundary parts). lia.
Qed.

Lemma noCR_app (a b : list byte) : noCR (a ++ b) = (noCR a && noCR b)%bool.
Proof. apply forallb_app. Qed.

Lemma toString_noCR (n : Z) : noCR (Buffer_from (toString n)) = true.
Proof.
  assert (H : forall d, noCR (Buffer_from (NilEmpty.string_of_uint d)) = true).
  { induction d; simpl; auto. }
  assert (H0 : forall d, noCR (Buffer_from (NilZero.string_of_uint d)) = true).
  { intros d. destruct d; try reflexivity; apply (H (_ d)). }
  unfold toString. destruct (Z.to_int n) as [d | d]; simpl.
  - apply H0.
  - apply H0.
Qed.

Lemma newBoundary_noCR (now : Z) (random36 : string) :
  noCR (Buffer_from random36) = true ->
  noCR (Buffer_from (newBoundary now random36)) = true.
Proof.
  intros H. unfold newBoundary.
  rewrite !Buffer_from_append, !noCR_app, toString_noCR, H. reflexivity.
Qed.

(** C4, as amended.  When the random suffix of the boundary holds no carriage
    return, the filename and the field names hold no double quote, carriage
    return or line feed, the content type holds no carriage return or line
    feed and no whitespace at either end, and the delimiter (CRLF, two dashes,
    the boundary) occurs neither in the file bytes nor in a field value, then
    reading the built body with the returned boundary yields the file part
    with the same bytes, filename and content type, followed by the extra
    fields with a value that is not empty, names and values unchanged and in
    order.  The file bytes may hold CR and LF freely otherwise. *)
Theorem multipart_round_trip :
  forall (now : Z) (random36 : string) (fileBuffer : list byte)
         (fileName mimeType : string) (additionalFields : list (string * string)),
    let built :=
      Files.buildMultipartBody now random36 fileBuffer fileName mimeType
        additionalFields in
    noCR (Buffer_from random36) = true ->
    quotable fileName = true ->
    headerValue mimeType = true ->
    delimiterFree (snd built) fileBuffer = true ->
    Forall (fun field =>
              quotable (fst field) = true
              /\ delimiterFree (snd built) (Buffer_from (snd field)) = true)
           additionalFields ->
    parseMultipart (snd built) (fst built)
    = Some (filePart fileName mimeType fileBuffer
            :: map textPart (emitted additionalFields)).
Proof.
  intros now random36 fileBuffer fileName mimeType additionalFields built
    Hr Hf Ht Hd Hfields.
  subst built. rewrite buildMultipartBody_render in *. cbn [fst snd] in *.
  apply parseMultipart_render.
  - apply newBoundary_noCR. exact Hr.
  - constructor.
    + unfold readable, filePart. cbn [partName partFilename partContentType
        partPayload]. rewrite Hf, Ht, Hd. reflexivity.
    + apply Forall_forall. intros part Hin.
      apply in_map_iff in Hin as ([name value] & <- & Hin).
      apply emitted_In in Hin as [Hin _].
      rewrite Forall_forall in Hfields. destruct (Hfields _ Hin) as [Hq Hv].
      unfold readable, textPart. cbn [partName partFilename partContentType
        partPayload fst snd] in *. rewrite Hq, Hv. reflexivity.
Qed.

(** C4 as stated fails.  Two different inputs are built into the same body
    with the same boundary (a content type that carries a blank line against
    file bytes that carry it), so no reader returns both; the reader above,
    given that body, returns the second input and not the first.  A filename
    with a double quote in it is not read back either. *)
Lemma multipart_round_trip_fails :
  let now := 1700000000000 in
  let random36 := "k3j9x" in
  let mimeA := "text/plain" +++ CRLF +++ CRLF +++ "AB" in
  let bytesA := Buffer_from "CD" in
  let mimeB := "text/plain" in
  let bytesB := Buffer_from ("AB" +++ CRLF +++ CRLF +++ "CD") in
  let builtA := Files.buildMultipartBody now random36 bytesA "a.txt" mimeA [] in
  let builtB := Files.buildMultipartBody now random36 bytesB "a.txt" mimeB [] in
  let quoted := "a" +++ DQUOTE +++ "b.txt" in
  let builtQ := Files.buildMultipartBody now random36 bytesA quoted mimeB [] in
  builtA = builtB
  /\ filePart "a.txt" mimeA bytesA <> filePart "a.txt" mimeB bytesB
  /\ (forall reader : string -> list byte -> option (list Part),
         ~ (reader (snd builtA) (fst builtA) = Some [filePart "a.txt" mimeA bytesA]
            /\ reader (snd builtB) (fst builtB) = Some [filePart "a.txt" mimeB bytesB]))
  /\ parseMultipart (snd builtA) (fst builtA) = Some [filePart "a.txt" mimeB bytesB]
  /\ parseMultipart (snd builtA) (fst builtA) <> Some [filePart "a.txt" mimeA bytesA]
  /\ parseMultipart (snd builtQ) (fst builtQ) <> Some [filePart quoted mimeB bytesA].
Proof.
  cbv zeta.
  assert (E : Files.buildMultipartBody 1700000000000 "k3j9x" (Buffer_from "CD") "a.txt"
                ("text/plain" +++ CRLF +++ CRLF +++ "AB") []
              = Files.buildMultipartBody 1700000000000 "k3j9x"
                  (Buffer_from ("AB" +++ CRLF +++ CRLF +++ "CD")) "a.txt"
                  "text/plain" []) by (vm_compute; reflexivity).
  split; [exact E|].
  split; [vm_compute; discriminate|].
  split.
  { intros reader [HA HB]. rewrite E in HA. rewrite HA in HB.
    revert HB. vm_compute. discriminate. }
  split; [vm_compute; reflexivity|].
  split; vm_compute; discriminate.
Qed.

(** ** The theorems at concrete inputs *)


(** A file listing of 2037 items in pages of 1000, 1000 and 37, the second
    page wrapped. *)
Lemma return_all_collector_witness :
  let item := JObj [("key", JStr "k")] in
  let this :=
    mkContext
      (scripted [Resolve (JArr (repeat item 1000));
                 Resolve (JObj [("items", JArr (repeat item 1000))]);
                 Resolve (JArr (repeat item 37))])
      (mkCredentials "secret" None) false in
  exists requests,
    Files.executeFileGetMany 3 this 0 "docs" true
      (Files.mkGetManyAdditionalFields None None None None None) 50 []
    = (Returned (JArr (repeat item 1000 ++ repeat item 1000 ++ repeat item 37)),
       requests)
    /\ List.length requests = 3%nat
    /\ List.length (repeat item 1000 ++ repeat item 1000 ++ repeat item 37)
       = 2037%nat.
Proof.
  cbv zeta.
  destruct (return_all_collector (mkCredentials "secret" None) false 0)
    as (_ & _ & _ & H & _).
  destruct (H "docs" (Files.mkGetManyAdditionalFields None None None None None) 50)
    as [H3 _].
  apply H3.
  - constructor.
  - constructor. reflexivity.
  - constructor.
  - reflexivity.
  - reflexivity.
  - reflexivity.
  - apply le_n.
Defined.

(** A file upload with one extra field. *)
Lemma multipart_body_format_witness :
  Files.buildMultipartBody 1700000000000 "k3j9x" (Buffer_from "CD") "a.txt"
    "text/plain" [("expiresAt", "2030-01-01T00:00:00Z")]
  = (render (newBoundary 1700000000000 "k3j9x")
       [filePart "a.txt" "text/plain" (Buffer_from "CD");
        textPart ("expiresAt", "2030-01-01T00:00:00Z")],
     newBoundary 1700000000000 "k3j9x").
Proof.
  refine (proj1 (multipart_body_format 1700000000000 "k3j9x" (Buffer_from "CD")
                   "a.txt" "text/plain" "https://example.com/a.txt"
                   [("expiresAt", "2030-01-01T00:00:00Z")] _)).
  constructor; [discriminate | constructor].
Defined.

(** File bytes with CR and LF in them, one field kept and one skipped. *)
Lemma multipart_round_trip_witness :
  let bytes := Buffer_from ("AB" +++ CRLF +++ CRLF +++ "--CD" +++ CRLF) in
  let fields := [("expiresAt", "2030-01-01T00:00:00Z"); ("note", EmptyString)] in
  let built :=
    Files.buildMultipartBody 1700000000000 "k3j9x" bytes "a.txt"
      "text/plain; charset=utf-8" fields in
  parseMultipart (snd built) (fst built)
  = Some (filePart "a.txt" "text/plain; charset=utf-8" bytes
          :: map textPart (emitted fields)).
Proof.
  cbv zeta.
  apply (multipart_round_trip 1700000000000 "k3j9x"
           (Buffer_from ("AB" +++ CRLF +++ CRLF +++ "--CD" +++ CRLF)) "a.txt"
           "text/plain; charset=utf-8"
           [("expiresAt", "2030-01-01T00:00:00Z"); ("note", EmptyString)]).
  - reflexivity.
  - reflexivity.
  - reflexivity.
  - vm_compute. reflexivity.
  - repeat constructor; vm_compute; reflexivity.
Defined.

(** An extra field with an empty value leaves no part behind. *)
Lemma empty_fields_skipped_witness :
  let fields := [("expiresAt", "2030-01-01T00:00:00Z"); ("note", EmptyString)] in
  ~ In "note" (map partName (map textPart (emitted fields))).
Proof.
  cbv zeta.
  destruct (empty_fields_skipped 1700000000000 "k3j9x" (Buffer_from "CD") "a.txt"
              "text/plain" "https://example.com/a.txt"
              [("expiresAt", "2030-01-01T00:00:00Z"); ("note", EmptyString)])
    as (_ & _ & _ & _ & _ & _ & H).
  apply H.
  - repeat constructor; simpl; intuition discriminate.
  - right. left. reflexivity.
Defined.

(** Three records to get, the second missing, with continue-on-fail on. *)
Lemma item_loop_driver_witness :
  let found := fun k => JObj [("key", JStr k)] in
  let missing := mkHttpError (Some 404) (Some "Request failed") (Some "No such key") in
  let this :=
    mkContext (scripted [Resolve (found "a"); Reject missing; Resolve (found "c")])
      (mkCredentials "secret" None) true in
  let params := fun i : nat =>
    Storage.mkParameters "record" "get" "notes"
      (match i with O => "a" | S O => "b" | _ => "c" end)
      (Storage.mkAdditionalFields None None None None None)
      false false 50 1 "json" JNull None in
  let e := ApiExn (handleApiError missing 1 "get record" EntRecord) in
  fst (Storage.execute 1 this (fun _ => None) params [JNull; JNull; JNull] [])
  = Returned [[entry (found "a") 0; error_record e 1; entry (found "c") 2]]
  /\ exn_message e = Some "Record not found".
Proof.
  intros found missing this params e. split; [|reflexivity].
  set (request := Storage.executeGet_requestOptions "https://api.ainoflow.io" "notes").
  destruct (item_loop_driver this
              (mkHost (fun _ => None) (fun body _ _ => body) (fun _ => 0)
                 (fun _ => "x"))
              1%nat) as (_ & _ & H & _).
  destruct (H (fun _ => None) params [JNull; JNull; JNull]
              [] [request "a"] [request "a"; request "b"] (found "a") e
              eq_refl eq_refl
              (ex_intro _ [("key", JStr "a")] (conj eq_refl eq_refl))
              eq_refl) as [_ Hon].
  rewrite (Hon eq_refl (found "c") [request "a"; request "b"; request "c"]
             eq_refl (ex_intro _ [("key", JStr "c")] (conj eq_refl eq_refl))).
  reflexivity.
Defined.

(** A single bounded listing answered with a wrapper. *)
Lemma list_response_shapes_witness :
  let item := JObj [("key", JStr "k")] in
  let this :=
    mkContext (scripted [Resolve (JObj [("items", JArr [item]); ("totalCount", JNum 1)])])
      (mkCredentials "secret" None) false in
  fst (Files.executeFileGetMany 0 this 0 "docs" false
         (Files.mkGetManyAdditionalFields None None None None None) 50 [])
  = Returned (JArr [item]).
Proof.
  cbv zeta.
  destruct (list_response_shapes (mkCredentials "secret" None) false 0)
    as (_ & _ & H & _).
  erewrite (H _ 0%nat "docs"
              (Files.mkGetManyAdditionalFields None None None None None) 50).
  - reflexivity.
  - reflexivity.
  - constructor. reflexivity.
Defined.

(** The upload of a source URL carries the ten-minute timeout. *)
Lemma request_timeouts_witness :
  timeout (Files.uploadViaUrl_requestOptions "https://api.ainoflow.io"
             "/api/v1/files/docs" POST (Buffer_from "body") "boundary")
  = Some 600000.
Proof.
  exact (request_timeouts UploadClass _
           (files_upload_url "https://api.ainoflow.io" "/api/v1/files/docs" POST
              (Buffer_from "body") "boundary")).
Defined.

(** A slash in the category and a slash in the key give different paths. *)
Lemma path_segments_encoded_witness :
  segment2 "/api/v1/files" "a/b" "c" <> segment2 "/api/v1/files" "a" "b/c".
Proof.
  destruct path_segments_encoded as (_ & _ & _ & _ & _ & H & _).
  refine (proj1 (H "/api/v1/files" "a/b" "c" "a" "b/c" _)).
  discriminate.
Defined.

(** 1001 records in two pages become one wrapper of 1001 items. *)
Lemma return_all_aggregate_wrapper_witness :
  let item := JObj [("key", JStr "k")] in
  let first :=
    JObj [("items", JArr (repeat item 1000)); ("totalCount", JNum 1001);
          ("page", JNum 1); ("pageSize", JNum 1000); ("totalPages", JNum 2)] in
  let second :=
    JObj [("items", JArr [item]); ("totalCount", JNum 1001);
          ("page", JNum 2); ("pageSize", JNum 1000); ("totalPages", JNum 2)] in
  let this :=
    mkContext (scripted (map Resolve [first; second]))
      (mkCredentials "secret" None) false in
  let p :=
    Storage.mkParameters "record" "getMany" "notes" EmptyString
      (Storage.mkAdditionalFields None None None None None)
      true true 50 1 "json" JNull None in
  fst (Storage.executeRecordGetMany 2 this p 0 [])
  = Returned (synthesized [("category", JStr "notes")] (repeat item 1000 ++ [item])).
Proof.
  intros item first second this p.
  destruct (return_all_aggregate_wrapper this 0%nat p eq_refl eq_refl) as [H _].
  rewrite (H [first] [repeat item 1000] second [item] 2%nat []).
  - cbn [fst concat app]. rewrite app_nil_r. reflexivity.
  - constructor; [apply wrapper; reflexivity | constructor].
  - constructor; [reflexivity | constructor].
  - apply wrapper. reflexivity.
  - discriminate.
  - apply (scripted_answers _ 1 1 [first; second]).
  - apply le_n.
Defined.

(* ======================================================================== *)
(** * Further properties of the code *)

(** ** Failing and endless page sources *)

Lemma paginate_fails (server : Server) (request_for : Z -> Request)
    (step : Z) (normalize : Exn -> Exn)
    (responses : list Json) (pages : list (list Json)) :
  Forall2 listResponse responses pages ->
  Forall (fun p => Z.of_nat (List.length p) = 1000) pages ->
  forall (error : HttpError) (fuel : nat) (allItems : list Json) (cursor : Z)
         (sent : list Request),
    answers server request_for step sent cursor responses ->
    server (sent ++ requests_from request_for step cursor (List.length pages))
           (request_for (cursor + step * Z.of_nat (List.length pages)))
    = Reject error ->
    (List.length pages < fuel)%nat ->
    paginate server request_for step 1000 normalize fuel allItems cursor sent
    = (Thrown (normalize (OtherExn error)),
       sent ++ requests_from request_for step cursor (S (List.length pages))).
Proof.
  intros HF. induction HF as [| r p rs ps Hr HF IH];
    intros Hfull error fuel allItems cursor sent Hans Hrej Hfuel;
    (destruct fuel as [|fuel]; [simpl in Hfuel; lia|]).
  - unfold requests_from in Hrej. simpl in Hrej.
    rewrite app_nil_r in Hrej. replace (cursor + step * 0) with cursor in Hrej by lia.
    cbn [paginate]. unfold bind at 1, try_catch, bind, httpRequest.
    rewrite Hrej. unfold requests_from. simpl.
    replace (cursor + step * 0) with cursor by lia. reflexivity.
  - pose proof (answers_head _ _ _ _ _ _ _ Hans) as Hs.
    apply Forall_cons_iff in Hfull as [Hp Hfull'].
    cbn [paginate].
    rewrite (bind_returned _ _ _ _ _
               (fetch_page server request_for 1000 normalize _ _ _ _ Hs Hr)).
    rewrite Hp, Z.eqb_refl. cbn [fst snd].
    rewrite (IH Hfull' error fuel (allItems ++ p) (cursor + step)
               (sent ++ [request_for cursor])).
    + rewrite requests_from_S with (n := S (List.length ps)).
      rewrite <- app_assoc. reflexivity.
    + exact (answers_tail _ _ _ _ _ _ _ Hans).
    + cbn [List.length] in Hrej. rewrite requests_from_S in Hrej.
      rewrite <- app_assoc. cbn [app].
      replace (cursor + step + step * Z.of_nat (List.length ps))
        with (cursor + step * Z.of_nat (S (List.length ps))) by lia.
      exact Hrej.
    + simpl in Hfuel. lia.
Qed.

Lemma paginate_forever (server : Server) (request_for : Z -> Request)
    (step : Z) (normalize : Exn -> Exn) :
  always_full server request_for ->
  forall (fuel : nat) (allItems : list Json) (cursor : Z) (sent : list Request),
    paginate server request_for step 1000 normalize fuel allItems cursor sent
    = (OutOfFuel, sent ++ requests_from request_for step cursor fuel).
Proof.
  intros Hfull. induction fuel as [|fuel IH]; intros allItems cursor sent.
  - unfold requests_from. simpl. rewrite app_nil_r. reflexivity.
  - destruct (Hfull sent cursor) as (r & p & Hs & Hr & Hp).
    cbn [paginate].
    rewrite (bind_returned _ _ _ _ _
               (fetch_page server request_for 1000 normalize _ _ _ _ Hs Hr)).
    rewrite Hp, Z.eqb_refl. cbn [fst snd].
    rewrite IH, requests_from_S, <- app_assoc. reflexivity.
Qed.

Lemma paginate_failure (finish : list Json -> Json)
    (norm : HttpError -> NodeApiError) (server : Server)
    (request_for : Z -> Request) (start step : Z) (collect : nat -> M Json) :
  (forall fuel sent,
      collect fuel sent
      = bind (paginate server request_for step 1000
                (fun error => ApiExn (norm (as_http error))) fuel [] start)
          (fun allItems => ret (finish allItems)) sent) ->
  collector_failure norm server collect request_for start step.
Proof.
  intros Hc responses pages error fuel sent HF Hfull Hans Hrej Hfuel.
  rewrite Hc.
  rewrite (bind_thrown _ _ _ _ _
             (paginate_fails server request_for step _ responses pages HF Hfull
                error fuel [] start sent Hans Hrej Hfuel)).
  reflexivity.
Qed.

Lemma paginate_endless (finish : list Json -> Json) (normalize : Exn -> Exn)
    (server : Server) (request_for : Z -> Request) (start step : Z)
    (collect : nat -> M Json) :
  (forall fuel sent,
      collect fuel sent
      = bind (paginate server request_for step 1000 normalize fuel [] start)
          (fun allItems => ret (finish allItems)) sent) ->
  always_full server request_for ->
  runs_forever collect request_for start step.
Proof.
  intros Hc Hfull fuel sent. rewrite Hc. unfold bind.
  rewrite (paginate_forever server request_for step normalize Hfull).
  reflexivity.
Qed.

(** The collectors as runs of [paginate], whatever Aggregate says. *)
Lemma Files_collect_paginate (this : IExecuteFunctions) (itemIndex : nat)
    (category : string) (options : Files.GetManyAdditionalFields) (limit : Z)
    (fuel : nat) (sent : list Request) :
  Files.executeFileGetMany fuel this itemIndex category true options limit sent
  = bind (paginate (helpers this)
            (fun offset =>
               Files.getMany_requestOptions (getBaseUrl (getCredentials this))
                 category (Files.getMany_page_qs options offset))
            1000 1000
            (fun error => ApiExn (handleApiError (as_http error) itemIndex
                                    "get many files" EntFile))
            fuel [] (match Files.offset options with Some n => n | None => 0 end))
      (fun allItems => ret (JArr allItems)) sent.
Proof.
  unfold Files.executeFileGetMany, bind.
  rewrite Files_getMany_loop_paginate. reflexivity.
Qed.

Lemma Storage_record_collect_paginate (this : IExecuteFunctions) (itemIndex : nat)
    (p : Storage.Parameters) (fuel : nat) (sent : list Request) :
  Storage.returnAll p = true ->
  Storage.executeRecordGetMany fuel this p itemIndex sent
  = bind (paginate (helpers this)
            (fun page =>
               Storage.recordGetMany_requestOptions
                 (getBaseUrl (getCredentials this)) (Storage.category p)
                 (Storage.recordGetMany_page_qs (Storage.additionalFields p) page))
            1 1000
            (fun error => ApiExn (handleApiError (as_http error) itemIndex
                                    "get many records" EntRecord))
            fuel [] 1)
      (fun allItems =>
         ret (if Storage.aggregate p
              then synthesized [("category", JStr (Storage.category p))] allItems
              else JArr allItems)) sent.
Proof.
  intros Hall. unfold Storage.executeRecordGetMany, bind. rewrite Hall.
  rewrite Storage_recordGetMany_loop_paginate.
  destruct (paginate _ _ _ _ _ _ _ _ sent) as [[allItems| |] sent'];
    try reflexivity.
  destruct (Storage.aggregate p); reflexivity.
Qed.

Lemma Storage_category_collect_paginate (this : IExecuteFunctions)
    (itemIndex : nat) (p : Storage.Parameters) (fuel : nat) (sent : list Request) :
  Storage.returnAll p = true ->
  Storage.executeCategoryGetMany fuel this p itemIndex sent
  = bind (paginate (helpers this)
            (fun page =>
               Storage.categoryGetMany_requestOptions
                 (getBaseUrl (getCredentials this))
                 [("page", QNum page); ("limit", QNum 1000)])
            1 1000
            (fun error => ApiExn (handleApiError (as_http error) itemIndex
                                    "get categories" EntRecord))
            fuel [] 1)
      (fun allItems =>
         ret (if Storage.aggregate p then synthesized [] allItems
              else JArr allItems)) sent.
Proof.
  intros Hall. unfold Storage.executeCategoryGetMany, bind. rewrite Hall.
  rewrite Storage_categoryGetMany_loop_paginate.
  destruct (paginate _ _ _ _ _ _ _ _ sent) as [[allItems| |] sent'];
    try reflexivity.
  destruct (Storage.aggregate p); reflexivity.
Qed.

Lemma StorageLocal_collect_paginate (this : IExecuteFunctions) (itemIndex : nat)
    (category : string) (additionalFields : StorageLocal.GetManyAdditionalFields)
    (limit : Z) (fuel : nat) (sent : list Request) :
  StorageLocal.executeRecordGetMany fuel this itemIndex category true
    additionalFields limit sent
  = bind (paginate (helpers this)
            (fun page =>
               StorageLocal.recordGetMany_requestOptions category
                 (StorageLocal.recordGetMany_qs additionalFields page 1000))
            1 1000
            (fun error => ApiExn (StorageLocal.handleApiError (as_http error)
                                    itemIndex "get many records"))
            fuel [] 1)
      (fun allItems => ret (JArr allItems)) sent.
Proof.
  unfold StorageLocal.executeRecordGetMany, bind.
  rewrite StorageLocal_recordGetMany_loop_paginate. reflexivity.
Qed.

(** X1.  A page fetch that fails during return-all aborts the collection in
    every node: after any number of full pages, the rejected request makes the
    handler throw the error as its own normalizer renders it (operation label
    and entity kind of that handler, the item index); the pages gathered so
    far are not returned, and no request follows the failed one. *)
Theorem failed_page_aborts_collection :
  forall (this : IExecuteFunctions) (itemIndex : nat),
    (forall category options limit,
        collector_failure
          (fun error => handleApiError error itemIndex "get many files" EntFile)
          (helpers this)
          (fun fuel =>
             Files.executeFileGetMany fuel this itemIndex category true options limit)
          (fun offset =>
             Files.getMany_requestOptions (getBaseUrl (getCredentials this))
               category (Files.getMany_page_qs options offset))
          (match Files.offset options with Some n => n | None => 0 end) 1000)
    /\
    (forall p,
        Storage.returnAll p = true ->
        collector_failure
          (fun error => handleApiError error itemIndex "get many records" EntRecord)
          (helpers this)
          (fun fuel => Storage.executeRecordGetMany fuel this p itemIndex)
          (fun page =>
             Storage.recordGetMany_requestOptions (getBaseUrl (getCredentials this))
               (Storage.category p)
               (Storage.recordGetMany_page_qs (Storage.additionalFields p) page))
          1 1
        /\
        collector_failure
          (fun error => handleApiError error itemIndex "get categories" EntRecord)
          (helpers this)
          (fun fuel => Storage.executeCategoryGetMany fuel this p itemIndex)
          (fun page =>
             Storage.categoryGetMany_requestOptions
               (getBaseUrl (getCredentials this))
               [("page", QNum page); ("limit", QNum 1000)])
          1 1)
    /\
    (forall category additionalFields limit,
        collector_failure
          (fun error =>
             StorageLocal.handleApiError error itemIndex "get many records")
          (helpers this)
          (fun fuel =>
             StorageLocal.executeRecordGetMany fuel this itemIndex category true
               additionalFields limit)
          (fun page =>
             StorageLocal.recordGetMany_requestOptions category
               (StorageLocal.recordGetMany_qs additionalFields page 1000))
          1 1).
Proof.
  intros this itemIndex. split; [|split].
  - intros category options limit.
    eapply paginate_failure with (finish := JArr). intros fuel sent.
    apply Files_collect_paginate.
  - intros p Hall. split.
    + eapply paginate_failure. intros fuel sent.
      apply Storage_record_collect_paginate. exact Hall.
    + eapply paginate_failure. intros fuel sent.
      apply Storage_category_collect_paginate. exact Hall.
  - intros category additionalFields limit.
    eapply paginate_failure with (finish := JArr). intros fuel sent.
    apply StorageLocal_collect_paginate.
Qed.

(** X2.  The return-all loops have no bound of their own: against a source
    that answers every page request with exactly 1000 items they never
    return; however much fuel the run is given, it is used up, one page
    request per unit, the cursor advancing each time. *)
Theorem full_pages_never_end :
  forall (this : IExecuteFunctions) (itemIndex : nat),
    (forall category options limit,
        always_full (helpers this)
          (fun offset =>
             Files.getMany_requestOptions (getBaseUrl (getCredentials this))
               category (Files.getMany_page_qs options offset)) ->
        runs_forever
          (fun fuel =>
             Files.executeFileGetMany fuel this itemIndex category true options limit)
          (fun offset =>
             Files.getMany_requestOptions (getBaseUrl (getCredentials this))
               category (Files.getMany_page_qs options offset))
          (match Files.offset options with Some n => n | None => 0 end) 1000)
    /\
    (forall p,
        Storage.returnAll p = true ->
        always_full (helpers this)
          (fun page =>
             Storage.recordGetMany_requestOptions (getBaseUrl (getCredentials this))
               (Storage.category p)
               (Storage.recordGetMany_page_qs (Storage.additionalFields p) page)) ->
        runs_forever
          (fun fuel => Storage.executeRecordGetMany fuel this p itemIndex)
          (fun page =>
             Storage.recordGetMany_requestOptions (getBaseUrl (getCredentials this))
               (Storage.category p)
               (Storage.recordGetMany_page_qs (Storage.additionalFields p) page))
          1 1)
    /\
    (forall p,
        Storage.returnAll p = true ->
        always_full (helpers this)
          (fun page =>
             Storage.categoryGetMany_requestOptions
               (getBaseUrl (getCredentials this))
               [("page", QNum page); ("limit", QNum 1000)]) ->
        runs_forever
          (fun fuel => Storage.executeCategoryGetMany fuel this p itemIndex)
          (fun page =>
             Storage.categoryGetMany_requestOptions
               (getBaseUrl (getCredentials this))
               [("page", QNum page); ("limit", QNum 1000)])
          1 1).
Proof.
  intros this itemIndex. split; [|split].
  - intros category options limit Hfull.
    eapply paginate_endless with (finish := JArr); [|exact Hfull].
    intros fuel sent. apply Files_collect_paginate.
  - intros p Hall Hfull. eapply paginate_endless; [|exact Hfull].
    intros fuel sent. apply Storage_record_collect_paginate. exact Hall.
  - intros p Hall Hfull. eapply paginate_endless; [|exact Hfull].
    intros fuel sent. apply Storage_category_collect_paginate. exact Hall.
Qed.

(** ** Single-request handlers *)

Ltac one_request_tac :=
  intros sent;
  unfold Files.executeDelete, Files.executeGetMetadata, Files.executeGetUrl,
    Files.executeCategoryGetMany, Storage.executeGet, Storage.executeDelete,
    Storage.executeGetMetadata, Storage.send;
  unfold try_catch, bind, httpRequestWithAuthentication, httpRequest;
  match goal with
  | |- context [match ?server sent ?request with _ => _ end] =>
      destruct (server sent request)
  end; reflexivity.

(** X3.  Every handler that goes to the transport once does so exactly once,
    whatever the reply: a resolved request returns the response as received
    (the delete handlers return the fixed object with deleted set to true
    instead), a rejected one is thrown through [handleApiError] with the
    handler's own operation label and entity kind and the item index; there
    is no second attempt.  The record mutations send the data that
    [buildDataFromInput] returned. *)
Theorem handlers_send_one_request :
  forall (this : IExecuteFunctions) (itemIndex : nat),
    let baseURL := getBaseUrl (getCredentials this) in
    let deleted := fun _ : Json => JObj [("deleted", JBool true)] in
    let same := fun response : Json => response in
    (forall category key expirySeconds,
        one_request (helpers this)
          (Files.executeDelete this itemIndex category key)
          (Files.executeDelete_requestOptions baseURL category key) deleted
          (fun error => handleApiError error itemIndex "delete file" EntFile)
        /\ one_request (helpers this)
             (Files.executeGetMetadata this itemIndex category key)
             (Files.executeGetMetadata_requestOptions baseURL category key) same
             (fun error =>
                handleApiError error itemIndex "get file metadata" EntFile)
        /\ one_request (helpers this)
             (Files.executeGetUrl this itemIndex category key expirySeconds)
             (Files.executeGetUrl_requestOptions baseURL category key expirySeconds)
             same
             (fun error =>
                handleApiError error itemIndex "get download URL" EntFile)
        /\ one_request (helpers this)
             (Files.executeCategoryGetMany this itemIndex)
             (Files.executeCategoryGetMany_requestOptions baseURL) same
             (fun error => handleApiError error itemIndex "get categories" EntFile))
    /\
    (forall p,
        one_request (helpers this) (Storage.executeGet this p itemIndex)
          (Storage.executeGet_requestOptions baseURL (Storage.category p)
             (Storage.keyParam p)) same
          (fun error => handleApiError error itemIndex "get record" EntRecord)
        /\ one_request (helpers this) (Storage.executeDelete this p itemIndex)
             (Storage.executeDelete_requestOptions baseURL (Storage.category p)
                (Storage.keyParam p)) deleted
             (fun error => handleApiError error itemIndex "delete record" EntRecord)
        /\ one_request (helpers this) (Storage.executeGetMetadata this p itemIndex)
             (Storage.executeGetMetadata_requestOptions baseURL (Storage.category p)
                (Storage.keyParam p)) same
             (fun error =>
                handleApiError error itemIndex "get record metadata" EntRecord))
    /\
    (forall JSON_parse p data,
        (forall sent,
            Storage.buildDataFromInput JSON_parse p itemIndex sent
            = (Returned data, sent)) ->
        one_request (helpers this)
          (Storage.executeCreate this JSON_parse p itemIndex)
          (Storage.executeCreate_requestOptions baseURL (Storage.category p)
             (Storage.additionalFields p) data) same
          (fun error => handleApiError error itemIndex "create record" EntRecord)
        /\ one_request (helpers this)
             (Storage.executeCreateOrReplace this JSON_parse p itemIndex)
             (Storage.executeCreateOrReplace_requestOptions baseURL
                (Storage.category p) (Storage.keyParam p)
                (Storage.additionalFields p) data) same
             (fun error =>
                handleApiError error itemIndex "create or replace record" EntRecord)
        /\ one_request (helpers this)
             (Storage.executeUpdate this JSON_parse p itemIndex)
             (Storage.executeUpdate_requestOptions baseURL (Storage.category p)
                (Storage.keyParam p) data) same
             (fun error => handleApiError error itemIndex "update record" EntRecord))
    /\
    (forall p,
        Convert.jobId p <> EmptyString -> Convert.simplify p = false ->
        one_request (helpers this) (Convert.executeGetResult this p itemIndex)
          (Convert.executeGetResult_requestOptions baseURL (Convert.jobId p)) same
          (fun error => handleApiError error itemIndex "get job result" EntJob))
    /\
    (forall sourceUrl languages outputs additionalFields,
        sourceUrl <> EmptyString ->
        one_request (helpers this)
          (Convert.submitViaUrl this sourceUrl itemIndex languages outputs
             additionalFields)
          (Convert.submitViaUrl_requestOptions baseURL
             (Convert.submitViaUrl_body sourceUrl languages outputs additionalFields))
          same
          (fun error =>
             handleApiError error itemIndex "submit document via URL" EntJob)).
Proof.
  intros this itemIndex baseURL deleted same. subst baseURL deleted same.
  split; [|split; [|split; [|split]]].
  - intros category key expirySeconds. repeat split; one_request_tac.
  - intros p. repeat split; unfold Storage.send; one_request_tac.
  - intros JSON_parse p data Hdata.
    repeat split; intros sent;
      unfold Storage.executeCreate, Storage.executeCreateOrReplace,
        Storage.executeUpdate;
      rewrite (bind_returned _ _ _ _ _ (Hdata sent));
      revert sent; unfold Storage.send; one_request_tac.
  - intros p Hjob Hs. unfold Convert.executeGetResult.
    apply nonempty_true in Hjob. rewrite Hjob, Hs. cbn [negb].
    one_request_tac.
  - intros sourceUrl languages outputs additionalFields Hsrc.
    unfold Convert.submitViaUrl. apply nonempty_true in Hsrc. rewrite Hsrc.
    cbn [negb]. one_request_tac.
Qed.

(** ** Multipart uploads *)

Lemma withheld_stops {A : Type} (binaryProperty : BinaryProperty) (error : Exn)
    (k : IBinaryData -> list byte -> M A) :
  withheld binaryProperty error ->
  forall sent,
    (binaryData <- helperCall (assertBinaryData binaryProperty) ;;
     fileBuffer <- helperCall (getBinaryDataBuffer binaryProperty) ;;
     k binaryData fileBuffer) sent
    = (Thrown error, sent).
Proof.
  intros [H | (binaryData & H & H')] sent; unfold bind, helperCall.
  - rewrite H. reflexivity.
  - rewrite H, H'. reflexivity.
Qed.

Lemma delivered_continues {A : Type} (binaryProperty : BinaryProperty)
    (binaryData : IBinaryData) (fileBuffer : list byte)
    (k : IBinaryData -> list byte -> M A) :
  delivered binaryProperty binaryData fileBuffer ->
  forall sent,
    (binaryData <- helperCall (assertBinaryData binaryProperty) ;;
     fileBuffer <- helperCall (getBinaryDataBuffer binaryProperty) ;;
     k binaryData fileBuffer) sent
    = k binaryData fileBuffer sent.
Proof.
  intros [H H'] sent. unfold bind, helperCall. rewrite H, H'. reflexivity.
Qed.

(** X4.  Each multipart upload that has its input sends exactly one request,
    and the boundary its Content-Type header announces is the boundary its
    body was built with.  A binary upload first asks the host for the binary
    property: when the host delivers it, a property without a file name or
    type is sent as file with type application/octet-stream; when the host
    does not (the item has no such property, or its content cannot be read),
    the upload throws the host's error as it is and sends nothing.  The
    binary uploads address the absolute URL made of the resolved base URL and
    the path and carry the bearer token themselves; the URL upload leaves
    both to the authenticated transport.  A rejection is thrown through
    [handleApiError] with the upload's own label. *)
Theorem multipart_uploads_announce_boundary :
  forall (this : IExecuteFunctions) (now : Z) (random36 : string)
         (binaryProperty : BinaryProperty) (itemIndex : nat) (path : string)
         (verb : Method) (additionalFields : list (string * string)),
    let same := fun response : Json => response in
    let credentials := getCredentials this in
    let boundary := newBoundary now random36 in
    let announced := fun r : Request =>
      assoc "Content-Type" (headers r)
      = Some ("multipart/form-data; boundary=" +++ boundary) in
    (forall binaryData fileBuffer,
        delivered binaryProperty binaryData fileBuffer ->
        let name := or_else (fileName binaryData) "file" in
        let type := or_else (mimeType binaryData) "application/octet-stream" in
        exists r,
          one_request (helpers this)
            (Files.uploadViaBinary this now random36 binaryProperty itemIndex
               path verb additionalFields)
            r same
            (fun error => handleApiError error itemIndex "upload file" EntFile)
          /\ announced r
          /\ body r
             = Some (RawBody
                       (render boundary
                          (filePart name type fileBuffer
                           :: map textPart (emitted additionalFields))))
          /\ method r = verb
          /\ url r = getBaseUrl credentials +++ path
          /\ assoc "Authorization" (headers r)
             = Some ("Bearer " +++ apiKey credentials))
    /\
    (forall error,
        withheld binaryProperty error ->
        stopped_by
          (Files.uploadViaBinary this now random36 binaryProperty itemIndex path
             verb additionalFields) error
        /\ forall languages outputs options,
             stopped_by
               (Convert.submitViaBinary this now random36 binaryProperty
                  itemIndex languages outputs options) error)
    /\
    (forall sourceUrl,
        sourceUrl <> EmptyString ->
        exists r,
          one_request (helpers this)
            (Files.uploadViaUrl this now random36 sourceUrl itemIndex path verb
               additionalFields)
            r same
            (fun error =>
               handleApiError error itemIndex "upload file from URL" EntFile)
          /\ announced r
          /\ body r
             = Some (RawBody
                       (render boundary
                          (textPart ("sourceUrl", sourceUrl)
                           :: map textPart (emitted additionalFields))))
          /\ method r = verb
          /\ url r = path
          /\ baseURL r = Some (getBaseUrl credentials)
          /\ assoc "Authorization" (headers r) = None)
    /\
    (forall binaryData fileBuffer languages outputs options,
        delivered binaryProperty binaryData fileBuffer ->
        let name := or_else (fileName binaryData) "file" in
        let type := or_else (mimeType binaryData) "application/octet-stream" in
        exists r,
          one_request (helpers this)
            (Convert.submitViaBinary this now random36 binaryProperty itemIndex
               languages outputs options)
            r same
            (fun error => handleApiError error itemIndex "submit binary file" EntJob)
          /\ announced r
          /\ body r
             = Some (RawBody
                       (render boundary
                          (map textPart
                             (Convert.submitViaBinary_formFields languages outputs
                                options)
                           ++ [filePart name type fileBuffer])))
          /\ method r = POST
          /\ url r = getBaseUrl credentials +++ "/api/v1/convert/submit-file"
          /\ assoc "Authorization" (headers r)
             = Some ("Bearer " +++ apiKey credentials)).
Proof.
  intros this now random36 binaryProperty itemIndex path verb additionalFields
    same credentials boundary announced.
  subst same credentials boundary announced.
  split; [|split; [|split]].
  - intros binaryData fileBuffer Hd name type. subst name type.
    exists (Files.uploadViaBinary_requestOptions (getCredentials this) path verb
              (render (newBoundary now random36)
                 (filePart (or_else (fileName binaryData) "file")
                    (or_else (mimeType binaryData) "application/octet-stream")
                    fileBuffer
                  :: map textPart (emitted additionalFields)))
              (newBoundary now random36)).
    split; [|repeat split].
    intros sent. unfold Files.uploadViaBinary.
    rewrite (delivered_continues _ _ _ _ Hd).
    rewrite buildMultipartBody_render.
    unfold try_catch, httpRequest.
    match goal with
    | |- context [match ?server sent ?request with _ => _ end] =>
        destruct (server sent request)
    end; reflexivity.
  - intros error Hw. split.
    + intros sent. unfold Files.uploadViaBinary.
      apply withheld_stops. exact Hw.
    + intros languages outputs options sent. unfold Convert.submitViaBinary.
      apply withheld_stops. exact Hw.
  - intros sourceUrl Hsrc.
    exists (Files.uploadViaUrl_requestOptions (getBaseUrl (getCredentials this))
              path verb
              (render (newBoundary now random36)
                 (textPart ("sourceUrl", sourceUrl)
                  :: map textPart (emitted additionalFields)))
              (newBoundary now random36)).
    split; [|repeat split].
    intros sent. unfold Files.uploadViaUrl.
    apply nonempty_true in Hsrc. rewrite Hsrc. cbn [negb].
    rewrite buildUrlMultipartBody_render.
    unfold try_catch, httpRequestWithAuthentication, httpRequest.
    match goal with
    | |- context [match ?server sent ?request with _ => _ end] =>
        destruct (server sent request)
    end; reflexivity.
  - intros binaryData fileBuffer languages outputs options Hd name type.
    subst name type.
    exists (Convert.submitViaBinary_requestOptions (getCredentials this)
              (render (newBoundary now random36)
                 (map textPart
                    (Convert.submitViaBinary_formFields languages outputs options)
                  ++ [filePart (or_else (fileName binaryData) "file")
                        (or_else (mimeType binaryData) "application/octet-stream")
                        fileBuffer]))
              (newBoundary now random36)).
    split; [|repeat split].
    intros sent. unfold Convert.submitViaBinary.
    rewrite (delivered_continues _ _ _ _ Hd).
    rewrite submitViaBinary_bodyBuffer_render.
    unfold try_catch, httpRequest.
    match goal with
    | |- context [match ?server sent ?request with _ => _ end] =>
        destruct (server sent request)
    end; reflexivity.
Qed.

(** ** Failures raised before any request *)


(** X5.  Input the handlers check themselves never reaches the remote API:
    an empty source URL, an empty language or output selection, an empty job
    id, JSON text that does not parse and JSON that is not an object or array
    each make the handler throw a [NodeOperationError] for the item, with the
    handler's message, before anything is sent. *)
Theorem local_validation_sends_nothing :
  forall (this : IExecuteFunctions) (host : Host) (itemIndex : nat),
    (forall p,
        Files.inputSource p = "url" -> Files.sourceUrl p = EmptyString ->
        rejected_locally (Files.executeCreate this host p itemIndex)
          "Source URL is required" itemIndex
        /\ rejected_locally (Files.executeCreateOrReplace this host p itemIndex)
             "Source URL is required" itemIndex)
    /\
    (forall p,
        (Convert.languages p = [] ->
         rejected_locally (Convert.executeConvert this host p itemIndex)
           "At least one language must be selected" itemIndex)
        /\ (Convert.languages p <> [] -> Convert.outputs p = [] ->
            rejected_locally (Convert.executeConvert this host p itemIndex)
              "At least one output format must be selected" itemIndex)
        /\ (Convert.languages p <> [] -> Convert.outputs p <> [] ->
            Convert.inputSource p = "url" -> Convert.sourceUrl p = EmptyString ->
            rejected_locally (Convert.executeConvert this host p itemIndex)
              "Source URL is required" itemIndex)
        /\ (Convert.jobId p = EmptyString ->
            rejected_locally (Convert.executeGetResult this p itemIndex)
              "Job ID is required" itemIndex))
    /\
    (forall JSON_parse p,
        Storage.specifyData p = "json" ->
        let mutations message :=
          rejected_locally (Storage.executeCreate this JSON_parse p itemIndex)
            message itemIndex
          /\ rejected_locally
               (Storage.executeCreateOrReplace this JSON_parse p itemIndex)
               message itemIndex
          /\ rejected_locally (Storage.executeUpdate this JSON_parse p itemIndex)
               message itemIndex in
        (forall text,
            Storage.dataJson p = JStr text -> JSON_parse text = None ->
            mutations "Invalid JSON in data field")
        /\ (forall text data,
               Storage.dataJson p = JStr text -> JSON_parse text = Some data ->
               primitive data ->
               mutations "JSON must be an object or array")
        /\ ((forall text, Storage.dataJson p <> JStr text) ->
            primitive (Storage.dataJson p) ->
            mutations "JSON must be an object or array")).
Proof.
  intros this host itemIndex. split; [|split].
  - intros p Hsrc Hurl. split; intros sent; eexists;
      unfold Files.executeCreate, Files.executeCreateOrReplace, Files.uploadViaUrl;
      rewrite Hsrc, Hurl; reflexivity.
  - intros p. repeat split.
    + intros Hl sent. eexists. unfold Convert.executeConvert. rewrite Hl.
      reflexivity.
    + intros Hl Ho sent. eexists. unfold Convert.executeConvert. rewrite Ho.
      destruct (Convert.languages p); [contradiction | reflexivity].
    + intros Hl Ho Hsrc Hurl sent. eexists.
      unfold Convert.executeConvert, Convert.submitViaUrl. rewrite Hsrc, Hurl.
      destruct (Convert.languages p); [contradiction|].
      destruct (Convert.outputs p); [contradiction | reflexivity].
    + intros Hjob sent. eexists. unfold Convert.executeGetResult. rewrite Hjob.
      reflexivity.
  - intros JSON_parse p Hjson mutations. subst mutations.
    assert (Hbuild : forall sent o,
               Storage.buildDataFromInput JSON_parse p itemIndex sent
               = (Thrown (OperationExn o), sent) ->
               Storage.executeCreate this JSON_parse p itemIndex sent
               = (Thrown (OperationExn o), sent)
               /\ Storage.executeCreateOrReplace this JSON_parse p itemIndex sent
                  = (Thrown (OperationExn o), sent)
               /\ Storage.executeUpdate this JSON_parse p itemIndex sent
                  = (Thrown (OperationExn o), sent)).
    { intros sent o H.
      unfold Storage.executeCreate, Storage.executeCreateOrReplace,
        Storage.executeUpdate.
      rewrite !(bind_thrown _ _ _ _ _ H). repeat split. }
    split; [|split].
    + intros text Htext Hparse.
      assert (H : forall sent,
                 Storage.buildDataFromInput JSON_parse p itemIndex sent
                 = (Thrown (OperationExn
                              (mkNodeOperationError (Some "Invalid JSON in data field")
                                 itemIndex
                                 (Some "The JSON field must contain valid JSON"))),
                    sent)).
      { intros sent. unfold Storage.buildDataFromInput.
        rewrite Hjson, Htext, Hparse. reflexivity. }
      repeat split; intros sent; eexists; apply (Hbuild sent _ (H sent)).
    + intros text data Htext Hparse Hprim.
      assert (H : forall sent,
                 Storage.buildDataFromInput JSON_parse p itemIndex sent
                 = (Thrown (OperationExn
                              (mkNodeOperationError
                                 (Some "JSON must be an object or array") itemIndex
                                 (Some "Primitive values (strings, numbers, booleans) are not allowed"))),
                    sent)).
      { intros sent. unfold Storage.buildDataFromInput.
        rewrite Hjson, Htext, Hparse.
        destruct data; try contradiction; reflexivity. }
      repeat split; intros sent; eexists; apply (Hbuild sent _ (H sent)).
    + intros Hnot Hprim.
      assert (H : forall sent,
                 Storage.buildDataFromInput JSON_parse p itemIndex sent
                 = (Thrown (OperationExn
                              (mkNodeOperationError
                                 (Some "JSON must be an object or array") itemIndex
                                 (Some "Primitive values (strings, numbers, booleans) are not allowed"))),
                    sent)).
      { intros sent. unfold Storage.buildDataFromInput. rewrite Hjson.
        destruct (Storage.dataJson p) as [| | | |text| | |];
          try contradiction; try reflexivity.
        exfalso. apply (Hnot text). reflexivity. }
      repeat split; intros sent; eexists; apply (Hbuild sent _ (H sent)).
Qed.

(** ** The item loop over any number of items *)

Lemma item_loop_run_all (cof : bool) (process : nat -> M Json)
    (outputs : Json -> nat -> list Json) :
  forall (itemIndex : nat) (sent : list Request) (results : list (Json + Exn))
         (sent' : list Request),
    item_run process itemIndex sent results sent' ->
    cof = true \/ Forall succeeded results ->
    forall returnData : list Json,
      item_loop cof process outputs (List.length results) itemIndex returnData sent
      = (Returned (returnData ++ contributions outputs itemIndex results), sent').
Proof.
  intros itemIndex sent results sent' Hrun.
  induction Hrun as [i sent | i sent r sent' rest sent'' Hp Hrun IH
                    | i sent e sent' rest sent'' Hp Hrun IH];
    intros Hall returnData.
  - cbn. rewrite app_nil_r. reflexivity.
  - cbn [List.length contributions].
    rewrite (item_loop_returned _ _ _ _ _ _ _ _ _ Hp).
    rewrite IH.
    + rewrite <- app_assoc. reflexivity.
    + destruct Hall as [Hc | Hs]; [left; exact Hc | right].
      apply Forall_cons_iff in Hs as [_ Hs]. exact Hs.
  - destruct Hall as [Hc | Hs].
    + subst cof. cbn [List.length contributions].
      rewrite (item_loop_thrown_continue _ _ _ _ _ _ _ _ Hp).
      rewrite IH by (left; reflexivity).
      rewrite <- app_assoc. reflexivity.
    + apply Forall_cons_iff in Hs as [Hs _]. contradiction.
Qed.

Lemma item_loop_run_stop (process : nat -> M Json)
    (outputs : Json -> nat -> list Json) (e : Exn) :
  forall (rs : list Json) (itemIndex : nat) (sent sent' : list Request)
         (remaining : nat) (returnData : list Json),
    item_run process itemIndex sent (map inl rs ++ [inr e]) sent' ->
    (List.length rs < remaining)%nat ->
    item_loop false process outputs remaining itemIndex returnData sent
    = (Thrown (rethrow e (itemIndex + List.length rs)), sent').
Proof.
  induction rs as [|r rs IH]; intros itemIndex sent sent' remaining returnData
                                Hrun Hlt.
  - cbn in Hrun. inversion Hrun as [| |i s e' s' rest s'' Hp Hrest]; subst.
    inversion Hrest; subst.
    destruct remaining as [|remaining]; [inversion Hlt|].
    rewrite (item_loop_thrown_stop _ _ _ _ _ _ _ _ Hp).
    cbn [List.length]. rewrite Nat.add_0_r. reflexivity.
  - cbn in Hrun. inversion Hrun as [|i s r' s' rest s'' Hp Hrest|]; subst.
    destruct remaining as [|remaining]; [inversion Hlt|].
    rewrite (item_loop_returned _ _ _ _ _ _ _ _ _ Hp).
    cbn [List.length] in *.
    rewrite (IH (S itemIndex) s' sent' remaining _ Hrest) by lia.
    rewrite Nat.add_succ_r. reflexivity.
Qed.

Lemma item_loop_driver_run (cof : bool) (process : nat -> M Json)
    (outputs : Json -> nat -> list Json)
    (execute : list Json -> M (list (list Json))) :
  (forall items sent,
      execute items sent
      = bind (item_loop cof process outputs (List.length items) O [])
          (fun returnData => ret [returnData]) sent) ->
  driver_run cof process outputs execute.
Proof.
  intros Hexec items sent sent' results Hrun. split.
  - intros Hlen Hall. rewrite Hexec, <- Hlen. unfold bind.
    rewrite (item_loop_run_all cof process outputs _ _ _ _ Hrun Hall).
    reflexivity.
  - intros rs e -> Hlt ->. rewrite Hexec. unfold bind.
    rewrite (item_loop_run_stop process outputs e rs O sent sent' _ _ Hrun Hlt).
    reflexivity.
Qed.

(** X6.  The drivers of the three nodes over any number of input items: when
    every item succeeds, or continue-on-fail is on, every item is processed
    in order, each in the state the one before left, and the single output
    list holds the items' contributions in item order (the outputs of a
    result, one error entry for a failure); with continue-on-fail off the
    first failing item ends the run with its error, no later item is
    processed and nothing is returned. *)
Theorem drivers_run_items_in_order :
  forall (this : IExecuteFunctions) (host : Host) (fuel : nat),
    (forall params,
        driver_run (continueOnFail this)
          (Files.responseDataOf fuel this host params
             (Files.resource (params O)) (Files.operation (params O)))
          Files.outputsOf
          (Files.execute fuel this host params))
    /\
    (forall params,
        driver_run (continueOnFail this)
          (Convert.responseDataOf this host params (Convert.operation (params O)))
          (fun responseData itemIndex =>
             [JObj [("json", responseData); pairedItem itemIndex]])
          (Convert.execute this host params))
    /\
    (forall JSON_parse params,
        driver_run (continueOnFail this)
          (Storage.responseDataOf fuel this JSON_parse params
             (Storage.resource (params O)) (Storage.operation (params O)))
          Storage.outputsOf
          (Storage.execute fuel this JSON_parse params)).
Proof.
  intros this host fuel. split; [|split].
  - intros params. apply item_loop_driver_run. intros items sent.
    unfold Files.execute, bind. rewrite Files_execute_loop_item_loop.
    reflexivity.
  - intros params. apply item_loop_driver_run. intros items sent.
    unfold Convert.execute, bind. rewrite Convert_execute_loop_item_loop.
    reflexivity.
  - intros JSON_parse params. apply item_loop_driver_run. intros items sent.
    unfold Storage.execute, bind. rewrite Storage_execute_loop_item_loop.
    reflexivity.
Qed.

(** ** Dispatch *)



(** ** Pairing of output entries with input items *)

Lemma contributions_single_nth (f : Json -> nat -> Json) :
  forall (results : list (Json + Exn)) (i k : nat),
    nth_error (contributions (fun r j => [f r j]) i results) k
    = option_map (fun x => match x with
                           | inl r => f r (i + k)%nat
                           | inr e => errorEntry e (i + k)%nat
                           end)
        (nth_error results k).
Proof.
  induction results as [|x results IH]; intros i k.
  - destruct k; reflexivity.
  - destruct k as [|k].
    + rewrite Nat.add_0_r. destruct x; reflexivity.
    + assert (E : (i + S k = S i + k)%nat) by lia. rewrite E.
      destruct x; cbn [contributions app nth_error]; apply IH.
Qed.

Lemma contributions_single_length (f : Json -> nat -> Json) :
  forall (results : list (Json + Exn)) (i : nat),
    List.length (contributions (fun r j => [f r j]) i results)
    = List.length results.
Proof.
  induction results as [|x results IH]; intros i; [reflexivity|].
  destruct x; cbn [contributions app List.length]; rewrite IH; reflexivity.
Qed.

(** The item indices of the entries Storage's output rule makes of a run. *)
Lemma Storage_contributions_paired :
  forall (results : list (Json + Exn)) (i : nat),
    exists indices : list nat,
      map (property "pairedItem") (contributions Storage.outputsOf i results)
      = map (fun j => Some (pairedWith j)) indices
      /\ StronglySorted le indices
      /\ Forall (fun j => (i <= j < i + List.length results)%nat) indices.
Proof.
  induction results as [|x results IH]; intros i.
  - exists []. repeat split; constructor.
  - destruct (IH (S i)) as (rest & Hmap & Hsorted & Hrange).
    assert (Hge : Forall (fun j => (i <= j)%nat) rest).
    { eapply Forall_impl; [|exact Hrange]. cbn beta. intros j Hj. lia. }
    assert (Hrange' : Forall (fun j => (i <= j < i + S (List.length results))%nat)
                        rest).
    { eapply Forall_impl; [|exact Hrange]. cbn beta. intros j Hj. lia. }
    assert (Hone :
              forall entry,
                property "pairedItem" entry = Some (pairedWith i) ->
                exists indices : list nat,
                  map (property "pairedItem")
                    (entry :: contributions Storage.outputsOf (S i) results)
                  = map (fun j => Some (pairedWith j)) indices
                  /\ StronglySorted le indices
                  /\ Forall (fun j => (i <= j < i + S (List.length results))%nat)
                       indices).
    { intros entry Hentry. exists (i :: rest). split; [|split].
      - cbn [map]. rewrite Hentry, Hmap. reflexivity.
      - constructor; assumption.
      - constructor; [lia | exact Hrange']. }
    destruct x as [r | e]; cbn [contributions List.length].
    + destruct r as [| | | | | xs | |];
        try (cbn [Storage.outputsOf app]; apply Hone; reflexivity).
      cbn [Storage.outputsOf].
      exists (repeat i (List.length xs) ++ rest). split; [|split].
      * rewrite !map_app, Hmap. f_equal.
        clear. induction xs as [|x xs IH]; [reflexivity|].
        cbn [map List.length repeat]. rewrite IH. reflexivity.
      * clear Hmap. induction xs as [|x xs IHxs]; [exact Hsorted|].
        cbn [List.length repeat app]. constructor; [exact IHxs|].
        apply Forall_app. split; [|exact Hge].
        clear. induction (List.length xs) as [|n IHn]; constructor;
          [apply le_n | exact IHn].
      * apply Forall_app. split; [|exact Hrange'].
        clear. induction xs as [|x xs IHxs]; constructor; [lia | exact IHxs].
    + apply Hone. reflexivity.
Qed.

(** The groups of entries Storage's output rule makes of a run. *)
Lemma Storage_contributions_grouped :
  forall (results : list (Json + Exn)) (i : nat),
    grouped_from i (contributions Storage.outputsOf i results) results.
Proof.
  induction results as [|x results IH]; intros i.
  - exists []. split; [reflexivity | split; [reflexivity|]].
    intros k result Hk. destruct k; discriminate Hk.
  - destruct (IH (S i)) as (groups & Hcat & Hlen & Hgroups).
    assert (Hone :
              forall group,
                contributions Storage.outputsOf i (x :: results)
                = group ++ contributions Storage.outputsOf (S i) results ->
                map (property "json") group = map Some (payloads x) ->
                Forall (fun entry =>
                          property "pairedItem" entry = Some (pairedWith i))
                  group ->
                grouped_from i (contributions Storage.outputsOf i (x :: results))
                  (x :: results)).
    { intros group Hsplit Hjson Hpaired. exists (group :: groups).
      split; [|split].
      - rewrite Hsplit, Hcat. reflexivity.
      - cbn [List.length]. rewrite Hlen. reflexivity.
      - intros k result Hk. destruct k as [|k].
        + injection Hk as <-. exists group. rewrite Nat.add_0_r.
          repeat split; assumption.
        + destruct (Hgroups k result Hk) as (g & Hg & Hj & Hp).
          exists g. assert (E : (i + S k = S i + k)%nat) by lia. rewrite E.
          repeat split; assumption. }
    destruct x as [r | e].
    + apply (Hone (Storage.outputsOf r i)); [reflexivity | |].
      * destruct r as [| | | | | xs | |]; try reflexivity.
        cbn [Storage.outputsOf payloads]. rewrite !map_map.
        apply map_ext. reflexivity.
      * destruct r as [| | | | | xs | |];
          try (repeat constructor; fail).
        cbn [Storage.outputsOf]. apply Forall_forall. intros entry Hin.
        apply in_map_iff in Hin as (item & <- & _). reflexivity.
    + apply (Hone [errorEntry e i]); [reflexivity | reflexivity |].
      repeat constructor.
Qed.

(** X8.  Output entries stay paired with the input items they came from.
    With continue-on-fail on, the Convert node returns exactly one entry per
    input item, the k-th paired with item k and carrying the item's result or
    its error message.  The Storage node, whenever all items are processed,
    returns the concatenation, in item order, of one group of entries per
    item: an array result contributes one entry per element, in order (an
    empty array none), any other result one entry, an error one entry with
    the error message, and every entry carries its payload as json and is
    paired with its item; so the paired item indices are below the item count
    and never decrease. *)
Theorem entries_paired_in_item_order :
  forall (this : IExecuteFunctions) (items : list Json)
         (sent sent' : list Request) (results : list (Json + Exn)),
    List.length results = List.length items ->
    (forall host params,
        continueOnFail this = true ->
        item_run (Convert.responseDataOf this host params
                    (Convert.operation (params O))) O sent results sent' ->
        exists entries,
          Convert.execute this host params items sent = (Returned [entries], sent')
          /\ List.length entries = List.length items
          /\ forall (k : nat) (result : Json + Exn),
               nth_error results k = Some result ->
               exists entry,
                 nth_error entries k = Some entry
                 /\ property "pairedItem" entry = Some (pairedWith k)
                 /\ property "json" entry = Some (payload result))
    /\
    (forall fuel JSON_parse params,
        continueOnFail this = true \/ Forall succeeded results ->
        item_run (Storage.responseDataOf fuel this JSON_parse params
                    (Storage.resource (params O)) (Storage.operation (params O)))
          O sent results sent' ->
        exists entries,
          Storage.execute fuel this JSON_parse params items sent
          = (Returned [entries], sent')
          /\ paired_in_order entries (List.length items)
          /\ grouped_by_item entries results).
Proof.
  intros this items sent sent' results Hlen. split.
  - intros host params Hcof Hrun. eexists. split; [|split].
    + unfold Convert.execute, bind.
      rewrite Convert_execute_loop_item_loop, <- Hlen.
      rewrite (item_loop_run_all _ _ _ _ _ _ _ Hrun (or_introl Hcof)).
      reflexivity.
    + cbn [app]. rewrite contributions_single_length. exact Hlen.
    + intros k result Hk. cbn [app].
      rewrite (contributions_single_nth
                 (fun r j => JObj [("json", r); pairedItem j])).
      rewrite Hk. cbn [option_map Nat.add].
      destruct result as [r | e]; eexists; repeat split.
  - intros fuel JSON_parse params Hall Hrun.
    destruct (Storage_contributions_paired results O)
      as (indices & Hmap & Hsorted & Hrange).
    eexists. split; [|split].
    + unfold Storage.execute, bind.
      rewrite Storage_execute_loop_item_loop, <- Hlen.
      rewrite (item_loop_run_all _ _ _ _ _ _ _ Hrun Hall).
      reflexivity.
    + exists indices. cbn [app]. split; [exact Hmap | split; [exact Hsorted|]].
      eapply Forall_impl; [|exact Hrange]. cbn beta. intros j Hj. lia.
    + cbn [app]. apply Storage_contributions_grouped.
Qed.

(** ** Downloads *)

Lemma stripQuotes_clean (s : string) :
  ~ occurs "'" (Files.stripQuotes s) /\ ~ occurs "034" (Files.stripQuotes s).
Proof.
  induction s as [|c s [IH1 IH2]]; [split; intros []|].
  cbn [Files.stripQuotes].
  destruct (Ascii.eqb c "'") eqn:E1; [split; assumption|].
  destruct (Ascii.eqb c "034") eqn:E2; [split; assumption|].
  cbn [orb occurs]. apply Ascii.eqb_neq in E1, E2.
  split; intros [H | H]; try contradiction; congruence.
Qed.

(** X9.  A download that is answered with a full response (a headers object
    and a body buffer) sends one request and yields one entry that the driver
    emits as it is, without wrapping it again: its json names the category,
    the key, the file name and the MIME type, its binary data is what
    [prepareBinaryData] makes of the body, and it is paired with the item.
    The MIME type is the content-type header, or application/octet-stream
    when the header is missing or empty; the file name is the name captured
    from the content-disposition header with every quote character removed,
    or the key when the header is missing or holds no name.  A response
    without headers, like a rejected request, ends the item with the
    normalized download error. *)
Theorem download_entry :
  forall (this : IExecuteFunctions) (host : Host) (fuel : nat)
         (params : nat -> Files.Parameters) (itemIndex : nat)
         (sent : list Request) (fields : list (string * Json)),
    let category := Files.category (params itemIndex) in
    let key := Files.keyParam (params itemIndex) in
    let request :=
      Files.executeDownload_requestOptions (getBaseUrl (getCredentials this))
        category key in
    let run :=
      Files.responseDataOf fuel this host params "file" "download" itemIndex sent in
    helpers this sent request = Resolve (JObj fields) ->
    (forall headers bytes d,
        assoc "headers" fields = Some (JObj headers) ->
        assoc "body" fields = Some (JBuf bytes) ->
        headerOr headers "content-disposition" (JStr EmptyString) = JStr d ->
        let contentType :=
          headerOr headers "content-type" (JStr "application/octet-stream") in
        let fileName := downloadName host d key in
        let entry :=
          downloadEntry host category key fileName contentType bytes itemIndex in
        run = (Returned entry, sent ++ [request])
        /\ Files.outputsOf entry itemIndex = [entry]
        /\ (assoc "content-disposition" headers = None ->
            filenameMatch host EmptyString = None -> fileName = key)
        /\ (forall g, filenameMatch host d = Some g -> g <> EmptyString ->
                      fileName = Files.stripQuotes g
                      /\ ~ occurs "'" fileName /\ ~ occurs "034" fileName))
    /\
    (assoc "headers" fields = None ->
     exists error,
       run = (Thrown (ApiExn error), sent ++ [request])
       /\ apiMessageText error = "Could not download file"
       /\ apiHttpCode error = None
       /\ apiItemIndex error = itemIndex).
Proof.
  intros this host fuel params itemIndex sent fields category key request run
    Hreply.
  assert (Hrun : run = Files.executeDownload this host itemIndex category key sent)
    by reflexivity.
  split.
  - intros headers bytes d Hheaders Hbody Hd contentType fileName entry.
    split; [|split; [|split]].
    + rewrite Hrun. unfold Files.executeDownload, try_catch, bind,
        httpRequestWithAuthentication, httpRequest.
      fold request. rewrite Hreply.
      cbn [getProp]. rewrite Hheaders. cbn [ret getProp].
      unfold entry, downloadEntry, fileName, downloadName, contentType.
      unfold headerOr in *. revert Hd.
      destruct (assoc "content-type" headers) as [ct|];
        destruct (assoc "content-disposition" headers) as [cd|];
        intros Hd; cbn [ret truthy];
        [rewrite Hd | injection Hd as <- | rewrite Hd | injection Hd as <-];
        cbn [ret];
        (destruct (filenameMatch host _) as [g|];
         cbn [ret]; rewrite Hbody; reflexivity).
    + reflexivity.
    + intros Hnone Hempty. unfold fileName, downloadName.
      unfold headerOr in Hd. rewrite Hnone in Hd. injection Hd as <-.
      rewrite Hempty. reflexivity.
    + intros g Hg Hne. unfold fileName, downloadName. rewrite Hg.
      apply nonempty_true in Hne. rewrite Hne.
      split; [reflexivity | apply stripQuotes_clean].
  - intros Hnone. eexists. split.
    + rewrite Hrun. unfold Files.executeDownload, try_catch, bind,
        httpRequestWithAuthentication, httpRequest.
      fold request. rewrite Hreply. cbn [getProp]. rewrite Hnone.
      reflexivity.
    + repeat split; reflexivity.
Qed.

(** ** The data and the time to live a record is stored with *)

Lemma setProp_same (name : string) (value : Json) (o : list (string * Json)) :
  assoc name (Storage.setProp name value o) = Some value.
Proof.
  induction o as [|[k v] o IH]; cbn [Storage.setProp assoc].
  - rewrite String.eqb_refl. reflexivity.
  - destruct (k =? name)%string eqn:E; cbn [assoc].
    + rewrite String.eqb_sym, E. reflexivity.
    + rewrite String.eqb_sym, E. exact IH.
Qed.

Lemma setProp_other (name other : string) (value : Json)
    (o : list (string * Json)) :
  other <> name ->
  assoc other (Storage.setProp name value o) = assoc other o.
Proof.
  intros Hne. induction o as [|[k v] o IH]; cbn [Storage.setProp assoc].
  - apply String.eqb_neq in Hne. rewrite Hne. reflexivity.
  - destruct (k =? name)%string eqn:E; cbn [assoc].
    + apply String.eqb_eq in E. subst k.
      apply String.eqb_neq in Hne. rewrite Hne. reflexivity.
    + rewrite IH. reflexivity.
Qed.

Lemma setProp_keys (name : string) (value : Json) (o : list (string * Json)) :
  (In name (map fst o) /\ map fst (Storage.setProp name value o) = map fst o)
  \/ (~ In name (map fst o)
      /\ map fst (Storage.setProp name value o) = map fst o ++ [name]).
Proof.
  induction o as [|[k v] o IH]; cbn [Storage.setProp map fst app].
  - right. split; [intros [] | reflexivity].
  - destruct (k =? name)%string eqn:E; cbn [map fst].
    + apply String.eqb_eq in E. left. split; [left; exact E | reflexivity].
    + apply String.eqb_neq in E. destruct IH as [[Hin Hk] | [Hn Hk]].
      * left. split; [right; exact Hin | rewrite Hk; reflexivity].
      * right. split; [intros [H | H]; [exact (E H) | exact (Hn H)]|].
        rewrite Hk. reflexivity.
Qed.

Lemma setProp_NoDup (name : string) (value : Json) (o : list (string * Json)) :
  NoDup (map fst o) -> NoDup (map fst (Storage.setProp name value o)).
Proof.
  intros H. destruct (setProp_keys name value o) as [[_ E] | [Hn E]];
    rewrite E; [exact H|].
  apply NoDup_app; [exact H | repeat constructor; intros [] |].
  intros k Hk [<- | []]. exact (Hn Hk).
Qed.

(** The loop of the fields mode, from any object built so far. *)
Lemma fields_loop (fields : list (string * string)) :
  forall result : list (string * Json),
    let built :=
      fold_left
        (fun result '(name, value) =>
           if nonempty name then Storage.setProp name (JStr value) result
           else result)
        fields result in
    (NoDup (map fst result) -> NoDup (map fst built))
    /\ (~ In EmptyString (map fst result) -> ~ In EmptyString (map fst built))
    /\ (forall name,
           name <> EmptyString ->
           assoc name built
           = match lastValue name fields with
             | Some v => Some (JStr v)
             | None => assoc name result
             end)
    /\ (List.length built <= List.length result + List.length fields)%nat.
Proof.
  induction fields as [|[k v] fields IH]; intros result built.
  - subst built. cbn. repeat split; auto. lia.
  - subst built. cbn [fold_left].
    destruct (nonempty k) eqn:Hk.
    + destruct (IH (Storage.setProp k (JStr v) result))
        as (Hdup & Hempty & Hlook & Hlen).
      split; [|split; [|split]].
      * intros H. apply Hdup, setProp_NoDup, H.
      * intros H. apply Hempty.
        destruct (setProp_keys k (JStr v) result) as [[_ E] | [_ E]];
          rewrite E; [exact H|].
        intros Hin. apply in_app_or in Hin as [Hin | [Hin | []]];
          [exact (H Hin)|].
        subst k. discriminate Hk.
      * intros name Hname. rewrite (Hlook name Hname). cbn [lastValue].
        destruct (lastValue name fields); [reflexivity|].
        destruct (k =? name)%string eqn:E.
        -- apply String.eqb_eq in E. subst k. apply setProp_same.
        -- apply String.eqb_neq in E. apply setProp_other. congruence.
      * cbn [List.length].
        assert (List.length (Storage.setProp k (JStr v) result)
                <= S (List.length result))%nat.
        { rewrite <- (length_map fst (Storage.setProp k (JStr v) result)),
            <- (length_map fst result).
          destruct (setProp_keys k (JStr v) result) as [[_ E] | [_ E]];
            rewrite E; [lia|]. rewrite length_app. cbn. lia. }
        lia.
    + destruct (IH result) as (Hdup & Hempty & Hlook & Hlen).
      split; [exact Hdup | split; [exact Hempty | split]].
      * intros name Hname. rewrite (Hlook name Hname). cbn [lastValue].
        destruct (lastValue name fields); [reflexivity|].
        apply nonempty_false in Hk. subst k.
        apply String.eqb_neq in Hname. rewrite String.eqb_sym, Hname.
        reflexivity.
      * cbn [List.length]. lia.
Qed.

(** X10.  In the fields mode the record data is built without any request
    and never fails: it is an object whose keys are distinct and never empty,
    with at most one property per field pair; a pair with an empty name is
    skipped; every other name holds the value of the last pair that carries
    it (as a string), and a name no pair carries is absent.  (No pair is to
    be named __proto__: JavaScript reads that name as the prototype accessor
    of the object, not as a property.) *)
Theorem fields_mode_last_value_wins :
  forall (JSON_parse : string -> option Json) (p : Storage.Parameters)
         (itemIndex : nat),
    Storage.specifyData p <> "json" ->
    ~ In "__proto__" (map fst (fieldPairs p)) ->
    exists data : list (string * Json),
      (forall sent,
          Storage.buildDataFromInput JSON_parse p itemIndex sent
          = (Returned (JObj data), sent))
      /\ NoDup (map fst data)
      /\ ~ In EmptyString (map fst data)
      /\ (List.length data <= List.length (fieldPairs p))%nat
      /\ (forall name,
             name <> EmptyString ->
             assoc name data = option_map JStr (lastValue name (fieldPairs p))).
Proof.
  intros JSON_parse p itemIndex Hmode _.
  apply String.eqb_neq in Hmode.
  destruct (fields_loop (fieldPairs p) []) as (Hdup & Hempty & Hlook & Hlen).
  exists (fold_left
            (fun result '(name, value) =>
               if nonempty name then Storage.setProp name (JStr value) result
               else result)
            (fieldPairs p) []).
  split; [|split; [|split; [|split]]].
  - intros sent. unfold Storage.buildDataFromInput. rewrite Hmode.
    unfold fieldPairs. destruct (Storage.dataFields p); reflexivity.
  - apply Hdup. constructor.
  - apply Hempty. intros [].
  - exact Hlen.
  - intros name Hname. rewrite (Hlook name Hname).
    destruct (lastValue name (fieldPairs p)); reflexivity.
Qed.

(** X11.  The time to live of a record travels in the query string of the
    create and create-or-replace requests and nowhere else: [expiresAt] is
    sent exactly when it is set and not empty, [expiresMs] exactly when it is
    set and positive (zero and negative values are dropped without an error),
    and the request carries no query string at all exactly when neither is
    sent.  The two requests carry the same query string and the data alone as
    their body; the update request never carries a query string. *)
Theorem ttl_travels_in_query :
  forall (baseURL category key : string)
         (additionalFields : Storage.AdditionalFields) (data : Json),
    let create :=
      Storage.executeCreate_requestOptions baseURL category additionalFields data in
    let replace :=
      Storage.executeCreateOrReplace_requestOptions baseURL category key
        additionalFields data in
    let update := Storage.executeUpdate_requestOptions baseURL category key data in
    qs replace = qs create
    /\ qs update = None
    /\ body create = Some (JsonBody data)
    /\ body replace = Some (JsonBody data)
    /\ (forall s, queried "expiresAt" create = Some (QStr s)
                  <-> present (Storage.expiresAt additionalFields) s)
    /\ (forall ms, queried "expiresMs" create = Some (QNum ms)
                   <-> Storage.expiresMs additionalFields = Some ms /\ 0 < ms)
    /\ (qs create = None
        <-> absent (Storage.expiresAt additionalFields)
            /\ forall ms, Storage.expiresMs additionalFields = Some ms -> ms <= 0)
    /\ (forall name value,
           queried name create = Some value ->
           name = "expiresAt" \/ name = "expiresMs").
Proof.
  intros baseURL category key additionalFields data create replace update.
  subst create replace update.
  unfold queried, Storage.executeCreate_requestOptions,
    Storage.executeCreateOrReplace_requestOptions,
    Storage.executeUpdate_requestOptions, Storage.request,
    Storage.buildTtlQueryParams, present, absent.
  cbn [qs body option_map].
  destruct (Storage.expiresAt additionalFields) as [s0|];
    destruct (Storage.expiresMs additionalFields) as [ms0|];
    cbn [qsStr];
    try (destruct (nonempty s0) eqn:Hs0;
         [apply nonempty_true in Hs0 | apply nonempty_false in Hs0; subst s0]);
    try (destruct (ms0 =? 0) eqn:Hz; [apply Z.eqb_eq in Hz | apply Z.eqb_neq in Hz];
         destruct (0 <? ms0) eqn:Hp; [apply Z.ltb_lt in Hp | apply Z.ltb_ge in Hp
                                     |apply Z.ltb_lt in Hp | apply Z.ltb_ge in Hp]);
    cbn [negb andb app qsOrUndefined assoc String.eqb Ascii.eqb Bool.eqb];
    repeat split; intros;
    repeat match goal with
           | H : _ /\ _ |- _ => destruct H
           | H : _ \/ _ |- _ => destruct H
           | H : Some _ = Some _ |- _ => injection H as H
           | H : QStr _ = QStr _ |- _ => injection H as H
           | H : QNum _ = QNum _ |- _ => injection H as H
           | H : forall ms, Some ?m = Some ms -> _ |- _ => specialize (H m eq_refl)
           | H : (if (?n =? ?k)%string then _ else _) = _ |- _ =>
               let E := fresh "E" in
               destruct (n =? k)%string eqn:E; [apply String.eqb_eq in E|]
           end;
    subst; try discriminate; try congruence; try lia; auto.
Qed.

(** ** What the error normalizers always deliver *)

Lemma or_else_nonempty (o : option string) (d : string) :
  d <> EmptyString -> or_else o d <> EmptyString.
Proof.
  intros Hd. unfold or_else. destruct o as [s|]; [|exact Hd].
  destruct (nonempty s) eqn:E; [|exact Hd]. apply nonempty_true. exact E.
Qed.

Lemma apiMessageOf_nonempty (error : HttpError) :
  apiMessageOf error <> EmptyString.
Proof.
  unfold apiMessageOf. apply or_else_nonempty, or_else_nonempty. discriminate.
Qed.

Lemma local_apiMessage_nonempty (error : HttpError) :
  or_else (responseMessage error) (or_else (message error) "Unknown error")
  <> EmptyString.
Proof. apply or_else_nonempty, or_else_nonempty. discriminate. Qed.

Lemma assoc_In {A : Type} (k : string) (l : list (string * A)) (v : A) :
  assoc k l = Some v -> In (k, v) l.
Proof.
  induction l as [|[k' v'] l IH]; [discriminate|].
  cbn [assoc]. destruct (k =? k')%string eqn:E.
  - apply String.eqb_eq in E. subst k'. intros H. injection H as ->.
    left. reflexivity.
  - intros H. right. exact (IH H).
Qed.

(** Every text of the library's list says something. *)
Lemma common_errors_say_something :
  Forall (fun entry : string * string => snd entry <> EmptyString)
    N8nWorkflow.COMMON_ERRORS.
Proof.
  unfold N8nWorkflow.COMMON_ERRORS.
  repeat (apply Forall_cons; [cbn [snd]; discriminate|]). apply Forall_nil.
Qed.

Lemma setDescriptiveErrorMessage_nonempty (message : string)
    (code : option string) :
  message <> EmptyString ->
  N8nWorkflow.setDescriptiveErrorMessage message code <> EmptyString.
Proof.
  intros Hm. pose proof common_errors_say_something as Hall.
  rewrite Forall_forall in Hall.
  unfold N8nWorkflow.setDescriptiveErrorMessage.
  destruct (N8nWorkflow.commonErrorFor code) as [text|] eqn:E.
  - destruct code as [c|]; [|discriminate E].
    exact (Hall _ (assoc_In _ _ _ E)).
  - unfold N8nWorkflow.commonErrorIn.
    destruct (find _ N8nWorkflow.COMMON_ERRORS) as [[k text]|] eqn:F;
      [|exact Hm].
    apply find_some in F as [F _]. exact (Hall _ F).
Qed.

(** A message that is not empty stays so in the constructed error, and a
    description that is not empty is never delivered empty. *)
Lemma NodeApiError_new_text (error : HttpError) (message description : string)
    (httpCode : option string) (itemIndex : nat) :
  message <> EmptyString -> description <> EmptyString ->
  let e := N8nWorkflow.NodeApiError_new error message description httpCode
             itemIndex in
  apiMessageText e <> EmptyString /\ apiDescription e <> Some EmptyString.
Proof.
  intros Hm Hd e. subst e. unfold N8nWorkflow.NodeApiError_new.
  cbn [apiMessageText apiDescription]. split.
  - apply setDescriptiveErrorMessage_nonempty. exact Hm.
  - destruct (message =? description)%string; [discriminate|].
    intros H. injection H as H. exact (Hd H).
Qed.

(** Both normalizers hand the constructor a message and a description that
    are not empty. *)
Lemma handleApiError_built (error : HttpError) (itemIndex : nat)
    (operation : string) (entityType : EntityType) :
  forall e,
    e = handleApiError error itemIndex operation entityType
    \/ e = StorageLocal.handleApiError error itemIndex operation ->
    exists message description,
      e = N8nWorkflow.NodeApiError_new error message description
            (option_map toString (statusCode error)) itemIndex
      /\ message <> EmptyString /\ description <> EmptyString.
Proof.
  intros e He.
  pose proof (apiMessageOf_nonempty error) as Ha.
  pose proof (local_apiMessage_nonempty error) as Hl.
  destruct He as [-> | ->];
    unfold handleApiError, StorageLocal.handleApiError, notFoundMessages,
      conflictMessages, rateLimitMessages;
    generalize (option_map toString (statusCode error));
    destruct (statusCode error) as [c|]; intros http;
    try (split_code; destruct entityType);
    eexists; eexists; (split; [reflexivity|]);
    split; try assumption; discriminate.
Qed.

(** X12.  Whatever was caught (an error without status code being taken to
    carry no code or the name of one), the shared error normalizer and the
    one the other Storage node carries both deliver an error whose message is
    not empty and whose description, when it has one, is not empty either (it
    has none when the description would repeat the message), with the status
    code in decimal as HTTP code, or the error's own code when there is no
    status code, the item index and the original error.  The entry that
    continue-on-fail records for such an error therefore always shows a
    message. *)
Theorem api_errors_carry_text :
  forall (error : HttpError) (itemIndex : nat) (operation : string)
         (entityType : EntityType),
    (statusCode error = None -> namedCode error) ->
    (forall e,
        e = handleApiError error itemIndex operation entityType
        \/ e = StorageLocal.handleApiError error itemIndex operation ->
        apiMessageText e <> EmptyString
        /\ apiDescription e <> Some EmptyString
        /\ apiHttpCode e
           = match statusCode error with
             | Some c => Some (toString c)
             | None => N8nWorkflow.truthyString (code error)
             end
        /\ apiHttpCode e <> Some EmptyString
        /\ apiItemIndex e = itemIndex
        /\ apiCause e = error
        /\ exists text,
             text <> EmptyString
             /\ errorEntry (ApiExn e) itemIndex
                = JObj [("json", JObj [("error", JStr text)]);
                        ("pairedItem", pairedWith itemIndex)]).
Proof.
  intros error itemIndex operation entityType _ e He.
  destruct (handleApiError_built error itemIndex operation entityType e He)
    as (message & description & -> & Hm & Hd).
  destruct (NodeApiError_new_text error message description
              (option_map toString (statusCode error)) itemIndex Hm Hd)
    as [Htext Hdesc].
  assert (Hcode : apiHttpCode
                    (N8nWorkflow.NodeApiError_new error message description
                       (option_map toString (statusCode error)) itemIndex)
                  = match statusCode error with
                    | Some c => Some (toString c)
                    | None => N8nWorkflow.truthyString (code error)
                    end).
  { unfold N8nWorkflow.NodeApiError_new. cbn [apiHttpCode].
    destruct (statusCode error) as [c|] eqn:Hc.
    - rewrite <- Hc. exact (lookup_status error c Hc).
    - rewrite <- Hc. exact (lookup_no_status error Hc). }
  split; [exact Htext|]. split; [exact Hdesc|]. split; [exact Hcode|].
  split; [|split; [reflexivity | split; [reflexivity|]]].
  - rewrite Hcode. destruct (statusCode error) as [c|].
    + rewrite <- (proj1 (toString_no_common_error c)).
      unfold N8nWorkflow.truthyString.
      destruct (nonempty (toString c)) eqn:E; [|discriminate].
      intros H. injection H as H. apply nonempty_true in E. exact (E H).
    + unfold N8nWorkflow.truthyString. destruct (code error) as [c|];
        [|discriminate].
      destruct (nonempty c) eqn:E; [|discriminate].
      intros H. injection H as H. apply nonempty_true in E. exact (E H).
  - eexists. split; [exact Htext | reflexivity].
Qed.

(** The message either normalizer delivers for an error that is no failure
    below HTTP, for the labels in use: the message of its table. *)
Lemma shared_message (error : HttpError) (itemIndex : nat) (operation : string)
    (entityType : EntityType) :
  In operation operationLabels ->
  (forall text, ~ networkFailure error text) ->
  apiMessageText (handleApiError error itemIndex operation entityType)
  = match statusCode error with
    | Some 400 => "Invalid request"
    | Some 401 => "Invalid API key"
    | Some 404 => fst (notFoundMessages entityType)
    | Some 409 => fst (conflictMessages (apiMessageOf error) entityType)
    | Some 429 => rateLimitMessages entityType
    | Some 500 | Some 502 | Some 503 => "Server returned an unexpected response"
    | _ => "Could not " +++ operation
    end.
Proof.
  intros Hop Hplain.
  pose proof labels_name_no_common_error as Hl. rewrite Forall_forall in Hl.
  destruct (Hl operation Hop) as [Hscan _].
  assert (H : forall message description,
             N8nWorkflow.commonErrorIn message = None ->
             apiMessageText
               (N8nWorkflow.NodeApiError_new error message description
                  (option_map toString (statusCode error)) itemIndex)
             = message).
  { intros message description Hs.
    exact (proj1 (NodeApiError_new_shows error message description itemIndex
                    Hplain Hs)). }
  unfold handleApiError. revert H.
  generalize (option_map toString (statusCode error)).
  destruct (statusCode error) as [c|]; intros http H;
    try (split_code; destruct entityType);
    apply H; try exact Hscan; reflexivity.
Qed.

Lemma local_message (error : HttpError) (itemIndex : nat) (operation : string) :
  In operation operationLabels ->
  (forall text, ~ networkFailure error text) ->
  apiMessageText (StorageLocal.handleApiError error itemIndex operation)
  = match statusCode error with
    | Some 400 => "Invalid request"
    | Some 401 => "Invalid API key"
    | Some 404 => "Record not found"
    | Some 409 => "Record already exists"
    | Some 429 => "Storage limit reached"
    | Some 500 | Some 502 | Some 503 => "Server error"
    | _ => "Failed to " +++ operation
    end.
Proof.
  intros Hop Hplain.
  pose proof labels_name_no_common_error as Hl. rewrite Forall_forall in Hl.
  destruct (Hl operation Hop) as [_ Hscan].
  assert (H : forall message description,
             N8nWorkflow.commonErrorIn message = None ->
             apiMessageText
               (N8nWorkflow.NodeApiError_new error message description
                  (option_map toString (statusCode error)) itemIndex)
             = message).
  { intros message description Hs.
    exact (proj1 (NodeApiError_new_shows error message description itemIndex
                    Hplain Hs)). }
  unfold StorageLocal.handleApiError. revert H.
  generalize (option_map toString (statusCode error)).
  destruct (statusCode error) as [c|]; intros http H;
    try split_code;
    apply H; try exact Hscan; reflexivity.
Qed.

(** X13.  The two Storage nodes word a failure alike exactly for the status
    codes 400, 401, 404, 409 and 429 and for failures below HTTP.  For an
    error with a status code and any operation label in use, the node that
    carries its own normalizer and the node that uses the shared one deliver
    the same message exactly when the code is one of the five; for the other
    codes the messages differ (Server error against Server returned an
    unexpected response, Failed to against Could not).  An error without
    status code that carries a common error code gets the library's text for
    that code from both; any other error without status code, carrying no
    code or the name of one, gets Failed to from the one and Could not from
    the other. *)
Theorem storage_normalizers_agree :
  forall (error : HttpError) (itemIndex : nat) (operation : string),
    In operation operationLabels ->
    let own :=
      apiMessageText (StorageLocal.handleApiError error itemIndex operation) in
    let shared :=
      apiMessageText (handleApiError error itemIndex operation EntRecord) in
    (forall c, statusCode error = Some c ->
               (own = shared <-> In c [400; 401; 404; 409; 429]))
    /\ (forall text, networkFailure error text -> own = text /\ shared = text)
    /\ (statusCode error = None -> namedCode error ->
        (forall text, ~ networkFailure error text) ->
        own = "Failed to " +++ operation
        /\ shared = "Could not " +++ operation
        /\ own <> shared).
Proof.
  intros error itemIndex operation Hop own shared. subst own shared.
  split; [|split].
  - intros c Hc.
    rewrite (local_message error itemIndex operation Hop (status_plain error c Hc)).
    rewrite (shared_message error itemIndex operation EntRecord Hop
               (status_plain error c Hc)).
    rewrite Hc. cbn [In notFoundMessages conflictMessages rateLimitMessages fst].
    split.
    + split_code; cbn [String.append]; intros H; try discriminate H; tauto.
    + intros [<- | [<- | [<- | [<- | [<- | []]]]]]; reflexivity.
  - intros text [Hn Hcode].
    unfold handleApiError, StorageLocal.handleApiError. rewrite Hn.
    unfold N8nWorkflow.NodeApiError_new, N8nWorkflow.setDescriptiveErrorMessage.
    cbn [apiMessageText option_map N8nWorkflow.truthyString].
    rewrite Hcode. split; reflexivity.
  - intros Hn _ Hplain.
    rewrite (local_message error itemIndex operation Hop Hplain).
    rewrite (shared_message error itemIndex operation EntRecord Hop Hplain).
    rewrite Hn. split; [reflexivity | split; [reflexivity|]].
    cbn [String.append]. discriminate.
Qed.

(** ** The simplified job status *)

(** X14.  With Simplify on, a job status object is reduced to at most five
    properties, all copied from the response: id and status always (undefined
    when the response lacks them), processingTimeInSeconds exactly when the
    response defines it (a zero is kept), files and error exactly when they
    are truthy.  Nothing else of the response is passed on, and one request
    is sent.  A response that is null ends the item with the normalized
    error of the operation. *)
Theorem simplified_job_status :
  forall (this : IExecuteFunctions) (p : Convert.Parameters) (itemIndex : nat)
         (sent : list Request),
    let request :=
      Convert.executeGetResult_requestOptions (getBaseUrl (getCredentials this))
        (Convert.jobId p) in
    Convert.jobId p <> EmptyString ->
    Convert.simplify p = true ->
    (forall fields,
        helpers this sent request = Resolve (JObj fields) ->
        exists out,
          Convert.executeGetResult this p itemIndex sent
          = (Returned (JObj out), sent ++ [request])
          /\ NoDup (map fst out)
          /\ incl (map fst out)
               ["id"; "status"; "processingTimeInSeconds"; "files"; "error"]
          /\ (forall name value,
                 assoc name out = Some value -> value = field name fields)
          /\ assoc "id" out = Some (field "id" fields)
          /\ assoc "status" out = Some (field "status" fields)
          /\ (assoc "processingTimeInSeconds" out = None
              <-> field "processingTimeInSeconds" fields = JUndefined)
          /\ (assoc "files" out = None <-> truthy (field "files" fields) = false)
          /\ (assoc "error" out = None <-> truthy (field "error" fields) = false))
    /\
    (helpers this sent request = Resolve JNull ->
     exists error,
       Convert.executeGetResult this p itemIndex sent
       = (Thrown (ApiExn error), sent ++ [request])
       /\ apiMessageText error = "Could not get job result"
       /\ apiHttpCode error = None).
Proof.
  intros this p itemIndex sent request Hjob Hsimplify.
  apply nonempty_true in Hjob.
  split.
  - intros fields Hreply.
    exists (match Convert.simplified (field "id" fields) (field "status" fields)
                    (field "processingTimeInSeconds" fields)
                    (field "files" fields) (field "error" fields) with
            | JObj out => out
            | _ => []
            end).
    split.
    + unfold Convert.executeGetResult. rewrite Hjob, Hsimplify. cbn [negb].
      unfold try_catch, bind, httpRequestWithAuthentication, httpRequest.
      fold request. rewrite Hreply. cbn [getProp]. unfold field.
      destruct (assoc "id" fields), (assoc "status" fields),
        (assoc "processingTimeInSeconds" fields), (assoc "files" fields),
        (assoc "error" fields); reflexivity.
    + unfold Convert.simplified.
      destruct (field "processingTimeInSeconds" fields) eqn:Et;
        destruct (truthy (field "files" fields)) eqn:Ef;
        destruct (truthy (field "error" fields)) eqn:Ee;
        cbn [app map fst assoc String.eqb Ascii.eqb Bool.eqb];
        (split; [repeat constructor; cbn [In]; intuition discriminate|]);
        (split; [intros k Hk; cbn [In] in *; tauto|]);
        (split;
         [intros name value;
          repeat match goal with
                 | |- context [(name =? ?k)%string] =>
                     let E := fresh "E" in
                     destruct (name =? k)%string eqn:E;
                       [apply String.eqb_eq in E; subst name;
                        intros H; injection H as <-; congruence|]
                 end; discriminate|]);
        repeat split; intros; try discriminate; try congruence.
  - intros Hreply. eexists. split.
    + unfold Convert.executeGetResult. rewrite Hjob, Hsimplify. cbn [negb].
      unfold try_catch, bind, httpRequestWithAuthentication, httpRequest.
      fold request. rewrite Hreply. reflexivity.
    + split; reflexivity.
Qed.

(** ** Responses outside the list shapes *)

Lemma single_fetch_edge_run (server : Server) (request : Request)
    (normalize : HttpError -> NodeApiError) :
  single_fetch_edges server
    (try_catch (response <- httpRequest server request ;; itemsOf response)
       (fun error => throw (ApiExn (normalize (as_http error)))))
    request normalize.
Proof.
  intros response sent Hreply. split; [|split].
  - intros [-> | ->]; eexists;
      (split;
       [unfold try_catch, bind, httpRequest; rewrite Hreply; reflexivity
       |split; reflexivity]).
  - intros H. unfold try_catch, bind, httpRequest. rewrite Hreply.
    destruct response; try contradiction; reflexivity.
  - intros fields items -> Hitems. unfold try_catch, bind, httpRequest.
    rewrite Hreply. cbn [itemsOf]. rewrite Hitems.
    destruct (truthy items); reflexivity.
Qed.

(** X15.  The single bounded listings of the three nodes treat a response
    outside the list shapes alike: null and undefined end the item with the
    normalized error of a failure without status code; a boolean, a number
    or a string gives an empty list; a wrapper whose items property is not
    an array gives that property unchanged when it is truthy and an empty
    list when it is falsy.  In every case exactly one request was sent. *)
Theorem malformed_list_responses :
  forall (this : IExecuteFunctions) (itemIndex : nat) (fuel : nat),
    (forall category options limit,
        single_fetch_edges (helpers this)
          (Files.executeFileGetMany fuel this itemIndex category false options limit)
          (Files.getMany_requestOptions (getBaseUrl (getCredentials this)) category
             (Files.getMany_single_qs options limit))
          (fun cause => handleApiError cause itemIndex "get many files" EntFile))
    /\
    (forall p,
        Storage.returnAll p = false -> Storage.aggregate p = false ->
        single_fetch_edges (helpers this)
          (Storage.executeRecordGetMany fuel this p itemIndex)
          (Storage.recordGetMany_requestOptions (getBaseUrl (getCredentials this))
             (Storage.category p)
             (Storage.recordGetMany_single_qs (Storage.additionalFields p)
                (Storage.page p) (Storage.limit p) false))
          (fun cause => handleApiError cause itemIndex "get many records" EntRecord)
        /\
        single_fetch_edges (helpers this)
          (Storage.executeCategoryGetMany fuel this p itemIndex)
          (Storage.categoryGetMany_requestOptions
             (getBaseUrl (getCredentials this))
             [("page", QNum (Storage.page p)); ("limit", QNum (Storage.limit p))])
          (fun cause => handleApiError cause itemIndex "get categories" EntRecord))
    /\
    (forall category additionalFields limit,
        single_fetch_edges (helpers this)
          (StorageLocal.executeRecordGetMany fuel this itemIndex category false
             additionalFields limit)
          (StorageLocal.recordGetMany_requestOptions category
             (StorageLocal.recordGetMany_qs additionalFields 1 limit))
          (fun cause =>
             StorageLocal.handleApiError cause itemIndex "get many records")).
Proof.
  intros this itemIndex fuel. split; [|split].
  - intros category options limit.
    apply (single_fetch_edge_run (helpers this) _
             (fun cause => handleApiError cause itemIndex "get many files" EntFile)).
  - intros p Hall Hagg. split.
    + unfold Storage.executeRecordGetMany. rewrite Hall, Hagg.
      apply (single_fetch_edge_run (helpers this) _
               (fun cause =>
                  handleApiError cause itemIndex "get many records" EntRecord)).
    + unfold Storage.executeCategoryGetMany. rewrite Hall, Hagg.
      apply (single_fetch_edge_run (helpers this) _
               (fun cause =>
                  handleApiError cause itemIndex "get categories" EntRecord)).
  - intros category additionalFields limit.
    apply (single_fetch_edge_run (helpers this) _
             (fun cause =>
                StorageLocal.handleApiError cause itemIndex "get many records")).
Qed.

(** ** The two ways to submit a conversion *)

(** X16.  The two convert submissions describe a job alike.  The JSON body
    of the URL submission has, after sourceUrl, the same properties in the
    same order as the form fields of the file submission, with the same
    values: languages and outputs joined by commas, response defaulting to
    persisted and models to auto, webhookUrl and reference only when not
    empty.  Only jobExpiryInMinutes differs in kind: a number in the JSON
    body, its decimal digits in the form. *)
Theorem convert_submissions_agree :
  forall (sourceUrl : string) (languages outputs : list string)
         (additionalFields : Convert.ConvertAdditionalFields),
    let body :=
      Convert.submitViaUrl_body sourceUrl languages outputs additionalFields in
    let formFields :=
      Convert.submitViaBinary_formFields languages outputs additionalFields in
    map fst body = "sourceUrl" :: map fst formFields
    /\ NoDup (map fst body)
    /\ assoc "sourceUrl" body = Some (JStr sourceUrl)
    /\ (forall name value,
           In (name, value) formFields -> name <> "jobExpiryInMinutes" ->
           assoc name body = Some (JStr value))
    /\ (forall value,
           In ("jobExpiryInMinutes", value) formFields ->
           exists n, Convert.jobExpiryInMinutes additionalFields = Some n
                     /\ value = toString n
                     /\ assoc "jobExpiryInMinutes" body = Some (JNum n))
    /\ assoc "languages" body = Some (JStr (join "," languages))
    /\ (absent (Convert.response additionalFields) ->
        assoc "response" body = Some (JStr "persisted"))
    /\ (absent (Convert.models additionalFields) ->
        assoc "models" body = Some (JStr "auto")).
Proof.
  intros sourceUrl languages outputs additionalFields body formFields.
  subst body formFields.
  unfold Convert.submitViaUrl_body, Convert.submitViaBinary_formFields,
    Convert.bodyStr.
  destruct (Convert.webhookUrl additionalFields) as [w|];
    [destruct (nonempty w)|];
    (destruct (Convert.reference additionalFields) as [r|];
     [destruct (nonempty r)|]);
    destruct (Convert.jobExpiryInMinutes additionalFields) as [n|];
    cbn [app map fst assoc String.eqb Ascii.eqb Bool.eqb In];
    (split; [reflexivity|]);
    (split; [repeat constructor; cbn [In]; intuition discriminate|]);
    (split; [reflexivity|]);
    (split;
     [intros name value Hin Hne;
      repeat match goal with
             | H : _ \/ _ |- _ => destruct H
             | H : (_, _) = (_, _) |- _ => injection H as <- <-
             | H : False |- _ => destruct H
             end;
      try reflexivity; exfalso; apply Hne; reflexivity|]);
    (split;
     [intros value Hin;
      repeat match goal with
             | H : _ \/ _ |- _ => destruct H
             | H : (_, _) = (_, _) |- _ => try discriminate H; injection H as <-
             | H : False |- _ => destruct H
             end;
      eexists; repeat split|]);
    (split; [reflexivity|]);
    (split; intros Habs; rewrite (or_else_absent _ _ Habs); reflexivity).
Qed.

(** ** Reading the other bodies back *)

Lemma formFields_quotable (languages outputs : list string)
    (additionalFields : Convert.ConvertAdditionalFields) :
  Forall (fun field => quotable (fst field) = true)
    (Convert.submitViaBinary_formFields languages outputs additionalFields).
Proof.
  unfold Convert.submitViaBinary_formFields.
  destruct (Convert.webhookUrl additionalFields) as [w|];
    [destruct (nonempty w)|];
    (destruct (Convert.reference additionalFields) as [r|];
     [destruct (nonempty r)|]);
    destruct (Convert.jobExpiryInMinutes additionalFields) as [n|];
    cbn [app]; repeat constructor.
Qed.

Lemma textParts_readable (boundary : string) (fields : list (string * string)) :
  Forall (fun field =>
            quotable (fst field) = true
            /\ delimiterFree boundary (Buffer_from (snd field)) = true) fields ->
  Forall (fun part => readable boundary part = true) (map textPart fields).
Proof.
  intros H. apply Forall_map. eapply Forall_impl; [|exact H].
  intros [name value] [Hq Hd]. unfold readable, textPart.
  cbn [partName partFilename partContentType partPayload fst snd] in *.
  rewrite Hq, Hd. reflexivity.
Qed.

(** X17.  The body of a URL upload and the body of a convert file submission
    are read back as they were built.  When the random suffix of the boundary
    holds no carriage return and the delimiter (CRLF, two dashes, the
    boundary) occurs in no value, the URL upload body reads as the sourceUrl
    field followed by the extra fields with a value that is not empty (field
    names without double quote, carriage return or line feed); the convert
    body reads as its form fields in order followed by the file part with the
    same bytes, filename and content type (filename without double quote,
    carriage return or line feed, content type without carriage return, line
    feed or outer whitespace, no delimiter in the file bytes). *)
Theorem url_and_convert_bodies_round_trip :
  forall (now : Z) (random36 : string),
    let boundary := newBoundary now random36 in
    noCR (Buffer_from random36) = true ->
    (forall sourceUrl additionalFields,
        let built :=
          Files.buildUrlMultipartBody now random36 sourceUrl additionalFields in
        delimiterFree boundary (Buffer_from sourceUrl) = true ->
        Forall (fun field =>
                  quotable (fst field) = true
                  /\ delimiterFree boundary (Buffer_from (snd field)) = true)
               additionalFields ->
        snd built = boundary
        /\ parseMultipart boundary (fst built)
           = Some (textPart ("sourceUrl", sourceUrl)
                   :: map textPart (emitted additionalFields)))
    /\
    (forall languages outputs additionalFields fileBuffer fileName mimeType,
        let formFields :=
          Convert.submitViaBinary_formFields languages outputs additionalFields in
        quotable fileName = true ->
        headerValue mimeType = true ->
        delimiterFree boundary fileBuffer = true ->
        Forall (fun field =>
                  delimiterFree boundary (Buffer_from (snd field)) = true)
               formFields ->
        parseMultipart boundary
          (Convert.submitViaBinary_bodyBuffer boundary formFields fileBuffer
             fileName mimeType)
        = Some (map textPart formFields ++ [filePart fileName mimeType fileBuffer])).
Proof.
  intros now random36 boundary Hr.
  assert (Hb : noCR (Buffer_from boundary) = true)
    by (apply newBoundary_noCR; exact Hr).
  split.
  - intros sourceUrl additionalFields built Hsrc Hfields. subst built.
    rewrite buildUrlMultipartBody_render. cbn [fst snd].
    split; [reflexivity|].
    apply parseMultipart_render; [exact Hb|].
    apply (textParts_readable boundary
             (("sourceUrl", sourceUrl) :: emitted additionalFields)).
    constructor; [split; [reflexivity | exact Hsrc]|].
    apply Forall_forall. intros [name value] Hin.
    apply emitted_In in Hin as [Hin _].
    rewrite Forall_forall in Hfields. exact (Hfields _ Hin).
  - intros languages outputs additionalFields fileBuffer fileName mimeType
      formFields Hf Ht Hd Hfields.
    rewrite submitViaBinary_bodyBuffer_render.
    apply parseMultipart_render; [exact Hb|].
    apply Forall_app. split.
    + apply textParts_readable.
      pose proof (formFields_quotable languages outputs additionalFields) as Hq.
      fold formFields in Hq. rewrite Forall_forall in *.
      intros field Hin. split; [apply Hq | apply Hfields]; exact Hin.
    + constructor; [|constructor].
      unfold readable, filePart.
      cbn [partName partFilename partContentType partPayload].
      rewrite Hf, Ht, Hd. reflexivity.
Qed.

(** ** Credentials on every request *)

(** X18.  No request leaves a node without credentials.  Every request
    descriptor the three nodes build either goes through
    [httpRequestWithAuthentication] under the credential name ainoflowApi and
    sets no Authorization header of its own, or (the two binary uploads, sent
    with the plain [httpRequest]) carries the header Authorization: Bearer
    with the API key of the credentials and an absolute URL that starts with
    the base URL of the same credentials, leaving [baseURL] unset. *)
Theorem every_request_authenticated :
  forall (class : RequestClass) (request : Request),
    builds class request ->
    (authentication request = Some "ainoflowApi"
     /\ assoc "Authorization" (headers request) = None)
    \/ (authentication request = None
        /\ baseURL request = None
        /\ exists (credentials : Credentials) (path : string),
             assoc "Authorization" (headers request)
             = Some ("Bearer " +++ apiKey credentials)
             /\ url request = getBaseUrl credentials +++ path).
Proof.
  intros class request H.
  destruct H;
    try (left; split; reflexivity);
    right; (split; [reflexivity|]); (split; [reflexivity|]);
    exists credentials; eexists; split; reflexivity.
Qed.

(** ** Optional query parameters *)

Lemma assoc_app {A : Type} (k : string) (a b : list (string * A)) :
  assoc k (a ++ b) = match assoc k a with
                     | Some v => Some v
                     | None => assoc k b
                     end.
Proof.
  induction a as [|[k' v] a IH]; [reflexivity|].
  cbn [app assoc]. destruct (k =? k')%string; [reflexivity | exact IH].
Qed.

Lemma qsStr_cases (k : string) (v : option string) :
  (exists s, present v s /\ qsStr k v = [(k, QStr s)])
  \/ (absent v /\ qsStr k v = []).
Proof.
  unfold qsStr, present, absent. destruct v as [s|]; [|right; auto].
  destruct (nonempty s) eqn:E.
  - left. exists s. apply nonempty_true in E. auto.
  - right. apply nonempty_false in E. subst s. auto.
Qed.

Lemma qsNum_cases (k : string) (v : option Z) :
  (exists n, v = Some n /\ n <> 0 /\ qsNum k v = [(k, QNum n)])
  \/ ((v = None \/ v = Some 0) /\ qsNum k v = []).
Proof.
  unfold qsNum. destruct v as [n|]; [|right; auto].
  destruct (n =? 0) eqn:E.
  - right. apply Z.eqb_eq in E. subst n. auto.
  - left. exists n. apply Z.eqb_neq in E. auto.
Qed.

Lemma qsBool_cases (k : string) (v : option bool) :
  (v = Some true /\ qsBool k v = [(k, QBool true)])
  \/ (v <> Some true /\ qsBool k v = []).
Proof.
  unfold qsBool. destruct v as [[|]|]; [left; auto | right | right];
    split; try reflexivity; discriminate.
Qed.

Ltac query_cases :=
  repeat match goal with
         | |- context [qsStr ?k ?v] =>
             let s := fresh "s" in
             let Hv := fresh "Hv" in
             let E := fresh "E" in
             destruct (qsStr_cases k v) as [(s & Hv & E) | (Hv & E)];
             rewrite E; clear E
         | |- context [qsNum ?k ?v] =>
             let n := fresh "n" in
             let Hv := fresh "Hv" in
             let Hn := fresh "Hn" in
             let E := fresh "E" in
             destruct (qsNum_cases k v) as [(n & Hv & Hn & E) | (Hv & E)];
             rewrite E; clear E
         | |- context [qsBool ?k ?v] =>
             let Hv := fresh "Hv" in
             let E := fresh "E" in
             destruct (qsBool_cases k v) as [(Hv & E) | (Hv & E)];
             rewrite E; clear E
         end.

Ltac tidy_tac :=
  split;
  [repeat constructor; cbn [In]; intuition discriminate
  |repeat constructor; cbn [snd];
   try discriminate;
   match goal with
   | H : present _ ?s |- QStr ?s <> QStr EmptyString =>
       intros E; injection E as E; exact (proj2 H E)
   end].

(** X19.  Optional query parameters are sent only when they are set.  The
    query string of a file listing has distinct keys and carries neither an
    empty text nor a false flag; the limit is always there; prefix, sortBy
    and sortOrder are there exactly when set and not empty, aggregate exactly
    when it is on, and the offset of a bounded listing exactly when it is set
    and not zero, while every page request of a return-all listing carries
    its offset, zero included, and the limit 1000.  The request for a
    download URL carries a query string exactly when an expiry other than
    zero is given. *)
Theorem optional_parameters_only_when_set :
  forall (options : Files.GetManyAdditionalFields) (limit offset : Z),
    let single := Files.getMany_single_qs options limit in
    let page := Files.getMany_page_qs options offset in
    tidy single /\ tidy page
    /\ assoc "limit" single = Some (QNum limit)
    /\ assoc "limit" page = Some (QNum 1000)
    /\ assoc "offset" page = Some (QNum offset)
    /\ (forall n, assoc "offset" single = Some (QNum n)
                  <-> Files.offset options = Some n /\ n <> 0)
    /\ (forall s, assoc "prefix" single = Some (QStr s)
                  <-> present (Files.prefix options) s)
    /\ (forall s, assoc "sortBy" single = Some (QStr s)
                  <-> present (Files.sortBy options) s)
    /\ (forall s, assoc "sortOrder" single = Some (QStr s)
                  <-> present (Files.sortOrder options) s)
    /\ (assoc "aggregate" single = Some (QBool true)
        <-> Files.aggregate options = Some true)
    /\ (forall baseURL category key expirySeconds,
           qs (Files.executeGetUrl_requestOptions baseURL category key expirySeconds)
           = None
           <-> expirySeconds = None \/ expirySeconds = Some 0).
Proof.
  intros options limit offset single page. subst single page.
  unfold Files.getMany_single_qs, Files.getMany_page_qs, tidy.
  split; [|split].
  - query_cases; cbn [app map fst]; tidy_tac.
  - query_cases; cbn [app map fst]; tidy_tac.
  - split; [reflexivity|]. split; [reflexivity|]. split; [reflexivity|].
    split; [|split; [|split; [|split; [|split]]]].
    + intros n0. query_cases;
        cbn [app assoc String.eqb Ascii.eqb Bool.eqb]; unfold present, absent in *;
        split; intros H;
        repeat match goal with
               | H : _ /\ _ |- _ => destruct H
               | H : _ \/ _ |- _ => destruct H
               end;
        try discriminate; try congruence;
        try (injection H as <-; split; [assumption | assumption]).
    + intros s0. query_cases;
        cbn [app assoc String.eqb Ascii.eqb Bool.eqb]; unfold present, absent in *;
        split; intros H;
        repeat match goal with
               | H : _ /\ _ |- _ => destruct H
               | H : _ \/ _ |- _ => destruct H
               end;
        try discriminate; try congruence;
        try (injection H as <-; split; assumption).
    + intros s0. query_cases;
        cbn [app assoc String.eqb Ascii.eqb Bool.eqb]; unfold present, absent in *;
        split; intros H;
        repeat match goal with
               | H : _ /\ _ |- _ => destruct H
               | H : _ \/ _ |- _ => destruct H
               end;
        try discriminate; try congruence;
        try (injection H as <-; split; assumption).
    + intros s0. query_cases;
        cbn [app assoc String.eqb Ascii.eqb Bool.eqb]; unfold present, absent in *;
        split; intros H;
        repeat match goal with
               | H : _ /\ _ |- _ => destruct H
               | H : _ \/ _ |- _ => destruct H
               end;
        try discriminate; try congruence;
        try (injection H as <-; split; assumption).
    + query_cases;
        cbn [app assoc String.eqb Ascii.eqb Bool.eqb];
        split; intros H; try discriminate; try congruence; try reflexivity;
        try assumption.
    + intros baseURL category key expirySeconds.
      unfold Files.executeGetUrl_requestOptions. cbn [qs].
      query_cases; cbn [qsOrUndefined]; split; intros H;
        try discriminate; try reflexivity; try assumption.
      destruct H as [H | H]; congruence.
Qed.

(** ** What a driver can fail with *)

Lemma rethrow_node_error (e : Exn) (itemIndex : nat) :
  node_error (rethrow e itemIndex).
Proof. destruct e; exact I. Qed.

Lemma item_loop_thrown (cof : bool) (process : nat -> M Json)
    (outputs : Json -> nat -> list Json) (remaining : nat) :
  forall (itemIndex : nat) (returnData : list Json) (sent sent' : list Request)
         (e : Exn),
    item_loop cof process outputs remaining itemIndex returnData sent
    = (Thrown e, sent') ->
    cof = false /\ node_error e.
Proof.
  induction remaining as [|remaining IH];
    intros itemIndex returnData sent sent' e H.
  - discriminate H.
  - cbn [item_loop] in H. unfold bind at 1 in H. unfold try_catch, bind in H.
    destruct (process itemIndex sent) as [[r | e0 |] s0].
    + cbn [ret] in H. exact (IH _ _ _ _ _ H).
    + destruct cof.
      * cbn [ret] in H. exact (IH _ _ _ _ _ H).
      * cbn [throw] in H. injection H as <- <-.
        split; [reflexivity | apply rethrow_node_error].
    + discriminate H.
Qed.

Lemma driver_thrown (cof : bool) (process : nat -> M Json)
    (outputs : Json -> nat -> list Json)
    (execute : list Json -> M (list (list Json))) :
  (forall items sent,
      execute items sent
      = bind (item_loop cof process outputs (List.length items) O [])
          (fun returnData => ret [returnData]) sent) ->
  fails_with_node_errors_only cof execute.
Proof.
  intros Hexec items sent sent' e H. rewrite Hexec in H. unfold bind in H.
  destruct (item_loop cof process outputs (List.length items) O [] sent)
    as [[r | e0 |] s0] eqn:E.
  - discriminate H.
  - injection H as <- <-. exact (item_loop_thrown _ _ _ _ _ _ _ _ _ E).
  - discriminate H.
Qed.

(** X20.  What the drivers of the three nodes can fail with.  With
    continue-on-fail on, a run never ends in an error, whatever the items,
    the handlers and the service do.  With continue-on-fail off, the error of
    a run is always a [NodeApiError] or a [NodeOperationError]: any other
    value a handler throws reaches the caller wrapped in a
    [NodeOperationError]. *)
Theorem drivers_fail_with_node_errors_only :
  forall (this : IExecuteFunctions) (host : Host) (fuel : nat),
    (forall params,
        fails_with_node_errors_only (continueOnFail this)
          (Files.execute fuel this host params))
    /\ (forall params,
           fails_with_node_errors_only (continueOnFail this)
             (Convert.execute this host params))
    /\ (forall JSON_parse params,
           fails_with_node_errors_only (continueOnFail this)
             (Storage.execute fuel this JSON_parse params)).
Proof.
  intros this host fuel. split; [|split].
  - intros params.
    apply driver_thrown
      with (process := Files.responseDataOf fuel this host params
                         (Files.resource (params O)) (Files.operation (params O)))
           (outputs := Files.outputsOf).
    intros items sent. unfold Files.execute, bind.
    rewrite Files_execute_loop_item_loop. reflexivity.
  - intros params.
    apply driver_thrown
      with (process := Convert.responseDataOf this host params
                         (Convert.operation (params O)))
           (outputs := fun responseData itemIndex =>
                         [JObj [("json", responseData); pairedItem itemIndex]]).
    intros items sent. unfold Convert.execute, bind.
    rewrite Convert_execute_loop_item_loop. reflexivity.
  - intros JSON_parse params.
    apply driver_thrown
      with (process := Storage.responseDataOf fuel this JSON_parse params
                         (Storage.resource (params O))
                         (Storage.operation (params O)))
           (outputs := Storage.outputsOf).
    intros items sent. unfold Storage.execute, bind.
    rewrite Storage_execute_loop_item_loop. reflexivity.
Qed.

(** ** Uploads by input source *)

Lemma emitted_additionalFieldsOf (expiresAt : option string) :
  emitted (Files.additionalFieldsOf expiresAt) = Files.additionalFieldsOf expiresAt.
Proof.
  unfold Files.additionalFieldsOf, emitted. destruct expiresAt as [e|]; [|reflexivity].
  destruct (nonempty e) eqn:E; [|reflexivity]. cbn [filter snd]. rewrite E.
  reflexivity.
Qed.

Ltac send_once :=
  intros sent; unfold try_catch, httpRequestWithAuthentication, httpRequest;
  match goal with
  | |- context [match ?server sent ?request with _ => _ end] =>
      destruct (server sent request)
  end; reflexivity.

(** X21.  Uploads are routed by the input source alone, and each one that
    has its input is a single request.  With the input source url and a
    source URL, file create sends one POST and create-or-replace one PUT
    through the authenticated helper, the body holding the sourceUrl field;
    with any other input source they ask the host for the binary property
    and, when the host delivers it, send it as the file part, with the plain
    helper; when the host does not deliver it (the item has no such property,
    or its content cannot be read) they throw the host's error as it is and
    send nothing.  Create goes to the category path, extended by the key when
    one is given, create-or-replace to the path of category and key; the
    expiresAt field is a form field of the body exactly when it is set and
    not empty.  A conversion with languages and outputs selected is submitted
    the same way: as JSON to submit-url for the input source url, as a
    multipart body to submit-file for any other, and not at all when the host
    does not deliver the binary property. *)
Theorem uploads_route_by_input_source :
  forall (this : IExecuteFunctions) (host : Host) (itemIndex : nat),
    let same := fun response : Json => response in
    let credentials := getCredentials this in
    let boundary :=
      newBoundary (Date_now host itemIndex) (Math_random36 host itemIndex) in
    let file := fun (binaryData : IBinaryData) (fileBuffer : list byte) =>
      filePart (or_else (fileName binaryData) "file")
        (or_else (mimeType binaryData) "application/octet-stream")
        fileBuffer in
    (forall p : Files.Parameters,
        let created :=
          Files.executeCreate_url (Files.category p) (Files.createOptions p) in
        let replaced :=
          Files.executeCreateOrReplace_url (Files.category p) (Files.keyParam p) in
        let createFields :=
          map textPart
            (Files.additionalFieldsOf
               (Files.create_expiresAt (Files.createOptions p))) in
        let replaceFields :=
          map textPart
            (Files.additionalFieldsOf (Files.createOrReplaceOptions_expiresAt p)) in
        let byUrl := fun error =>
          handleApiError error itemIndex "upload file from URL" EntFile in
        let byFile := fun error =>
          handleApiError error itemIndex "upload file" EntFile in
        (Files.inputSource p = "url" -> Files.sourceUrl p <> EmptyString ->
         let source := textPart ("sourceUrl", Files.sourceUrl p) in
         one_request (helpers this) (Files.executeCreate this host p itemIndex)
           (Files.uploadViaUrl_requestOptions (getBaseUrl credentials) created POST
              (render boundary (source :: createFields)) boundary)
           same byUrl
         /\ one_request (helpers this)
              (Files.executeCreateOrReplace this host p itemIndex)
              (Files.uploadViaUrl_requestOptions (getBaseUrl credentials) replaced
                 PUT (render boundary (source :: replaceFields)) boundary)
              same byUrl)
        /\
        (Files.inputSource p <> "url" ->
         (forall binaryData fileBuffer,
             delivered (Files.binaryProperty p) binaryData fileBuffer ->
             one_request (helpers this) (Files.executeCreate this host p itemIndex)
               (Files.uploadViaBinary_requestOptions credentials created POST
                  (render boundary (file binaryData fileBuffer :: createFields))
                  boundary)
               same byFile
             /\ one_request (helpers this)
                  (Files.executeCreateOrReplace this host p itemIndex)
                  (Files.uploadViaBinary_requestOptions credentials replaced PUT
                     (render boundary
                        (file binaryData fileBuffer :: replaceFields))
                     boundary)
                  same byFile)
         /\
         (forall error,
             withheld (Files.binaryProperty p) error ->
             stopped_by (Files.executeCreate this host p itemIndex) error
             /\ stopped_by (Files.executeCreateOrReplace this host p itemIndex)
                  error)))
    /\
    (forall p : Convert.Parameters,
        Convert.languages p <> [] -> Convert.outputs p <> [] ->
        (Convert.inputSource p = "url" -> Convert.sourceUrl p <> EmptyString ->
         one_request (helpers this) (Convert.executeConvert this host p itemIndex)
           (Convert.submitViaUrl_requestOptions (getBaseUrl credentials)
              (Convert.submitViaUrl_body (Convert.sourceUrl p)
                 (Convert.languages p) (Convert.outputs p)
                 (Convert.additionalFields p)))
           same
           (fun error =>
              handleApiError error itemIndex "submit document via URL" EntJob))
        /\
        (Convert.inputSource p <> "url" ->
         (forall binaryData fileBuffer,
             delivered (Convert.binaryProperty p) binaryData fileBuffer ->
             one_request (helpers this)
               (Convert.executeConvert this host p itemIndex)
               (Convert.submitViaBinary_requestOptions credentials
                  (render boundary
                     (map textPart
                        (Convert.submitViaBinary_formFields (Convert.languages p)
                           (Convert.outputs p) (Convert.additionalFields p))
                      ++ [file binaryData fileBuffer]))
                  boundary)
               same
               (fun error =>
                  handleApiError error itemIndex "submit binary file" EntJob))
         /\
         (forall error,
             withheld (Convert.binaryProperty p) error ->
             stopped_by (Convert.executeConvert this host p itemIndex) error))).
Proof.
  intros this host itemIndex same credentials boundary file.
  subst same credentials boundary file. split.
  - intros p created replaced createFields replaceFields byUrl byFile.
    subst created replaced createFields replaceFields byUrl byFile.
    rewrite <- (emitted_additionalFieldsOf
                  (Files.create_expiresAt (Files.createOptions p))).
    rewrite <- (emitted_additionalFieldsOf (Files.createOrReplaceOptions_expiresAt p)).
    split.
    + intros Hsrc Hurl source. subst source.
      apply nonempty_true in Hurl.
      split; unfold Files.executeCreate, Files.executeCreateOrReplace,
               Files.uploadViaUrl;
        rewrite Hsrc, Hurl; cbn [String.eqb Ascii.eqb Bool.eqb negb];
        rewrite buildUrlMultipartBody_render; send_once.
    + intros Hsrc. apply String.eqb_neq in Hsrc. split.
      * intros binaryData fileBuffer Hd.
        split; intros sent;
          unfold Files.executeCreate, Files.executeCreateOrReplace,
            Files.uploadViaBinary;
          rewrite Hsrc; rewrite (delivered_continues _ _ _ _ Hd);
          rewrite buildMultipartBody_render; revert sent; send_once.
      * intros error Hw.
        split; intros sent;
          unfold Files.executeCreate, Files.executeCreateOrReplace,
            Files.uploadViaBinary;
          rewrite Hsrc; apply withheld_stops; exact Hw.
  - intros p Hl Ho. split.
    + intros Hsrc Hurl. apply nonempty_true in Hurl.
      unfold Convert.executeConvert, Convert.submitViaUrl.
      rewrite Hsrc, Hurl. cbn [String.eqb Ascii.eqb Bool.eqb negb].
      destruct (Convert.languages p); [contradiction|].
      destruct (Convert.outputs p); [contradiction|].
      cbn [List.length Nat.eqb]. send_once.
    + intros Hsrc. apply String.eqb_neq in Hsrc. split.
      * intros binaryData fileBuffer Hd sent.
        unfold Convert.executeConvert, Convert.submitViaBinary.
        rewrite Hsrc.
        destruct (Convert.languages p); [contradiction|].
        destruct (Convert.outputs p); [contradiction|].
        cbn [List.length Nat.eqb].
        rewrite (delivered_continues _ _ _ _ Hd).
        rewrite submitViaBinary_bodyBuffer_render.
        revert sent. send_once.
      * intros error Hw sent.
        unfold Convert.executeConvert, Convert.submitViaBinary.
        rewrite Hsrc.
        destruct (Convert.languages p); [contradiction|].
        destruct (Convert.outputs p); [contradiction|].
        cbn [List.length Nat.eqb].
        apply withheld_stops. exact Hw.
Qed.

(** ** The Storage node that carries its own error handler *)



Ltac local_request_tac :=
  intros sent;
  unfold StorageLocal.executeGet, StorageLocal.executeDelete,
    StorageLocal.executeGetMetadata, StorageLocal.executeCategoryGetMany,
    StorageLocal.send;
  unfold try_catch, bind, httpRequestWithAuthentication, httpRequest;
  match goal with
  | |- context [match ?server sent ?request with _ => _ end] =>
      destruct (server sent request)
  end; reflexivity.

(** X22.  The handlers of the Storage node that carries its own error
    handler send exactly one request each, whatever the reply: a resolved
    request returns the response unchanged (delete returns the fixed object
    with deleted set to true), a rejected one is thrown through the node's
    own normalizer with the handler's operation label and the item index.
    The requests name no base URL.  The category listing is a single request
    to the base path, without pagination.  The record mutations send the data
    that [buildDataFromInput] returned, and nothing when it throws. *)
Theorem local_handlers_send_one_request :
  forall (this : IExecuteFunctions) (itemIndex : nat) (p : Storage.Parameters),
    let same := fun response : Json => response in
    let deleted := fun _ : Json => JObj [("deleted", JBool true)] in
    let normalize := fun operation error =>
      StorageLocal.handleApiError error itemIndex operation in
    let category := Storage.category p in
    let key := Storage.keyParam p in
    one_request (helpers this) (StorageLocal.executeGet this p itemIndex)
      (StorageLocal.executeGet_requestOptions category key) same
      (normalize "get record")
    /\ one_request (helpers this) (StorageLocal.executeDelete this p itemIndex)
         (StorageLocal.executeDelete_requestOptions category key) deleted
         (normalize "delete record")
    /\ one_request (helpers this) (StorageLocal.executeGetMetadata this p itemIndex)
         (StorageLocal.executeGetMetadata_requestOptions category key) same
         (normalize "get record metadata")
    /\ one_request (helpers this) (StorageLocal.executeCategoryGetMany this itemIndex)
         StorageLocal.executeCategoryGetMany_requestOptions same
         (normalize "get categories")
    /\ baseURL StorageLocal.executeCategoryGetMany_requestOptions = None
    /\ url StorageLocal.executeCategoryGetMany_requestOptions
       = "/api/v1/storage/json"
    /\ (forall JSON_parse data,
           (forall sent,
               Storage.buildDataFromInput JSON_parse p itemIndex sent
               = (Returned data, sent)) ->
           one_request (helpers this)
             (StorageLocal.executeCreate this JSON_parse p itemIndex)
             (StorageLocal.executeCreate_requestOptions category
                (Storage.additionalFields p) data)
             same (normalize "create record")
           /\ one_request (helpers this)
                (StorageLocal.executeCreateOrReplace this JSON_parse p itemIndex)
                (StorageLocal.executeCreateOrReplace_requestOptions category key
                   (Storage.additionalFields p) data)
                same (normalize "create or replace record")
           /\ one_request (helpers this)
                (StorageLocal.executeUpdate this JSON_parse p itemIndex)
                (StorageLocal.executeUpdate_requestOptions category key data)
                same (normalize "update record"))
    /\ (forall JSON_parse sent e,
           Storage.buildDataFromInput JSON_parse p itemIndex sent
           = (Thrown e, sent) ->
           StorageLocal.executeCreate this JSON_parse p itemIndex sent
           = (Thrown e, sent)
           /\ StorageLocal.executeCreateOrReplace this JSON_parse p itemIndex sent
              = (Thrown e, sent)
           /\ StorageLocal.executeUpdate this JSON_parse p itemIndex sent
              = (Thrown e, sent)).
Proof.
  intros this itemIndex p same deleted normalize category key.
  subst same deleted normalize category key.
  split; [local_request_tac|]. split; [local_request_tac|].
  split; [local_request_tac|]. split; [local_request_tac|].
  split; [reflexivity|]. split; [reflexivity|]. split.
  - intros JSON_parse data Hdata.
    repeat split; intros sent;
      unfold StorageLocal.executeCreate, StorageLocal.executeCreateOrReplace,
        StorageLocal.executeUpdate;
      rewrite (bind_returned _ _ _ _ _ (Hdata sent));
      revert sent; local_request_tac.
  - intros JSON_parse sent e H.
    unfold StorageLocal.executeCreate, StorageLocal.executeCreateOrReplace,
      StorageLocal.executeUpdate.
    rewrite !(bind_thrown _ _ _ _ _ H). repeat split.
Qed.


(* ======================================================================== *)
(** ** The further properties at concrete inputs *)

(** A file listing whose second page request meets an outage. *)
Lemma failed_page_aborts_collection_witness :
  let item := JObj [("key", JStr "k")] in
  let outage := mkHttpError (Some 503) (Some "Service Unavailable") None in
  let this :=
    mkContext (scripted [Resolve (JArr (repeat item 1000)); Reject outage])
      (mkCredentials "secret" None) false in
  exists error requests,
    Files.executeFileGetMany 5 this 0 "docs" true
      (Files.mkGetManyAdditionalFields None None None None None) 50 []
    = (Thrown (ApiExn error), requests)
    /\ apiMessageText error = "Server returned an unexpected response"
    /\ List.length requests = 2%nat.
Proof.
  intros item outage this.
  destruct (failed_page_aborts_collection this 0%nat) as [H _].
  eexists. eexists. split.
  - apply (H "docs" (Files.mkGetManyAdditionalFields None None None None None) 50
             [JArr (repeat item 1000)] [repeat item 1000] outage 5%nat []).
    + constructor; constructor.
    + constructor; [reflexivity | constructor].
    + intros i r Hi. destruct i as [|i].
      * injection Hi as <-. reflexivity.
      * destruct i; discriminate Hi.
    + reflexivity.
    + repeat constructor.
  - split; reflexivity.
Defined.

(** A file source that answers every request with a full page uses up any
    fuel: here three units, three requests. *)
Lemma full_pages_never_end_witness :
  let item := JObj [("key", JStr "k")] in
  let this :=
    mkContext (fun _ _ => Resolve (JArr (repeat item 1000)))
      (mkCredentials "secret" None) false in
  exists requests,
    Files.executeFileGetMany 3 this 0 "docs" true
      (Files.mkGetManyAdditionalFields None None None None None) 50 []
    = (OutOfFuel, requests)
    /\ List.length requests = 3%nat.
Proof.
  intros item this.
  destruct (full_pages_never_end this 0%nat) as [H _].
  eexists. split.
  - apply (H "docs" (Files.mkGetManyAdditionalFields None None None None None) 50).
    intros sent cursor. exists (JArr (repeat item 1000)), (repeat item 1000).
    split; [reflexivity | split; [constructor | reflexivity]].
  - reflexivity.
Defined.

(** A conversion submitted by URL that the service rejects as unauthorized. *)
Lemma handlers_send_one_request_witness :
  let denied := mkHttpError (Some 401) (Some "Unauthorized") None in
  let this :=
    mkContext (scripted [Reject denied]) (mkCredentials "secret" None) false in
  let fields := Convert.mkConvertAdditionalFields None None None None None in
  exists error request,
    Convert.submitViaUrl this "https://example.com/a.pdf" 2 ["en"] ["markdown"]
      fields []
    = (Thrown (ApiExn error), [request])
    /\ apiMessageText error = "Invalid API key"
    /\ apiItemIndex error = 2%nat
    /\ url request = "/api/v1/convert/submit-url".
Proof.
  intros denied this fields.
  destruct (handlers_send_one_request this 2%nat) as (_ & _ & _ & _ & H).
  eexists. eexists. split.
  - rewrite (H "https://example.com/a.pdf" ["en"] ["markdown"] fields
               ltac:(discriminate) []).
    reflexivity.
  - repeat split.
Defined.

(** The upload of a source URL to a keyed file, and the upload of a binary
    property the item does not have. *)
Lemma multipart_uploads_announce_boundary_witness :
  let this :=
    mkContext (scripted [Resolve (JObj [("key", JStr "a.txt")])])
      (mkCredentials "secret" None) false in
  let missing :=
    OperationExn
      (mkNodeOperationError (Some "The item has no binary field 'data'") 0 None) in
  let absent := mkBinaryProperty (inl missing) (inl missing) in
  (exists request,
      Files.uploadViaUrl this 1700000000000 "k3j9x" "https://example.com/a.txt" 0
        "/api/v1/files/docs/a.txt" PUT [] []
      = (Returned (JObj [("key", JStr "a.txt")]), [request])
      /\ assoc "Content-Type" (headers request)
         = Some "multipart/form-data; boundary=----n8nFormBoundary1700000000000k3j9x"
      /\ method request = PUT)
  /\ Files.uploadViaBinary this 1700000000000 "k3j9x" absent 0
       "/api/v1/files/docs/a.txt" PUT [] []
     = (Thrown missing, []).
Proof.
  intros this missing absent.
  destruct (multipart_uploads_announce_boundary this 1700000000000 "k3j9x"
              absent 0%nat "/api/v1/files/docs/a.txt" PUT [])
    as (_ & Hstop & H & _).
  split.
  - destruct (H "https://example.com/a.txt" ltac:(discriminate))
      as (request & Hone & Hct & _ & Hverb & _).
    exists request. split; [|split].
    + rewrite (Hone []). reflexivity.
    + rewrite Hct. reflexivity.
    + exact Hverb.
  - exact (proj1 (Hstop missing (or_introl eq_refl)) []).
Defined.

(** A file creation from a URL that was left empty. *)
Lemma local_validation_sends_nothing_witness :
  let this := mkContext (scripted []) (mkCredentials "secret" None) false in
  let host := mkHost (fun _ => None) (fun body _ _ => body) (fun _ => 0)
                (fun _ => "x") in
  let p :=
    Files.mkParameters "file" "create" "docs" EmptyString "url"
      (Files.mkCreateAdditionalFields None None) None None false
      (Files.mkGetManyAdditionalFields None None None None None) 50 EmptyString
      (mkBinaryProperty (inr (mkIBinaryData None None)) (inr [])) in
  exists error,
    Files.executeCreate this host p 4 [] = (Thrown (OperationExn error), [])
    /\ opMessage error = Some "Source URL is required".
Proof.
  intros this host p.
  destruct (local_validation_sends_nothing this host 4%nat) as [H _].
  destruct (H p eq_refl eq_refl) as [Hcreate _].
  destruct (Hcreate []) as [description Hrun].
  eexists. split; [exact Hrun | reflexivity].
Defined.

(** Three records to get, the second missing, with continue-on-fail off: the
    run ends at the second item and the third is never asked for. *)
Lemma drivers_run_items_in_order_witness :
  let found := fun k => JObj [("key", JStr k)] in
  let missing := mkHttpError (Some 404) (Some "Request failed") (Some "No such key") in
  let this :=
    mkContext (scripted [Resolve (found "a"); Reject missing; Resolve (found "c")])
      (mkCredentials "secret" None) false in
  let params := fun i : nat =>
    Storage.mkParameters "record" "get" "notes"
      (match i with O => "a" | S O => "b" | _ => "c" end)
      (Storage.mkAdditionalFields None None None None None)
      false false 50 1 "json" JNull None in
  let request := Storage.executeGet_requestOptions "https://api.ainoflow.io" "notes" in
  Storage.execute 1 this (fun _ => None) params [JNull; JNull; JNull] []
  = (Thrown (ApiExn (handleApiError missing 1 "get record" EntRecord)),
     [request "a"; request "b"]).
Proof.
  intros found missing this params request.
  destruct (drivers_run_items_in_order this
              (mkHost (fun _ => None) (fun body _ _ => body) (fun _ => 0)
                 (fun _ => "x"))
              1%nat) as (_ & _ & H).
  destruct (H (fun _ => None) params [JNull; JNull; JNull] []
              [request "a"; request "b"]
              [inl (found "a");
               inr (ApiExn (handleApiError missing 1 "get record" EntRecord))])
    as [_ Hstop].
  - eapply run_returned; [reflexivity|].
    eapply run_thrown; [reflexivity|]. apply run_done.
  - exact (Hstop [found "a"] _ eq_refl (le_n_S _ _ (le_S _ _ (le_n 1))) eq_refl).
Defined.


(** Two job results to fetch with continue-on-fail on, the second without a
    job id: two entries, the second an error paired with item 1.  And a
    listing of records answered with an empty array: no entry at all. *)
Lemma entries_paired_in_item_order_witness :
  let status := JObj [("id", JStr "j1"); ("status", JStr "completed")] in
  let this :=
    mkContext (scripted [Resolve status]) (mkCredentials "secret" None) true in
  let host := mkHost (fun _ => None) (fun body _ _ => body) (fun _ => 0)
                (fun _ => "x") in
  let params := fun i : nat =>
    Convert.mkParameters "getResult" "url" [] []
      (Convert.mkConvertAdditionalFields None None None None None) EmptyString
      (mkBinaryProperty (inr (mkIBinaryData None None)) (inr []))
      (match i with O => "j1" | _ => EmptyString end) false in
  let listing :=
    mkContext (scripted [Resolve (JArr [])]) (mkCredentials "secret" None)
      false in
  let records := fun _ : nat =>
    Storage.mkParameters "record" "getMany" "notes" EmptyString
      (Storage.mkAdditionalFields None None None None None)
      false false 50 1 "json" JNull None in
  (exists entries,
      fst (Convert.execute this host params [JNull; JNull] []) = Returned [entries]
      /\ List.length entries = 2%nat
      /\ exists entry,
           nth_error entries 1 = Some entry
           /\ property "pairedItem" entry = Some (pairedWith 1)
           /\ property "json" entry
              = Some (JObj [("error", JStr "Job ID is required")]))
  /\ fst (Storage.execute 1 listing (fun _ => None) records [JNull] [])
     = Returned [[]].
Proof.
  intros status this host params listing records. split.
  - destruct (entries_paired_in_item_order this [JNull; JNull] []
                [Convert.executeGetResult_requestOptions "https://api.ainoflow.io"
                   "j1"]
                [inl status;
                 inr (OperationExn
                        (mkNodeOperationError (Some "Job ID is required") 1 None))]
                eq_refl) as [H _].
    destruct (H host params eq_refl) as (entries & Hrun & Hlen & Hnth).
    + apply run_returned
        with (sent' := [Convert.executeGetResult_requestOptions
                          "https://api.ainoflow.io" "j1"]);
        [reflexivity|].
      apply run_thrown
        with (sent' := [Convert.executeGetResult_requestOptions
                          "https://api.ainoflow.io" "j1"]);
        [reflexivity|]. apply run_done.
    + exists entries. split; [rewrite Hrun; reflexivity|].
      split; [exact Hlen|].
      exact (Hnth 1%nat _ eq_refl).
  - pose (request :=
            Storage.recordGetMany_requestOptions "https://api.ainoflow.io" "notes"
              (Storage.recordGetMany_single_qs
                 (Storage.mkAdditionalFields None None None None None) 1 50 false)).
    destruct (entries_paired_in_item_order listing [JNull] [] [request]
                [inl (JArr [])] eq_refl) as [_ H].
    destruct (H 1%nat (fun _ => None) records
                (or_intror (Forall_cons (inl (JArr [])) I (Forall_nil _))))
      as (entries & Hrun & _ & groups & Hcat & Hlen & Hgroups).
    + apply run_returned with (sent' := [request]); [reflexivity|].
      apply run_done.
    + rewrite Hrun. cbn [fst]. f_equal. f_equal.
      destruct (Hgroups O _ eq_refl) as (group & Hg & Hjson & _).
      destruct groups as [|g groups]; [discriminate Hg|].
      destruct groups as [|g' groups]; [|discriminate Hlen].
      injection Hg as ->. rewrite Hcat. cbn [concat app].
      destruct group; [reflexivity | discriminate Hjson].
Defined.

(** A download answered with a quoted file name. *)
Lemma download_entry_witness :
  let quoted := DQUOTE +++ "report.pdf" +++ DQUOTE in
  let response :=
    [("headers",
      JObj [("content-type", JStr "application/pdf");
            ("content-disposition", JStr ("attachment; filename=" +++ quoted))]);
     ("body", JBuf (Buffer_from "%PDF"))] in
  let this :=
    mkContext (scripted [Resolve (JObj response)]) (mkCredentials "secret" None)
      false in
  let host := mkHost (fun _ => Some quoted) (fun body _ _ => body) (fun _ => 0)
                (fun _ => "x") in
  let params := fun _ : nat =>
    Files.mkParameters "file" "download" "docs" "r1" "binary"
      (Files.mkCreateAdditionalFields None None) None None false
      (Files.mkGetManyAdditionalFields None None None None None) 50 EmptyString
      (mkBinaryProperty (inr (mkIBinaryData None None)) (inr [])) in
  fst (Files.responseDataOf 0 this host params "file" "download" 0 [])
  = Returned (downloadEntry host "docs" "r1" "report.pdf" (JStr "application/pdf")
                (Buffer_from "%PDF") 0).
Proof.
  intros quoted response this host params.
  destruct (download_entry this host 0%nat params 0%nat [] response eq_refl)
    as [H _].
  destruct (H [("content-type", JStr "application/pdf");
               ("content-disposition", JStr ("attachment; filename=" +++ quoted))]
              (Buffer_from "%PDF") ("attachment; filename=" +++ quoted)
              eq_refl eq_refl eq_refl) as [Hrun _].
  rewrite Hrun. reflexivity.
Defined.

(** Three field pairs, one without a name and two with the same name. *)
Lemma fields_mode_last_value_wins_witness :
  let p :=
    Storage.mkParameters "record" "create" "notes" EmptyString
      (Storage.mkAdditionalFields None None None None None)
      false false 50 1 "fieldsBelow" JNull
      (Some [("color", "red"); (EmptyString, "lost"); ("color", "blue")]) in
  exists data,
    Storage.buildDataFromInput (fun _ => None) p 0 [] = (Returned (JObj data), [])
    /\ assoc "color" data = Some (JStr "blue")
    /\ (List.length data <= 3)%nat.
Proof.
  intros p.
  destruct (fields_mode_last_value_wins (fun _ => None) p 0%nat
              ltac:(discriminate)) as (data & Hrun & _ & _ & Hlen & Hlook).
  - cbn. intros [H | [H | [H | []]]]; discriminate H.
  - exists data. split; [apply Hrun|].
    split; [exact (Hlook "color" ltac:(discriminate)) | exact Hlen].
Defined.

(** A time to live of zero milliseconds is not sent. *)
Lemma ttl_travels_in_query_witness :
  qs (Storage.executeCreate_requestOptions "https://api.ainoflow.io" "notes"
        (Storage.mkAdditionalFields None None (Some 0) None None) (JObj []))
  = None.
Proof.
  destruct (ttl_travels_in_query "https://api.ainoflow.io" "notes" "k"
              (Storage.mkAdditionalFields None None (Some 0) None None) (JObj []))
    as (_ & _ & _ & _ & _ & _ & H & _).
  apply H. split.
  - left. reflexivity.
  - intros ms E. injection E as <-. apply Z.le_refl.
Defined.

(** An error that carries nothing at all, for an operation without a label. *)
Lemma api_errors_carry_text_witness :
  let e := handleApiError (mkHttpError None None None) 0 EmptyString EntJob in
  apiMessageText e <> EmptyString
  /\ apiDescription e <> Some EmptyString
  /\ apiHttpCode e = None.
Proof.
  intros e.
  assert (Hcode : statusCode (mkHttpError None None None) = None ->
                  namedCode (mkHttpError None None None)).
  { intros _ c Hc. discriminate Hc. }
  destruct (api_errors_carry_text (mkHttpError None None None) 0 EmptyString EntJob
              Hcode e (or_introl eq_refl)) as (Hm & Hd & Hc & _).
  split; [exact Hm | split; [exact Hd | exact Hc]].
Defined.

(** A missing record is worded alike by both Storage nodes, a refused
    connection too, and a server failure is not. *)
Lemma storage_normalizers_agree_witness :
  let missing := mkHttpError (Some 404) (Some "Request failed") None in
  let refused :=
    mkCaught None (Some "connect ECONNREFUSED 127.0.0.1:443") None
      (Some "ECONNREFUSED") in
  let failed := mkHttpError (Some 500) None None in
  apiMessageText (StorageLocal.handleApiError missing 0 "get record")
  = apiMessageText (handleApiError missing 0 "get record" EntRecord)
  /\ apiMessageText (StorageLocal.handleApiError refused 0 "get record")
     = "The service refused the connection - perhaps it is offline"
  /\ apiMessageText (handleApiError refused 0 "get record" EntRecord)
     = "The service refused the connection - perhaps it is offline"
  /\ apiMessageText (StorageLocal.handleApiError failed 0 "get record")
     <> apiMessageText (handleApiError failed 0 "get record" EntRecord).
Proof.
  intros missing refused failed.
  assert (Hop : In "get record" operationLabels) by (vm_compute; tauto).
  split; [|split; [|split]].
  - destruct (storage_normalizers_agree missing 0 "get record" Hop) as [H _].
    apply (H 404 eq_refl). right; right; left; reflexivity.
  - destruct (storage_normalizers_agree refused 0 "get record" Hop)
      as (_ & H & _).
    exact (proj1 (H _ (conj eq_refl eq_refl))).
  - destruct (storage_normalizers_agree refused 0 "get record" Hop)
      as (_ & H & _).
    exact (proj2 (H _ (conj eq_refl eq_refl))).
  - destruct (storage_normalizers_agree failed 0 "get record" Hop) as [H _].
    intros E. apply (H 500 eq_refl) in E.
    cbn [In] in E. repeat (destruct E as [E | E]; [discriminate E|]). exact E.
Defined.

(** A finished job with a zero processing time and no error. *)
Lemma simplified_job_status_witness :
  let response :=
    [("id", JStr "j1"); ("status", JStr "completed");
     ("processingTimeInSeconds", JNum 0); ("files", JArr []);
     ("error", JNull); ("webhookUrl", JStr "https://example.com/hook")] in
  let this :=
    mkContext (scripted [Resolve (JObj response)]) (mkCredentials "secret" None)
      false in
  let p :=
    Convert.mkParameters "getResult" "url" [] []
      (Convert.mkConvertAdditionalFields None None None None None) EmptyString
      (mkBinaryProperty (inr (mkIBinaryData None None)) (inr [])) "j1" true in
  exists out,
    fst (Convert.executeGetResult this p 0 []) = Returned (JObj out)
    /\ assoc "id" out = Some (JStr "j1")
    /\ assoc "processingTimeInSeconds" out <> None
    /\ assoc "error" out = None
    /\ assoc "webhookUrl" out = None.
Proof.
  intros response this p.
  destruct (simplified_job_status this p 0%nat [] ltac:(discriminate) eq_refl)
    as [H _].
  destruct (H response eq_refl)
    as (out & Hrun & _ & Hincl & _ & Hid & _ & Htime & _ & Herror).
  exists out. split; [rewrite Hrun; reflexivity|].
  split; [exact Hid|]. split; [|split].
  - intros E. apply Htime in E. discriminate E.
  - apply Herror. reflexivity.
  - destruct (assoc "webhookUrl" out) as [v|] eqn:E; [|reflexivity].
    exfalso.
    assert (Hin : In "webhookUrl" (map fst out)).
    { clear - E. induction out as [|[k w] out IH]; [discriminate E|].
      cbn [assoc] in E. destruct ("webhookUrl" =? k)%string eqn:Ek.
      - apply String.eqb_eq in Ek. left. symmetry. exact Ek.
      - right. exact (IH E). }
    apply Hincl in Hin. cbn in Hin.
    destruct Hin as [Hin | [Hin | [Hin | [Hin | [Hin | []]]]]]; discriminate Hin.
Defined.

(** A bounded file listing answered with plain text. *)
Lemma malformed_list_responses_witness :
  let this :=
    mkContext (scripted [Resolve (JStr "maintenance")]) (mkCredentials "secret" None)
      false in
  fst (Files.executeFileGetMany 0 this 0 "docs" false
         (Files.mkGetManyAdditionalFields None None None None None) 50 [])
  = Returned (JArr []).
Proof.
  intros this.
  destruct (malformed_list_responses this 0%nat 0%nat) as [H _].
  destruct (H "docs" (Files.mkGetManyAdditionalFields None None None None None) 50
              (JStr "maintenance") [] eq_refl) as (_ & Hprim & _).
  rewrite (Hprim I). reflexivity.
Defined.

(** A conversion with a reference and a job expiry. *)
Lemma convert_submissions_agree_witness :
  let fields :=
    Convert.mkConvertAdditionalFields None None None (Some "order-7") (Some 60) in
  let body :=
    Convert.submitViaUrl_body "https://example.com/a.pdf" ["en"; "de"]
      ["markdown"] fields in
  assoc "reference" body = Some (JStr "order-7")
  /\ assoc "response" body = Some (JStr "persisted")
  /\ exists n, assoc "jobExpiryInMinutes" body = Some (JNum n).
Proof.
  intros fields body.
  destruct (convert_submissions_agree "https://example.com/a.pdf" ["en"; "de"]
              ["markdown"] fields) as (_ & _ & _ & Hsame & Hexpiry & _ & Hresponse & _).
  split; [|split].
  - apply Hsame; [|discriminate].
    cbn. right. right. right. right. left. reflexivity.
  - apply Hresponse. left. reflexivity.
  - destruct (Hexpiry "60") as (n & _ & _ & Hn).
    + cbn. right. right. right. right. right. left. reflexivity.
    + exists n. exact Hn.
Defined.

(** The body of a URL upload with one extra field kept and one skipped. *)
Lemma url_and_convert_bodies_round_trip_witness :
  let fields := [("expiresAt", "2030-01-01T00:00:00Z"); ("note", EmptyString)] in
  let built :=
    Files.buildUrlMultipartBody 1700000000000 "k3j9x" "https://example.com/a.txt"
      fields in
  parseMultipart (snd built) (fst built)
  = Some [textPart ("sourceUrl", "https://example.com/a.txt");
          textPart ("expiresAt", "2030-01-01T00:00:00Z")].
Proof.
  intros fields built.
  destruct (url_and_convert_bodies_round_trip 1700000000000 "k3j9x" eq_refl)
    as [H _].
  destruct (H "https://example.com/a.txt" fields) as [Hb Hparse].
  - vm_compute. reflexivity.
  - repeat constructor; vm_compute; reflexivity.
  - fold built in Hb, Hparse. rewrite Hb. exact Hparse.
Defined.

(** The request that deletes a file goes out under the credential name. *)
Lemma every_request_authenticated_witness :
  authentication
    (Files.executeDelete_requestOptions "https://api.ainoflow.io" "docs" "a.txt")
  = Some "ainoflowApi".
Proof.
  destruct (every_request_authenticated Ordinary _
              (files_delete "https://api.ainoflow.io" "docs" "a.txt"))
    as [[H _] | [H _]].
  - exact H.
  - discriminate H.
Defined.

(** A download URL asked for with an expiry of zero seconds carries no query
    string. *)
Lemma optional_parameters_only_when_set_witness :
  qs (Files.executeGetUrl_requestOptions "https://api.ainoflow.io" "docs" "a.txt"
        (Some 0))
  = None.
Proof.
  destruct (optional_parameters_only_when_set
              (Files.mkGetManyAdditionalFields None None None None None) 50 0)
    as (_ & _ & _ & _ & _ & _ & _ & _ & _ & _ & H).
  apply H. right. reflexivity.
Defined.

(** A record that is missing, with continue-on-fail off: the run fails with
    the normalized error. *)
Lemma drivers_fail_with_node_errors_only_witness :
  let missing := mkHttpError (Some 404) (Some "Request failed") (Some "No such key") in
  let this :=
    mkContext (scripted [Reject missing]) (mkCredentials "secret" None) false in
  let params := fun _ : nat =>
    Storage.mkParameters "record" "get" "notes" "a"
      (Storage.mkAdditionalFields None None None None None)
      false false 50 1 "json" JNull None in
  exists e,
    fst (Storage.execute 1 this (fun _ => None) params [JNull] []) = Thrown e
    /\ node_error e.
Proof.
  intros missing this params.
  destruct (drivers_fail_with_node_errors_only this
              (mkHost (fun _ => None) (fun body _ _ => body) (fun _ => 0)
                 (fun _ => "x"))
              1%nat) as (_ & _ & H).
  exists (ApiExn (handleApiError missing 0 "get record" EntRecord)).
  split; [reflexivity|].
  exact (proj2 (H (fun _ => None) params [JNull] []
                  [Storage.executeGet_requestOptions "https://api.ainoflow.io"
                     "notes" "a"]
                  _ eq_refl)).
Defined.

(** A file created from its binary property under a key, to expire at a
    given time: one POST to the keyed path; and the same creation for an item
    whose binary content cannot be read: nothing is sent. *)
Lemma uploads_route_by_input_source_witness :
  let this :=
    mkContext (scripted [Resolve (JObj [("key", JStr "a.txt")])])
      (mkCredentials "secret" None) false in
  let host := mkHost (fun _ => None) (fun body _ _ => body)
                (fun _ => 1700000000000) (fun _ => "k3j9x") in
  let description := mkIBinaryData (Some "a.txt") (Some "text/plain") in
  let unreadable :=
    OtherExn (mkHttpError None (Some "The binary content cannot be read") None) in
  let p := fun binaryProperty =>
    Files.mkParameters "file" "create" "docs" EmptyString "binary"
      (Files.mkCreateAdditionalFields (Some "a.txt") (Some "2030-01-01T00:00:00Z"))
      None None false
      (Files.mkGetManyAdditionalFields None None None None None) 50 EmptyString
      binaryProperty in
  (exists request,
      Files.executeCreate this host
        (p (mkBinaryProperty (inr description) (inr (Buffer_from "CD")))) 0 []
      = (Returned (JObj [("key", JStr "a.txt")]), [request])
      /\ method request = POST
      /\ url request = "https://api.ainoflow.io/api/v1/files/docs/a.txt"
      /\ body request
         = Some (RawBody
                   (render "----n8nFormBoundary1700000000000k3j9x"
                      [filePart "a.txt" "text/plain" (Buffer_from "CD");
                       textPart ("expiresAt", "2030-01-01T00:00:00Z")])))
  /\ Files.executeCreate this host
       (p (mkBinaryProperty (inr description) (inl unreadable))) 0 []
     = (Thrown unreadable, []).
Proof.
  intros this host description unreadable p.
  destruct (uploads_route_by_input_source this host 0%nat) as [H _].
  split.
  - destruct (H (p (mkBinaryProperty (inr description) (inr (Buffer_from "CD")))))
      as [_ Hbinary].
    destruct (Hbinary ltac:(discriminate)) as [Hsent _].
    destruct (Hsent description (Buffer_from "CD") (conj eq_refl eq_refl))
      as [Hcreate _].
    eexists. split.
    + rewrite (Hcreate []). reflexivity.
    + repeat split.
  - destruct (H (p (mkBinaryProperty (inr description) (inl unreadable))))
      as [_ Hbinary].
    destruct (Hbinary ltac:(discriminate)) as [_ Hstop].
    refine (proj1 (Hstop unreadable _) []).
    right. exists description. split; reflexivity.
Defined.

(** A record the local-handler node cannot find. *)
Lemma local_handlers_send_one_request_witness :
  let missing := mkHttpError (Some 404) (Some "Request failed") None in
  let this :=
    mkContext (scripted [Reject missing]) (mkCredentials "secret" None) false in
  let p :=
    Storage.mkParameters "record" "create" "notes" "a"
      (Storage.mkAdditionalFields None None None None None)
      false false 50 1 "fieldsBelow" JNull (Some [("color", "red")]) in
  exists request,
    StorageLocal.executeCreate this (fun _ => None) p 0 []
    = (Thrown (ApiExn (StorageLocal.handleApiError missing 0 "create record")),
       [request])
    /\ body request = Some (JsonBody (JObj [("color", JStr "red")]))
    /\ baseURL request = None.
Proof.
  intros missing this p.
  destruct (local_handlers_send_one_request this 0%nat p)
    as (_ & _ & _ & _ & _ & _ & H & _).
  destruct (H (fun _ => None) (JObj [("color", JStr "red")])
              (fun sent => eq_refl)) as [Hcreate _].
  eexists. split.
  - rewrite (Hcreate []). reflexivity.
  - split; reflexivity.
Defined.

